(** * Veriphix: client side of a verifiable blind delegated computation

    A shallow embedding of [veriphix/client.py] and
    [veriphix/trappifiedCanvas.py], and the properties of their secret
    generation, measurement adaptation, decoding and trap construction.

    Conventions of the embedding.
    - A Python [dict] keyed by node ids is a [gmap nat _]; [d[k]] is a lookup
      that raises [KeyError], [d.get(k, 0)] is [dict_get0].
    - Python integers and booleans stored in dictionaries are [Z] ([True] is 1).
    - Python [float]s are IEEE binary64 values, Rocq's primitive [float].
    - Exceptions are values of [Exc]; a computation that may raise returns an
      [Outcome]; a method that mutates [self] or the backend is a function of
      the state that returns the state it leaves behind, also when it raises.
    - The two random generators ([numpy.random] and [random]) are tapes of raw
      draws read in order. *)

From Stdlib Require Import ZArith Floats String.
From stdpp Require Import gmap list sorting.

Open Scope Z_scope.

(** ** Python preliminaries *)

Inductive Exc : Type :=
  | KeyError (key : nat)
  | IndexError
  | ValueError (msg : string)
  | TypeError (msg : string)
  | NetworkXError (node : nat).

Inductive Outcome (A : Type) : Type :=
  | Ok (a : A)
  | Raise (e : Exc).
Arguments Ok {A} a.
Arguments Raise {A} e.

(** Sequencing: an exception raised by the first computation is propagated. *)
#[global] Instance Outcome_bind : MBind Outcome := fun A B k m =>
  match m with
  | Ok a => k a
  | Raise e => Raise e
  end.

(** [d[k]] *)
Definition dict_item {V} (d : gmap nat V) (k : nat) : Outcome V :=
  match d !! k with
  | Some v => Ok v
  | None => Raise (KeyError k)
  end.

(** [d.get(k, 0)] *)
Definition dict_get0 (d : gmap nat Z) (k : nat) : Z := default 0 (d !! k).

(** [sum(d[k] for k in dom)]: the generator is consumed left to right and the
    first missing key raises. *)
Fixpoint sum_items (d : gmap nat Z) (dom : list nat) : Outcome Z :=
  match dom with
  | [] => Ok 0
  | k :: rest =>
      v ← dict_item d k;
      s ← sum_items d rest;
      Ok (v + s)
  end.

(** A [for] loop over a list that updates its loop state. *)
Definition for_each {A S} (l : list A) (body : A -> S -> S) (s : S) : S :=
  fold_left (fun acc x => body x acc) l s.

(** A [for] loop whose body may raise: the loop stops at the first exception. *)
Fixpoint for_each_exc {A S} (l : list A) (body : A -> S -> Outcome S) (s : S)
  : Outcome S :=
  match l with
  | [] => Ok s
  | x :: rest => s' ← body x s; for_each_exc rest body s'
  end.

Definition is_bit (z : Z) : Prop := z = 0 \/ z = 1.

(** The XOR of the values a dictionary holds for the keys of [dom], a missing
    key counting for 0. *)
Definition xor_over (d : gmap nat Z) (dom : list nat) : Z :=
  foldr (fun k acc => Z.lxor (dict_get0 d k) acc) 0 dom.

(** Every key of [dom] holds a bit in [d]. *)
Definition bits_on (d : gmap nat Z) (dom : list nat) : Prop :=
  forall k, k ∈ dom -> exists v, d !! k = Some v /\ is_bit v.

(** ** Random sources *)

(** A generator is a tape of raw draws and a read position; a draw in a range
    is the raw draw reduced modulo the width of the range. *)
Record Rng : Type := mkRng { raw : nat -> Z; pos : nat }.

Definition next_raw (g : Rng) : Z * Rng :=
  (raw g (pos g), mkRng (raw g) (S (pos g))).

(** [numpy.random.randint(low, high)]: [high] is exclusive. *)
Definition np_randint (low high : Z) (g : Rng) : Z * Rng :=
  let '(x, g') := next_raw g in (low + x mod (high - low), g').

(** [random.randint(a, b)]: both ends are inclusive. *)
Definition py_randint (a b : Z) (g : Rng) : Z * Rng :=
  let '(x, g') := next_raw g in (a + x mod (b - a + 1), g').

(** ** Secrets ([client.py], lines 53-105) *)

Module Secrets.
Record t : Type := mk { r : bool; a : bool; theta : bool }.
(** [Secrets()]: every flag defaults to [False]. *)
Definition default : t := mk false false false.
End Secrets.

Module Secret_a.
Record t : Type := mk { a : gmap nat Z; a_N : gmap nat Z }.
End Secret_a.

Module SecretDatas.
Record t : Type := mk { r : gmap nat Z; a : Secret_a.t; theta : gmap nat Z }.
End SecretDatas.

Definition Graph : Type := (list nat * list (nat * nat))%type.

(** [(i, j) in edge_list or (j, i) in edge_list] *)
Definition edge_between (edge_list : list (nat * nat)) (i j : nat) : bool :=
  bool_decide ((i, j) ∈ edge_list) || bool_decide ((j, i) ∈ edge_list).

(** The neighbours of [i] in a graph given as a node list and an edge list. *)
Definition graph_neighbors (graph : Graph) (i : nat) : list nat :=
  filter (fun j => edge_between graph.2 i j = true) graph.1.

(** The body of the three drawing loops:
    [d[node] = np.random.randint(0, high) if node not in excluded else 0].
    The generator is advanced only when the draw is made. *)
Definition draw_unless (excluded : list nat) (high : Z) (node : nat)
    (st : gmap nat Z * Rng) : gmap nat Z * Rng :=
  let '(d, g) := st in
  if bool_decide (node ∉ excluded)
  then let '(v, g') := np_randint 0 high g in (<[node := v]> d, g')
  else (<[node := 0]> d, g).

(** The inner loop of the [a_N] computation, for one node [i]. *)
Definition a_N_value_of (node_list : list nat) (edge_list : list (nat * nat))
    (a : gmap nat Z) (i : nat) : Outcome Z :=
  for_each_exc node_list
    (fun j a_N_value =>
       if edge_between edge_list i j
       then a_j ← dict_item a j; Ok (Z.lxor a_N_value a_j)
       else Ok a_N_value)
    0.

Definition from_secrets (secrets : Secrets.t) (graph : Graph)
    (input_nodes output_nodes : list nat) (g : Rng)
  : Outcome SecretDatas.t * Rng :=
  let '(node_list, edge_list) := graph in
  let '(r, g) :=
    if Secrets.r secrets
    then for_each node_list (draw_unless output_nodes 2) (∅, g)
    else (∅, g) in
  let '(theta, g) :=
    if Secrets.theta secrets
    then for_each node_list (draw_unless output_nodes 8) (∅, g)
    else (∅, g) in
  if Secrets.a secrets
  then
    let '(a, g) := for_each node_list (draw_unless input_nodes 2) (∅, g) in
    let a_N :=
      for_each_exc node_list
        (fun i a_N =>
           a_N_value ← a_N_value_of node_list edge_list a i;
           Ok (<[i := a_N_value]> a_N))
        ∅ in
    (a_N ← a_N; Ok (SecretDatas.mk r (Secret_a.mk a a_N) theta), g)
  else
    (Ok (SecretDatas.mk r (Secret_a.mk ∅ ∅) theta), g).

(** ** Patterns and commands (the part of [graphix] the client reads) *)

Inductive Plane : Type := XY | YZ | XZ.

(** [graphix.command.M]: a measurement with its parameters. The domains are
    sets of node ids; they are kept in the order in which they are iterated. *)
Module M.
Record t : Type := mk {
  node : nat;
  plane : Plane;
  angle : float;
  s_domain : list nat;
  t_domain : list nat }.
(** [graphix.command.M(node=node)]: the default parameters. *)
Definition of_node (node : nat) : t := mk node XY 0%float [] [].
End M.

Module CommandKind.
Inductive t : Type := N | M | E | C | X | Z.
End CommandKind.

(** The commands of a pattern, with the fields the client reads. [BaseM] is
    the bare measurement that carries the node id only; its kind is [M], as
    for a full measurement. *)
Inductive Command : Type :=
  | cmd_N (node : nat)
  | cmd_M (m : M.t)
  | cmd_BaseM (node : nat)
  | cmd_E (nodes : nat * nat)
  | cmd_C (node : nat) (clifford : nat)
  | cmd_X (node : nat) (domain : list nat)
  | cmd_Z (node : nat) (domain : list nat).

Definition kind (cmd : Command) : CommandKind.t :=
  match cmd with
  | cmd_N _ => CommandKind.N
  | cmd_M _ | cmd_BaseM _ => CommandKind.M
  | cmd_E _ => CommandKind.E
  | cmd_C _ _ => CommandKind.C
  | cmd_X _ _ => CommandKind.X
  | cmd_Z _ _ => CommandKind.Z
  end.

#[global] Instance CommandKind_eq_dec : EqDecision CommandKind.t.
Proof. solve_decision. Defined.

(** A pattern: its input nodes, its command sequence and the outcomes of the
    nodes measured during Pauli preprocessing. [Pattern(input_nodes)] is
    [Pattern.new]; [add] appends to the sequence. The output nodes, which the
    library keeps up to date in [add], are a query of the library (see
    [pattern_output_nodes] below). *)
Module Pattern.
Record t : Type := mk {
  input_nodes : list nat;
  seq : list Command;
  results : gmap nat Z }.
Definition new (input_nodes : list nat) : t := mk input_nodes [] ∅.
Definition add (p : t) (cmd : Command) : t :=
  mk (input_nodes p) (seq p ++ [cmd]) (results p).
Definition extend (p : t) (cmds : list Command) : t :=
  for_each cmds (fun cmd p => add p cmd) p.
End Pattern.

(** A byproduct-correction command, as [Pattern.correction_commands] returns
    them: its kind is [X] or [Z]. *)
Module Correction.
Record t : Type := mk { is_Z : bool; node : nat; domain : list nat }.
End Correction.

Module ByProduct.
Record t : Type := mk { z_domain : list nat; x_domain : list nat }.
End ByProduct.

(** [get_byproduct_db] ([client.py], lines 114-125), given the pattern's
    output nodes and correction commands. *)
Definition get_byproduct_db (output_nodes : list nat)
    (correction_commands : list Correction.t) : gmap nat ByProduct.t :=
  let byproduct_db :=
    for_each output_nodes (fun node db => <[node := ByProduct.mk [] []]> db) ∅ in
  for_each correction_commands
    (fun cmd db =>
       if bool_decide (Correction.node cmd ∈ output_nodes)
       then
         if Correction.is_Z cmd
         then alter (fun bp => ByProduct.mk (Correction.domain cmd) (ByProduct.x_domain bp))
                (Correction.node cmd) db
         else alter (fun bp => ByProduct.mk (ByProduct.z_domain bp) (Correction.domain cmd))
                (Correction.node cmd) db
       else db)
    byproduct_db.

(** [remove_flow] ([client.py], lines 128-140). *)
Definition remove_flow (pattern : Pattern.t) : Pattern.t :=
  for_each (Pattern.seq pattern)
    (fun cmd clean_pattern =>
       if bool_decide (kind cmd = CommandKind.X \/ kind cmd = CommandKind.Z)
       then clean_pattern
       else
         let new_cmd :=
           match cmd with
           | cmd_M m => cmd_BaseM (M.node m)
           | cmd_BaseM node => cmd_BaseM node
           | _ => cmd
           end in
         Pattern.add clean_pattern new_cmd)
    (Pattern.new (Pattern.input_nodes pattern)).

(** [prepared_nodes_as_input_nodes] ([client.py], lines 143-153). *)
Definition prepared_nodes_as_input_nodes (pattern : Pattern.t) : Pattern.t :=
  let '(input_nodes, seq) :=
    for_each (Pattern.seq pattern)
      (fun cmd '(input_nodes, seq) =>
         match cmd with
         | cmd_N node => (input_nodes ++ [node], seq)
         | _ => (input_nodes, seq ++ [cmd])
         end)
      (Pattern.input_nodes pattern, []) in
  Pattern.extend (Pattern.new input_nodes) seq.

(** The clean form of one command, in the words of the specification: a
    byproduct correction is stripped, a measurement is reduced to the bare
    measurement of its node, any other command is kept as it is. *)
Definition clean_command (cmd : Command) : option Command :=
  match cmd with
  | cmd_X _ _ | cmd_Z _ _ => None
  | cmd_M m => Some (cmd_BaseM (M.node m))
  | cmd_BaseM node => Some (cmd_BaseM node)
  | _ => Some cmd
  end.

(** The same, for the pattern the client executes: a preparation command is
    dropped too, its node becoming an input node. *)
Definition executed_command (cmd : Command) : option Command :=
  match cmd with
  | cmd_N _ => None
  | _ => clean_command cmd
  end.

(** The nodes a command sequence prepares, in order. *)
Definition prepared_nodes (seq : list Command) : list nat :=
  omap (fun cmd => match cmd with cmd_N node => Some node | _ => None end) seq.

(** A command that exposes nothing but a node to measure, when it is a
    measurement. *)
Definition bare_if_measure (cmd : Command) : Prop :=
  kind cmd = CommandKind.M -> exists node, cmd = cmd_BaseM node.
(** ** Pauli strings ([stim.PauliString], as the canvas uses it) *)

(** The letters, in [stim]'s encoding 0=I, 1=X, 2=Y, 3=Z. *)
Inductive Pauli : Type := pI | pX | pY | pZ.

#[global] Instance Pauli_eq_dec : EqDecision Pauli.
Proof. solve_decision. Defined.

(** The sign of a Pauli string: 1, i, -1 or -i. *)
Inductive Sign : Type := sign_1 | sign_i | sign_m1 | sign_mi.

Definition sign_exp (s : Sign) : nat :=
  match s with sign_1 => 0 | sign_i => 1 | sign_m1 => 2 | sign_mi => 3 end.

Definition sign_of_exp (n : nat) : Sign :=
  match (n mod 4)%nat with
  | 0%nat => sign_1
  | 1%nat => sign_i
  | 2%nat => sign_m1
  | _ => sign_mi
  end.

Definition sign_mul (s1 s2 : Sign) : Sign :=
  sign_of_exp (sign_exp s1 + sign_exp s2).

Module PauliString.
Record t : Type := mk { sign : Sign; paulis : list Pauli }.

(** [stim.PauliString(n)]: the identity on [n] qubits, with sign +1. *)
Definition new (n : nat) : t := mk sign_1 (replicate n pI).

Definition len (s : t) : nat := length (paulis s).

(** [s.pauli_indices(letters)]: the positions that hold one of the letters,
    in increasing order. *)
Definition pauli_indices (s : t) (letters : list Pauli) : list nat :=
  (filter (fun kp => kp.2 ∈ letters) (imap pair (paulis s))).*1.

(** [s[k]] *)
Definition getitem (s : t) (k : nat) : Outcome Pauli :=
  match paulis s !! k with
  | Some p => Ok p
  | None => Raise IndexError
  end.

(** [s[k] = p] *)
Definition setitem (s : t) (k : nat) (p : Pauli) : Outcome t :=
  if bool_decide (k < len s)%nat
  then Ok (mk (sign s) (<[k := p]> (paulis s)))
  else Raise IndexError.

(** [c * s] for a sign [c] *)
Definition scale (c : Sign) (s : t) : t := mk (sign_mul c (sign s)) (paulis s).
End PauliString.

#[global] Instance Sign_eq_dec : EqDecision Sign.
Proof. solve_decision. Defined.

#[global] Instance PauliString_eq_dec : EqDecision PauliString.t.
Proof. solve_decision. Defined.

(** ** Graphs ([networkx.Graph], as the canvas uses it) *)

(** The nodes in insertion order and, for each node, its neighbours in
    insertion order, each once. *)
Module nx.
Record Graph : Type := mk { nodes : list nat; adj : gmap nat (list nat) }.

Definition empty : Graph := mk [] ∅.

Definition add_node (g : Graph) (n : nat) : Graph :=
  if bool_decide (n ∈ nodes g) then g
  else mk (nodes g ++ [n]) (<[n := []]> (adj g)).

Definition add_neighbor (g : Graph) (u v : nat) : Graph :=
  let l := default [] (adj g !! u) in
  if bool_decide (v ∈ l) then g
  else mk (nodes g) (<[u := l ++ [v]]> (adj g)).

Definition add_edge (g : Graph) (e : nat * nat) : Graph :=
  let g := add_node g e.1 in
  let g := add_node g e.2 in
  let g := add_neighbor g e.1 e.2 in
  add_neighbor g e.2 e.1.

Definition add_edges_from (g : Graph) (edges : list (nat * nat)) : Graph :=
  for_each edges (fun e g => add_edge g e) g.

Definition add_nodes_from (g : Graph) (ns : list nat) : Graph :=
  for_each ns (fun n g => add_node g n) g.

(** [g.neighbors(n)] *)
Definition neighbors (g : Graph) (n : nat) : Outcome (list nat) :=
  match adj g !! n with
  | Some l => Ok l
  | None => Raise (NetworkXError n)
  end.

(** What every graph built by the operations above satisfies: the adjacency
    has an entry for each node and only for nodes, and neighbours are nodes. *)
Definition wf (g : Graph) : Prop :=
  (forall n, n ∈ nodes g <-> is_Some (adj g !! n)) /\
  (forall n l m, adj g !! n = Some l -> m ∈ l -> m ∈ nodes g).
End nx.
(** ** The external collaborators: states, backends, library functions *)

(** The single-qubit operators the client applies. *)
Inductive Op : Type :=
  | Ops_X
  | Ops_Z
  | Pauli_X_matrix
  | Pauli_I_matrix
  | z_rotation (theta : Z).

(** [graphix.measurements.Measurement]: what the executor is told. *)
Module Measurement.
Record t : Type := mk { plane : Plane; angle : float }.
End Measurement.

(** [graphix.command.MeasureUpdate] *)
Module MeasureUpdate.
Record t : Type := mk { new_plane : Plane; coeff : Z; add_term : float }.
End MeasureUpdate.

(** The data of the library: single-qubit states and prepared state vectors.
    [pauli_eigenstate p c] is the state the canvas asks for at a node whose
    letter in the stabilizer is [p] and whose coin is [c]:
    [graphix.pauli.TABLE[p][0][0].get_eigenstate(eigenvalue=c)]. *)
Class GraphixData : Type := {
  State : Type;
  Statevec : Type;
  BasicStates_PLUS : State;
  BasicStates_MINUS : State;
  pauli_eigenstate : Pauli -> Z -> State }.

(** What [add_nodes] accepts as [data]: one state per node, or a state vector. *)
Inductive NodeData `{GraphixData} : Type :=
  | data_states (states : list State)
  | data_statevec (sv : Statevec).

(** The backend capability. A backend is a value that each operation
    transforms; [measure] also returns the outcome. *)
Class Backend `{GraphixData} (B : Type) : Type := {
  add_nodes : B -> list nat -> NodeData -> B;
  apply_single : B -> nat -> Op -> B;
  entangle_nodes : B -> nat * nat -> B;
  apply_clifford : B -> nat -> nat -> B;
  measure : B -> nat -> Measurement.t -> bool * B;
  finalize : B -> list nat -> B }.

(** The library functions the client calls: the adaptive measurement update
    (for the identity Clifford), the queries on a pattern, and the state-vector
    backend with its [state] attribute. *)
Class GraphixLib `{GraphixData} : Type := {
  MeasureUpdate_compute : Plane -> bool -> bool -> MeasureUpdate.t;
  pattern_output_nodes : Pattern.t -> list nat;
  get_graph : Pattern.t -> Graph;
  get_measurement_commands : Pattern.t -> list M.t;
  correction_commands : Pattern.t -> list Correction.t;
  StatevectorBackend : Type;
  StatevectorBackend_Backend :: Backend StatevectorBackend;
  StatevectorBackend_new : StatevectorBackend;
  StatevectorBackend_state : StatevectorBackend -> Statevec }.

(** [np.pi], the binary64 value nearest to pi. *)
Definition np_pi : float := 0x1.921fb54442d18p+1%float.

(** An integer operand of a float operation is converted to the nearest
    float. *)
Definition float_of_int (z : Z) : float :=
  SF2Prim (binary_normalize prec emax z 0 false).

(** ** The trappified canvas ([trappifiedCanvas.py]) *)

(** A trap is a set of nodes, kept in the order in which it is iterated. *)
Definition Trap : Type := list nat.

(** [common_eigenstate] (lines 47-60) *)
Definition common_eigenstate (stabilizer_1 stabilizer_2 : PauliString.t) : bool :=
  let indices (s : PauliString.t) (letter : Pauli) : gset nat :=
    list_to_set (PauliString.pauli_indices s [letter]) in
  let match_X :=
    bool_decide (indices stabilizer_1 pX ⊆ indices stabilizer_2 pX ∪ indices stabilizer_2 pI) in
  let match_Y :=
    bool_decide (indices stabilizer_1 pY ⊆ indices stabilizer_2 pY ∪ indices stabilizer_2 pI) in
  let match_Z :=
    bool_decide (indices stabilizer_1 pZ ⊆ indices stabilizer_2 pZ ∪ indices stabilizer_2 pI) in
  match_X && match_Y && match_Z.

(** [merge] (lines 62-67) *)
Definition merge (stabilizer_1 stabilizer_2 : PauliString.t) : Outcome PauliString.t :=
  let result := PauliString.scale (PauliString.sign stabilizer_2) stabilizer_1 in
  for_each_exc (PauliString.pauli_indices stabilizer_2 [pX; pY; pZ])
    (fun node result =>
       p ← PauliString.getitem stabilizer_2 node;
       PauliString.setitem result node p)
    result.

(** [fill_canonical_stabilizer] (lines 69-72) *)
Definition fill_canonical_stabilizer (graph : nx.Graph) (chain : PauliString.t)
    (node : nat) : Outcome PauliString.t :=
  chain ← PauliString.setitem chain node pX;
  neighbors ← nx.neighbors graph node;
  for_each_exc neighbors (fun n chain => PauliString.setitem chain n pZ) chain.

(** [get_canonical_stabilizer] (lines 75-78) *)
Definition get_canonical_stabilizer (graph : nx.Graph) (node : nat)
  : Outcome PauliString.t :=
  fill_canonical_stabilizer graph (PauliString.new (length (nx.nodes graph))) node.

(** [compute_trap_stabilizer] (lines 80-84) *)
Definition compute_trap_stabilizer (graph : nx.Graph) (trap : Trap)
  : Outcome PauliString.t :=
  for_each_exc trap
    (fun node trap_stabilizer => fill_canonical_stabilizer graph trap_stabilizer node)
    (PauliString.new (length (nx.nodes graph))).

(** [merge_pauli_list] (lines 86-122). The three nested [while] loops, each
    with the variables it reads and writes; [None] when the fuel runs out.
    The list is updated in place, so the loops return it. *)
Fixpoint inner_while (fuel : nat) (pauli_list : list PauliString.t)
    (i j : nat) (merged : bool) : option (Outcome (list PauliString.t * bool)) :=
  match fuel with
  | O => None
  | S fuel =>
      if bool_decide (j < length pauli_list)%nat
      then
        match pauli_list !! i, pauli_list !! j with
        | Some p_i, Some p_j =>
            if common_eigenstate p_i p_j
            then
              match merge p_i p_j with
              | Ok merged_pauli =>
                  Some (Ok (delete j (<[i := merged_pauli]> pauli_list), true))
              | Raise e => Some (Raise e)
              end
            else inner_while fuel pauli_list i (j + 1) merged
        | _, _ => Some (Raise IndexError)
        end
      else Some (Ok (pauli_list, merged))
  end.

Fixpoint middle_while (fuel : nat) (pauli_list : list PauliString.t)
    (i : nat) (merged : bool) : option (Outcome (list PauliString.t * bool)) :=
  match fuel with
  | O => None
  | S fuel =>
      if bool_decide (Z.of_nat i < Z.of_nat (length pauli_list) - 1)
      then
        match inner_while fuel pauli_list i (i + 1) merged with
        | Some (Ok (pauli_list, merged)) =>
            middle_while fuel pauli_list (if merged then i else (i + 1)%nat) merged
        | other => other
        end
      else Some (Ok (pauli_list, merged))
  end.

Fixpoint outer_while (fuel : nat) (pauli_list : list PauliString.t)
    (merged : bool) : option (Outcome (list PauliString.t)) :=
  match fuel with
  | O => None
  | S fuel =>
      if merged
      then
        match middle_while fuel pauli_list 0 false with
        | Some (Ok (pauli_list, merged)) => outer_while fuel pauli_list merged
        | Some (Raise e) => Some (Raise e)
        | None => None
        end
      else Some (Ok pauli_list)
  end.

(** The result and the list as the call leaves it. *)
Definition merge_pauli_list (fuel : nat) (pauli_list : list PauliString.t)
  : option (Outcome (PauliString.t * list PauliString.t)) :=
  match outer_while fuel pauli_list true with
  | Some (Ok pauli_list) =>
      match pauli_list !! 0%nat with
      | Some p => Some (Ok (p, pauli_list))
      | None => Some (Raise IndexError)
      end
  | Some (Raise e) => Some (Raise e)
  | None => None
  end.

(** [trap_qubits] and [dummy_qubits] (lines 124-130) *)
Definition trap_qubits (traps_list : list Trap) : list nat :=
  trap ← traps_list; node ← trap; [node].

Definition dummy_qubits (graph : nx.Graph) (traps_list : list Trap)
  : Outcome (list nat) :=
  for_each_exc (trap_qubits traps_list)
    (fun node acc => neighbors ← nx.neighbors graph node; Ok (acc ++ neighbors))
    [].

(** [generate_coins_dummies] (lines 139-146) *)
Definition generate_coins_dummies (graph : nx.Graph) (traps_list : list Trap)
    (g : Rng) : gmap nat Z * Rng :=
  for_each (nx.nodes graph)
    (fun node '(coins, g) =>
       if bool_decide (node ∉ trap_qubits traps_list)
       then let '(coin, g') := py_randint 0 1 g in (<[node := coin]> coins, g')
       else (<[node := 0]> coins, g))
    (∅, g).

(** [generate_coins_trap_qubits] (lines 148-151) *)
Definition generate_coins_trap_qubits (graph : nx.Graph) (traps_list : list Trap)
    (coins : gmap nat Z) : Outcome (gmap nat Z) :=
  for_each_exc (trap_qubits traps_list)
    (fun node coins =>
       neighbors ← nx.neighbors graph node;
       total ← sum_items coins neighbors;
       Ok (<[node := total mod 2]> coins))
    coins.

Module TrappifiedCanvas.
Record t `{GraphixData} : Type := mk {
  graph : nx.Graph;
  traps_list : list Trap;
  trap_stabilizers : list PauliString.t;
  stabilizer : PauliString.t;
  coins : gmap nat Z;
  states : list State }.
End TrappifiedCanvas.

Section canvas.
Context `{GraphixData}.

(** [generate_eigenstate] (lines 132-137) *)
Definition generate_eigenstate (graph : nx.Graph) (stabilizer : PauliString.t)
    (coins : gmap nat Z) : Outcome (list State) :=
  for_each_exc (merge_sort Nat.le (nx.nodes graph))
    (fun node states =>
       operator ← PauliString.getitem stabilizer node;
       coin ← dict_item coins node;
       Ok (states ++ [pauli_eigenstate operator coin]))
    [].

(** [TrappifiedCanvas.__init__] (lines 37-45) *)
Definition TrappifiedCanvas_init (fuel : nat) (graph : nx.Graph)
    (traps_list : list Trap) (g : Rng)
  : option (Outcome TrappifiedCanvas.t) * Rng :=
  match for_each_exc traps_list
          (fun trap acc => s ← compute_trap_stabilizer graph trap; Ok (acc ++ [s]))
          [] with
  | Raise e => (Some (Raise e), g)
  | Ok trap_stabilizers =>
      match merge_pauli_list fuel trap_stabilizers with
      | None => (None, g)
      | Some (Raise e) => (Some (Raise e), g)
      | Some (Ok (stabilizer, trap_stabilizers)) =>
          let '(dummies_coins, g) := generate_coins_dummies graph traps_list g in
          (Some (coins ← generate_coins_trap_qubits graph traps_list dummies_coins;
                 states ← generate_eigenstate graph stabilizer coins;
                 Ok (TrappifiedCanvas.mk _ graph traps_list trap_stabilizers
                       stabilizer coins states)),
           g)
      end
  end.
End canvas.
(** ** The client ([client.py], lines 156-374) *)

Module Client.
Record t `{GraphixData} : Type := mk {
  initial_pattern : Pattern.t;
  input_nodes : list nat;
  output_nodes : list nat;
  graph : Graph;
  nodes_list : list nat;
  results : gmap nat Z;
  measurement_db : gmap nat M.t;
  byproduct_db : gmap nat ByProduct.t;
  secrets : option Secrets.t;
  secret_datas : SecretDatas.t;
  clean_pattern : Pattern.t;
  input_state : list State }.

Definition set_results `{GraphixData} (c : t) (results : gmap nat Z) : t :=
  mk _ (initial_pattern c) (input_nodes c) (output_nodes c) (graph c)
     (nodes_list c) results (measurement_db c) (byproduct_db c) (secrets c)
     (secret_datas c) (clean_pattern c) (input_state c).

Definition set_measurement_db `{GraphixData} (c : t) (db : gmap nat M.t) : t :=
  mk _ (initial_pattern c) (input_nodes c) (output_nodes c) (graph c)
     (nodes_list c) (results c) db (byproduct_db c) (secrets c)
     (secret_datas c) (clean_pattern c) (input_state c).

Definition set_secret_datas `{GraphixData} (c : t) (sd : SecretDatas.t) : t :=
  mk _ (initial_pattern c) (input_nodes c) (output_nodes c) (graph c)
     (nodes_list c) (results c) (measurement_db c) (byproduct_db c) (secrets c)
     sd (clean_pattern c) (input_state c).
End Client.

(** Methods that mutate [self] or the backend: functions of the state that
    return the state they leave, also when they raise. *)
Definition Py (S A : Type) : Type := S -> Outcome A * S.

Definition py_ret {S A} (a : A) : Py S A := fun s => (Ok a, s).

Definition py_raise {S A} (e : Exc) : Py S A := fun s => (Raise e, s).

Definition py_bind {S A B} (m : Py S A) (k : A -> Py S B) : Py S B :=
  fun s =>
    match m s with
    | (Ok a, s') => k a s'
    | (Raise e, s') => (Raise e, s')
    end.

(** A computation that reads the state and may raise. *)
Definition py_lift {S A} (f : S -> Outcome A) : Py S A := fun s => (f s, s).

Definition py_modify {S} (f : S -> S) : Py S unit := fun s => (Ok tt, f s).

Notation "x ⇐ m ; k" := (py_bind m (fun x => k))
  (at level 20, m at level 100, k at level 200, only parsing).
Notation "' x ⇐ m ; k" := (py_bind m (fun x => k))
  (at level 20, x pattern, m at level 100, k at level 200, only parsing).

(** A method leaves a property of the state as it found it, whether it
    returns or raises. *)
Definition preserves {S A} (P : S -> Prop) (m : Py S A) : Prop :=
  forall s, P s -> P (m s).2.

Fixpoint py_for {A S} (l : list A) (body : A -> Py S unit) : Py S unit :=
  match l with
  | [] => py_ret tt
  | x :: rest => _ ⇐ body x; py_for rest body
  end.

(** *** Python objects, as far as iteration sees them *)

(** A dictionary iterates over its keys. An instance of a [@dataclass] has the
    methods the decorator generates ([__init__], [__repr__], [__eq__]) and the
    ones its body declares; neither [SecretDatas] nor [Secret_a] declares
    [__iter__], [__getitem__] or [__len__]. *)
Inductive PyObj : Type :=
  | py_dict (d : gmap nat Z)
  | py_dataclass (class_name : string) (field_names : list string).

Inductive PyVal : Type :=
  | val_int (z : Z)
  | val_obj (o : PyObj).

Definition type_name (o : PyObj) : string :=
  match o with
  | py_dict _ => "dict"
  | py_dataclass class_name _ => class_name
  end.

Definition not_iterable (o : PyObj) : Exc :=
  TypeError ("'" ++ type_name o ++ "' object is not iterable").

Definition not_subscriptable (o : PyObj) : Exc :=
  TypeError ("'" ++ type_name o ++ "' object is not subscriptable").

Definition unhashable (o : PyObj) : Exc :=
  TypeError ("unhashable type: '" ++ type_name o ++ "'").

Definition has_no_len (type_name : string) : Exc :=
  TypeError ("object of type '" ++ type_name ++ "' has no len()").

(** [iter(o)], run to its end: the values a [for] loop binds. *)
Definition py_iter (o : PyObj) : Outcome (list PyVal) :=
  match o with
  | py_dict d => Ok ((fun kv => val_int (Z.of_nat kv.1)) <$> map_to_list d)
  | py_dataclass _ _ => Raise (not_iterable o)
  end.

(** [o[k]] *)
Definition py_getitem (o : PyObj) (k : PyVal) : Outcome PyVal :=
  match o with
  | py_dict d =>
      match k with
      | val_int z => v ← dict_item d (Z.to_nat z); Ok (val_int v)
      | val_obj key => Raise (unhashable key)
      end
  | py_dataclass _ _ => Raise (not_subscriptable o)
  end.

(** [len(v)] *)
Definition py_len (v : PyVal) : Outcome Z :=
  match v with
  | val_int _ => Raise (has_no_len "int")
  | val_obj (py_dict d) => Ok (Z.of_nat (size d))
  | val_obj (py_dataclass class_name _) => Raise (has_no_len class_name)
  end.

(** A [SecretDatas] instance, as an object. *)
Definition SecretDatas_obj (sd : SecretDatas.t) : PyObj :=
  py_dataclass "SecretDatas" ["r"; "a"; "theta"]%string.

Section client.
Context `{GraphixLib}.

(** [Client.__init__] ([client.py], lines 157-188), with the default
    measure method. *)
Definition Client_init (pattern : Pattern.t) (input_state : option (list State))
    (secrets : option Secrets.t) (g : Rng) : Outcome Client.t * Rng :=
  let input_nodes := Pattern.input_nodes pattern in
  let output_nodes := pattern_output_nodes pattern in
  let graph := get_graph pattern in
  let nodes_list := graph.1 in
  let results := Pattern.results pattern in
  let measurement_db : gmap nat M.t :=
    for_each (get_measurement_commands pattern)
      (fun measure db => <[M.node measure := measure]> db) ∅ in
  let byproduct_db :=
    get_byproduct_db (pattern_output_nodes pattern) (correction_commands pattern) in
  let secrets' := default Secrets.default secrets in
  let '(secret_datas, g) := from_secrets secrets' graph input_nodes output_nodes g in
  let pattern_without_flow := remove_flow pattern in
  let clean_pattern := prepared_nodes_as_input_nodes pattern_without_flow in
  let input_state :=
    default ((fun _ => BasicStates_PLUS) <$> input_nodes) input_state in
  (secret_datas ← secret_datas;
   Ok (Client.mk _ pattern input_nodes output_nodes graph nodes_list results
         measurement_db byproduct_db secrets secret_datas clean_pattern
         input_state),
   g).

(** [Client.refresh_randomness] *)
Definition refresh_randomness (c : Client.t) (g : Rng) : Outcome Client.t * Rng :=
  match Client.secrets c with
  | Some secrets =>
      let '(secret_datas, g) :=
        from_secrets secrets (Client.graph c) (Client.input_nodes c)
          (Client.output_nodes c) g in
      (secret_datas ← secret_datas; Ok (Client.set_secret_datas c secret_datas), g)
  | None => (Ok c, g)
  end.

(** [Client.blind_qubits]: the bit flip first, then the rotation. *)
Definition blind_qubits {B} `{!Backend B} (c : Client.t) (backend : B) : B :=
  for_each (Client.nodes_list c)
    (fun node backend =>
       let theta := dict_get0 (SecretDatas.theta (Client.secret_datas c)) node in
       let a := dict_get0 (Secret_a.a (SecretDatas.a (Client.secret_datas c))) node in
       let backend :=
         if bool_decide (a ≠ 0)
         then apply_single backend node
                (if bool_decide (a = 1) then Pauli_X_matrix else Pauli_I_matrix)
         else backend in
       if bool_decide (theta ≠ 0)
       then apply_single backend node (z_rotation theta)
       else backend)
    backend.

(** [Client.prepare_states] *)
Definition prepare_states {B} `{!Backend B} (c : Client.t) (backend : B) : B :=
  let backend :=
    add_nodes backend (Client.input_nodes c) (data_states (Client.input_state c)) in
  let outer_nodes := Client.input_nodes c ++ Client.output_nodes c in
  let aux_nodes :=
    filter (fun node => node ∉ outer_nodes) (Client.nodes_list c) in
  let aux_data := (fun _ => BasicStates_PLUS) <$> aux_nodes in
  let backend := add_nodes backend aux_nodes (data_states aux_data) in
  let output_data :=
    (fun node =>
       let r_value := dict_get0 (SecretDatas.r (Client.secret_datas c)) node in
       let a_N_value :=
         dict_get0 (Secret_a.a_N (SecretDatas.a (Client.secret_datas c))) node in
       if bool_decide (Z.lxor r_value a_N_value = 0)
       then BasicStates_PLUS else BasicStates_MINUS)
    <$> Client.output_nodes c in
  add_nodes backend (Client.output_nodes c) (data_states output_data).

(** [Client.decode_output] *)
Definition decode_output (c : Client.t) (node : nat) : Outcome (Z * Z) :=
  byproduct ← dict_item (Client.byproduct_db c) node;
  z_sum ← sum_items (Client.results c) (ByProduct.z_domain byproduct);
  let z_decoding := z_sum mod 2 in
  let z_decoding :=
    Z.lxor z_decoding (dict_get0 (SecretDatas.r (Client.secret_datas c)) node) in
  x_sum ← sum_items (Client.results c) (ByProduct.x_domain byproduct);
  let x_decoding := x_sum mod 2 in
  let x_decoding :=
    Z.lxor x_decoding
      (dict_get0 (Secret_a.a (SecretDatas.a (Client.secret_datas c))) node) in
  Ok (z_decoding, x_decoding).

(** [Client.decode_output_state]: the backend is the state; the client is
    only read. First the body of the loop, for one output node. *)
Definition decode_output_node {B} `{!Backend B} (c : Client.t) (node : nat)
  : Py B unit :=
  '(z_decoding, x_decoding) ⇐ py_lift (fun _ => decode_output c node);
  _ ⇐ py_modify (fun backend =>
         if bool_decide (z_decoding ≠ 0)
         then apply_single backend node Ops_Z else backend);
  py_modify (fun backend =>
    if bool_decide (x_decoding ≠ 0)
    then apply_single backend node Ops_X else backend).

Definition decode_output_state {B} `{!Backend B} (c : Client.t) : Py B unit :=
  py_for (Client.output_nodes c) (decode_output_node c).

(** [Client.get_secrets_size] *)
Definition get_secrets_size (c : Client.t) : Outcome (list (PyVal * Z)) :=
  let secret_datas := SecretDatas_obj (Client.secret_datas c) in
  secrets ← py_iter secret_datas;
  for_each_exc secrets
    (fun secret secrets_size =>
       item ← py_getitem secret_datas secret;
       n ← py_len item;
       Ok (secrets_size ++ [(secret, n)]))
    [].

(** *** [ClientMeasureMethod] *)

(** [get_measurement_description(cmd)]; only [cmd.node] is read. *)
Definition get_measurement_description (c : Client.t) (node : nat)
  : Outcome Measurement.t :=
  parameters ← dict_item (Client.measurement_db c) node;
  let r_value := dict_get0 (SecretDatas.r (Client.secret_datas c)) node in
  let theta_value := dict_get0 (SecretDatas.theta (Client.secret_datas c)) node in
  let a_value := dict_get0 (Secret_a.a (SecretDatas.a (Client.secret_datas c))) node in
  let a_N_value :=
    dict_get0 (Secret_a.a_N (SecretDatas.a (Client.secret_datas c))) node in
  s_signal ← sum_items (Client.results c) (M.s_domain parameters);
  t_signal ← sum_items (Client.results c) (M.t_domain parameters);
  let measure_update :=
    MeasureUpdate_compute (M.plane parameters)
      (bool_decide (s_signal mod 2 = 1)) (bool_decide (t_signal mod 2 = 1)) in
  let angle := (M.angle parameters * np_pi)%float in
  let angle :=
    (angle * float_of_int (MeasureUpdate.coeff measure_update)
     + MeasureUpdate.add_term measure_update)%float in
  let angle :=
    (float_of_int ((-1) ^ a_value) * angle
     + float_of_int theta_value * np_pi / float_of_int 4
     + np_pi * float_of_int (r_value + a_N_value))%float in
  Ok (Measurement.mk (MeasureUpdate.new_plane measure_update) angle).

(** [get_measure_result(node)] *)
Definition get_measure_result (c : Client.t) (node : nat) : Outcome bool :=
  Raise (ValueError "Server cannot have access to measurement results").

(** [set_measure_result(node, result)] *)
Definition set_measure_result (node : nat) (result : bool) : Py Client.t unit :=
  fun c =>
    let r := SecretDatas.r (Client.secret_datas c) in
    let result' :=
      if bool_decide (r ≠ ∅)
      then r_node ← dict_item r node; Ok (Z.lxor (Z.b2z result) r_node)
      else Ok (Z.b2z result) in
    match result' with
    | Ok result => (Ok tt, Client.set_results c (<[node := result]> (Client.results c)))
    | Raise e => (Raise e, c)
    end.

(** The decoding bits of an output node, in the words of the specification. *)
Definition z_bit (c : Client.t) (node : nat) (byproduct : ByProduct.t) : Z :=
  Z.lxor (xor_over (Client.results c) (ByProduct.z_domain byproduct))
    (dict_get0 (SecretDatas.r (Client.secret_datas c)) node).

Definition x_bit (c : Client.t) (node : nat) (byproduct : ByProduct.t) : Z :=
  Z.lxor (xor_over (Client.results c) (ByProduct.x_domain byproduct))
    (dict_get0 (Secret_a.a (SecretDatas.a (Client.secret_datas c))) node).

(** The corrections decoding applies to an output node, in their order. *)
Definition decoding_ops (z_bit x_bit : Z) : list Op :=
  (if bool_decide (z_bit = 1) then [Ops_Z] else [])
  ++ (if bool_decide (x_bit = 1) then [Ops_X] else []).

Definition apply_ops {B} `{!Backend B} (node : nat) (ops : list Op) (backend : B) : B :=
  for_each ops (fun op backend => apply_single backend node op) backend.

(** The node a command measures. *)
Definition measured_node (cmd : Command) : option nat :=
  match cmd with
  | cmd_M m => Some (M.node m)
  | cmd_BaseM node => Some node
  | _ => None
  end.
End client.

(** ** The pattern simulator ([graphix.simulator], driven by the client)

    The simulator and the base class of the measure method belong to the
    library; what follows is the part of their behaviour a delegation goes
    through: the order of the calls on the backend and on the measure
    method. *)

Section delegation.
Context `{GraphixLib} {B : Type} `{!Backend B}.

(** A run owns the client and the backend. *)
Definition on_client {A} (m : Py Client.t A) : Py (Client.t * B) A :=
  fun '(c, backend) => let '(a, c') := m c in (a, (c', backend)).

Definition on_backend {A} (m : Py B A) : Py (Client.t * B) A :=
  fun '(c, backend) => let '(a, backend') := m backend in (a, (c, backend')).

(** The entry of [node] in the client's results store is [v]. *)
Definition holds (node : nat) (v : option Z) (st : Client.t * B) : Prop :=
  Client.results st.1 !! node = v.

(** [MeasureMethod.measure(backend, cmd)]: ask the client for the description,
    measure, hand the outcome back to the client. *)
Definition MeasureMethod_measure (node : nat) : Py (Client.t * B) unit :=
  description ⇐ py_lift (fun '(c, _) => get_measurement_description c node);
  result ⇐ on_backend (fun backend =>
              let '(result, backend') := measure backend node description in
              (Ok result, backend'));
  on_client (set_measure_result node result).

(** [Backend.correct_byproduct(cmd, measure_method)]: the parity of the
    outcomes of [cmd.domain], read through [get_measure_result]. *)
Definition correct_byproduct (op : Op) (node : nat) (domain : list nat)
  : Py (Client.t * B) unit :=
  outcomes ⇐ py_lift (fun '(c, _) =>
                for_each_exc domain
                  (fun j acc => v ← get_measure_result c j; Ok (acc ++ [v])) []);
  if bool_decide (Z.of_nat (length (filter (fun v => v = true) outcomes)) mod 2 = 1)
  then on_backend (py_modify (fun backend => apply_single backend node op))
  else py_ret tt.

(** What the simulator does for one command. *)
Definition run_command (cmd : Command) : Py (Client.t * B) unit :=
  match cmd with
  | cmd_N node =>
      on_backend (py_modify (fun backend =>
        add_nodes backend [node] (data_states [BasicStates_PLUS])))
  | cmd_E nodes =>
      on_backend (py_modify (fun backend => entangle_nodes backend nodes))
  | cmd_M m => MeasureMethod_measure (M.node m)
  | cmd_BaseM node => MeasureMethod_measure node
  | cmd_X node domain => correct_byproduct Ops_X node domain
  | cmd_Z node domain => correct_byproduct Ops_Z node domain
  | cmd_C node clifford =>
      on_backend (py_modify (fun backend => apply_clifford backend node clifford))
  end.

(** [PatternSimulator.run(input_state=None)], without a noise model: the
    commands in order, then [finalize] on the output nodes of the pattern. *)
Definition PatternSimulator_run (pattern : Pattern.t) : Py (Client.t * B) unit :=
  _ ⇐ py_for (Pattern.seq pattern) run_command;
  on_backend (py_modify (fun backend =>
    finalize backend (pattern_output_nodes pattern))).

(** ** Delegation ([client.py], lines 278-317) *)

(** [Client.delegate_pattern] *)
Definition delegate_pattern : Py (Client.t * B) unit :=
  _ ⇐ (fun '(c, backend) => (Ok tt, (c, prepare_states c backend)));
  _ ⇐ (fun '(c, backend) => (Ok tt, (c, blind_qubits c backend)));
  clean_pattern ⇐ py_lift (fun '(c, _) => Ok (Client.clean_pattern c));
  _ ⇐ PatternSimulator_run clean_pattern;
  fun '(c, backend) =>
    let '(a, backend') := decode_output_state c backend in (a, (c, backend')).

(** The parities a test run returns:
    [sum(self.results[component] for component in trap) % 2] for each trap. *)
Definition trap_outcomes_of (results : gmap nat Z) (traps_list : list (list nat))
  : Outcome (list Z) :=
  for_each_exc traps_list
    (fun trap trap_outcomes =>
       outcomes ← sum_items results trap;
       Ok (trap_outcomes ++ [outcomes mod 2]))
    [].

(** [Client.delegate_test_run] *)
Definition delegate_test_run (run : TrappifiedCanvas.t) : Py (Client.t * B) (list Z) :=
  _ ⇐ (fun '(c, backend) =>
         let nodes := merge_sort Nat.le (Client.graph c).1 in
         let preparation_backend :=
           add_nodes StatevectorBackend_new nodes
             (data_states (TrappifiedCanvas.states run)) in
         let preparation_backend := blind_qubits c preparation_backend in
         (Ok tt,
          (c, add_nodes backend nodes
                (data_statevec (StatevectorBackend_state preparation_backend)))));
  tmp_measurement_db ⇐ py_lift (fun '(c, _) => Ok (Client.measurement_db c));
  _ ⇐ on_client (py_modify (fun c =>
         Client.set_measurement_db c
           (for_each (map_to_list (Client.measurement_db c)).*1
              (fun node db => <[node := M.of_node node]> db)
              (Client.measurement_db c))));
  clean_pattern ⇐ py_lift (fun '(c, _) => Ok (Client.clean_pattern c));
  _ ⇐ PatternSimulator_run clean_pattern;
  trap_outcomes ⇐ py_lift (fun '(c, _) =>
     trap_outcomes_of (Client.results c) (TrappifiedCanvas.traps_list run));
  _ ⇐ on_client (py_modify (fun c => Client.set_measurement_db c tmp_measurement_db));
  py_ret trap_outcomes.
End delegation.

(** ** A recording backend and a library instance for the examples *)

(** Single-qubit states by name. *)
Inductive NamedState : Type :=
  | state_plus
  | state_minus
  | state_eigen (p : Pauli) (coin : Z).

(** What a state-vector backend was asked to prepare. *)
Inductive Preparation : Type :=
  | prep_add_nodes (nodes : list nat) (states : list NamedState)
  | prep_apply_single (node : nat) (op : Op).

#[global] Instance named_data : GraphixData := {|
  State := NamedState;
  Statevec := list Preparation;
  BasicStates_PLUS := state_plus;
  BasicStates_MINUS := state_minus;
  pauli_eigenstate := state_eigen |}.

(** The calls a backend received, in order. *)
Inductive Call : Type :=
  | call_add_nodes (nodes : list nat) (data : NodeData)
  | call_apply_single (node : nat) (op : Op)
  | call_entangle_nodes (nodes : nat * nat)
  | call_apply_clifford (node : nat) (clifford : nat)
  | call_measure (node : nat) (description : Measurement.t)
  | call_finalize (output_nodes : list nat).

(** A backend that records its calls and answers each measurement of a node
    with a fixed outcome. *)
Record Recorder : Type := mkRecorder { outcome_of : nat -> bool; calls : list Call }.

Definition record (b : Recorder) (call : Call) : Recorder :=
  mkRecorder (outcome_of b) (calls b ++ [call]).

#[global] Instance Recorder_Backend : Backend Recorder := {|
  add_nodes b nodes data := record b (call_add_nodes nodes data);
  apply_single b node op := record b (call_apply_single node op);
  entangle_nodes b nodes := record b (call_entangle_nodes nodes);
  apply_clifford b node clifford := record b (call_apply_clifford node clifford);
  measure b node description :=
    (outcome_of b node, record b (call_measure node description));
  finalize b output_nodes := record b (call_finalize output_nodes) |}.

#[global] Instance Preparation_Backend : Backend (list Preparation) := {|
  add_nodes b nodes data :=
    match data with
    | data_states states => b ++ [prep_add_nodes nodes states]
    | data_statevec sv => b ++ sv
    end;
  apply_single b node op := b ++ [prep_apply_single node op];
  entangle_nodes b nodes := b;
  apply_clifford b node clifford := b;
  measure b node description := (false, b);
  finalize b output_nodes := b |}.

(** The adaptive update for the identity Clifford: a signal on [s] conjugates
    the measured axes by X, a signal on [t] by Z; the coefficient is -1 when
    exactly one of the two axes of the plane changes sign, and pi is added when
    the cosine axis does. *)
Definition adaptive_update (plane : Plane) (s t : bool) : MeasureUpdate.t :=
  let '(cos_flipped, sin_flipped) :=
    match plane with
    | XY => (t, xorb s t)
    | YZ => (s, xorb s t)
    | XZ => (s, t)
    end in
  MeasureUpdate.mk plane
    (if eqb cos_flipped sin_flipped then 1 else -1)
    (if cos_flipped then np_pi else 0%float).

(** The queries on a standardized pattern. The output nodes are those the
    library's [add] keeps: the input nodes, plus each prepared node, minus each
    measured node. *)
Definition output_nodes_of (p : Pattern.t) : list nat :=
  for_each (Pattern.seq p)
    (fun cmd output_nodes =>
       match cmd with
       | cmd_N node => output_nodes ++ [node]
       | cmd_M m => filter (fun n => n <> M.node m) output_nodes
       | cmd_BaseM node => filter (fun n => n <> node) output_nodes
       | _ => output_nodes
       end)
    (Pattern.input_nodes p).

Definition pattern_graph (p : Pattern.t) : Graph :=
  (Pattern.input_nodes p ++ prepared_nodes (Pattern.seq p),
   omap (fun cmd => match cmd with cmd_E e => Some e | _ => None end) (Pattern.seq p)).

Definition pattern_measurements (p : Pattern.t) : list M.t :=
  omap (fun cmd => match cmd with cmd_M m => Some m | _ => None end) (Pattern.seq p).

Definition pattern_corrections (p : Pattern.t) : list Correction.t :=
  omap (fun cmd =>
          match cmd with
          | cmd_X node domain => Some (Correction.mk false node domain)
          | cmd_Z node domain => Some (Correction.mk true node domain)
          | _ => None
          end) (Pattern.seq p).

#[global] Instance named_lib : GraphixLib := {|
  MeasureUpdate_compute := adaptive_update;
  pattern_output_nodes := output_nodes_of;
  get_graph := pattern_graph;
  get_measurement_commands := pattern_measurements;
  correction_commands := pattern_corrections;
  StatevectorBackend := list Preparation;
  StatevectorBackend_Backend := Preparation_Backend;
  StatevectorBackend_new := [];
  StatevectorBackend_state := fun b => b |}.

(** A generator whose raw draws are 1, 2, 3, ... *)
Definition counting_rng : Rng := mkRng (fun n => Z.of_nat (S n)) 0.

(** A two-node pattern: node 0 is the input, node 1 is prepared, entangled with
    node 0 and left as the output; node 0 is measured and its outcome decides
    an X correction on node 1. *)
Definition two_node_pattern : Pattern.t :=
  Pattern.mk [0%nat]
    [cmd_N 1; cmd_E (0, 1)%nat; cmd_M (M.mk 0 XY 0.25%float [] []); cmd_X 1 [0%nat]]
    ∅.

(** The same pattern after Pauli preprocessing measured a node 7 with outcome
    1, on which the measurement of node 0 depends. *)
Definition preprocessed_pattern : Pattern.t :=
  Pattern.mk [0%nat]
    [cmd_N 1; cmd_E (0, 1)%nat; cmd_M (M.mk 0 XY 0.25%float [7%nat] []);
     cmd_X 1 [0%nat]]
    {[ 7%nat := 1 ]}.

Definition all_secrets : Secrets.t := Secrets.mk true true true.

(** The client [Client(preprocessed_pattern, secrets=all_secrets)] with the
    draws of [counting_rng]. *)
Definition example_client : Client.t :=
  Client.mk _ preprocessed_pattern [0%nat] [1%nat]
    ([0; 1]%nat, [(0, 1)%nat]) [0; 1]%nat
    {[ 7%nat := 1 ]}
    {[ 0%nat := M.mk 0 XY 0.25%float [7%nat] [] ]}
    {[ 1%nat := ByProduct.mk [] [0%nat] ]}
    (Some all_secrets)
    (SecretDatas.mk {[ 0%nat := 1; 1%nat := 0 ]}
       (Secret_a.mk {[ 0%nat := 0; 1%nat := 1 ]} {[ 0%nat := 1; 1%nat := 0 ]})
       {[ 0%nat := 2; 1%nat := 0 ]})
    (Pattern.mk [0; 1]%nat [cmd_E (0, 1)%nat; cmd_BaseM 0] ∅)
    [state_plus].

(** A backend that has received no call and answers 0 to every measurement. *)
Definition silent_recorder : Recorder := mkRecorder (fun _ => false) [].

(** The graph of the pattern, and the canvas with the single trap {0}. *)
Definition two_node_graph : nx.Graph :=
  nx.add_nodes_from (nx.add_edges_from nx.empty [(0, 1)%nat]) [0; 1]%nat.

Definition example_canvas : TrappifiedCanvas.t :=
  TrappifiedCanvas.mk _ two_node_graph [[0%nat]]
    [PauliString.mk sign_1 [pX; pZ]] (PauliString.mk sign_1 [pX; pZ])
    {[ 0%nat := 1; 1%nat := 1 ]}
    [state_eigen pX 1; state_eigen pZ 1].

(** One-qubit and two-qubit Pauli strings with sign +1. *)
Definition pauli_string (letters : list Pauli) : PauliString.t :=
  PauliString.mk sign_1 letters.

(** Two stabilizers with no common eigenstate. *)
Definition clashing_stabilizers : list PauliString.t :=
  [pauli_string [pX]; pauli_string [pZ]].

(** Three stabilizers: the first two merge into XZ, which clashes with the
    third. *)
Definition late_clash_stabilizers : list PauliString.t :=
  [pauli_string [pX; pI]; pauli_string [pI; pZ]; pauli_string [pZ; pI]].

(** The example client after a run in which the backend answered 1 for
    node 0: the recorded outcome is [1 XOR r(0) = 0]. *)
Definition measured_client : Client.t :=
  Client.set_results example_client {[ 0%nat := 0; 7%nat := 1 ]}.

(** ** Reference forms of the Pauli operations *)

(** A non-identity letter of the second string replaces the letter of the
    first at the same position. *)
Definition overlay (letters_1 letters_2 : list Pauli) : list Pauli :=
  imap (fun k p =>
          match letters_2 !! k with
          | Some q => if bool_decide (q = pI) then p else q
          | None => p
          end)
    letters_1.

(** The merge of two stabilizers when nothing is out of range: the signs
    multiplied, the letters of the second laid over those of the first. *)
Definition merged (stabilizer_1 stabilizer_2 : PauliString.t) : PauliString.t :=
  PauliString.mk
    (sign_mul (PauliString.sign stabilizer_2) (PauliString.sign stabilizer_1))
    (overlay (PauliString.paulis stabilizer_1) (PauliString.paulis stabilizer_2)).

(** The stabilizers of a list merged from left to right. *)
Definition merge_all (first : PauliString.t) (rest : list PauliString.t)
  : PauliString.t :=
  fold_left merged rest first.

(** Every stabilizer of the list has a common eigenstate with every later
    one. *)
Definition later_compatible (pauli_list : list PauliString.t) : Prop :=
  forall i j p_i p_j, (i < j)%nat -> pauli_list !! i = Some p_i ->
    pauli_list !! j = Some p_j -> common_eigenstate p_i p_j = true.

(** ** Reference forms for the canvas *)

(** The neighbours of the nodes of a list, a node outside the graph having
    none. *)
Definition neighbors_of (graph : nx.Graph) (nodes : list nat) : list nat :=
  t ← nodes; default [] (nx.adj graph !! t).

(** The letter of a canonical stabilizer at position [k]: Z on the
    neighbours, X on the nodes themselves, the identity elsewhere. *)
Definition canonical_letter (xs zs : list nat) (k : nat) : Pauli :=
  if bool_decide (k ∈ zs) then pZ
  else if bool_decide (k ∈ xs) then pX
  else pI.

(** The node ids of the graph are below the number of nodes, so that each is
    a position of a Pauli string over the graph. *)
Definition dense (graph : nx.Graph) : Prop :=
  forall n, n ∈ nx.nodes graph -> (n < length (nx.nodes graph))%nat.

(** No node of the list is a neighbour of a node of the list. *)
Definition apart (graph : nx.Graph) (nodes : list nat) : Prop :=
  forall t u nb, t ∈ nodes -> u ∈ nodes -> nx.adj graph !! t = Some nb -> u ∉ nb.

(** The stabilizer of a trap over a graph with [n] nodes. *)
Definition trap_stabilizer_of (graph : nx.Graph) (trap : Trap) : PauliString.t :=
  PauliString.mk sign_1
    (canonical_letter trap (neighbors_of graph trap)
       <$> seq 0 (length (nx.nodes graph))).

(** ** More examples *)

(** The canvas [TrappifiedCanvas(two_node_graph, [{1}])] with the draws of
    [counting_rng]: its only trap is the output node of the two-node
    pattern. *)
Definition output_canvas : TrappifiedCanvas.t :=
  TrappifiedCanvas.mk _ two_node_graph [[1%nat]]
    [PauliString.mk sign_1 [pZ; pX]] (PauliString.mk sign_1 [pZ; pX])
    {[ 0%nat := 1; 1%nat := 1 ]}
    [state_eigen pZ 1; state_eigen pX 1].

(** Other parameters for the measurement of node 0. *)
Definition other_measurement_db : gmap nat M.t :=
  {[ 0%nat := M.mk 0 YZ 0.5%float [] [7%nat] ]}.

(** [d] has an entry for [key] exactly when [d'] has one. *)
Definition same_keys {V W} (d : gmap nat V) (d' : gmap nat W) : Prop :=
  forall key, is_Some (d !! key) <-> is_Some (d' !! key).

(** ** Properties of runs *)

(** The only exception the method raises is [KeyError]. *)
Definition raises_only_KeyError {S A} (m : Py S A) : Prop :=
  forall s e, (m s).1 = Raise e -> exists key, e = KeyError key.

(** Every entry of the dictionary is a bit. *)
Definition bits (d : gmap nat Z) : Prop :=
  forall key v, d !! key = Some v -> is_bit v.

(** The client's [r] secrets are bits and its store holds a bit for [node]. *)
Definition recorded `{GraphixData} {B : Type} (node : nat) (st : Client.t * B) : Prop :=
  bits (SecretDatas.r (Client.secret_datas st.1)) /\
  exists v, Client.results st.1 !! node = Some v /\ is_bit v.

(** ** Reference forms for the client *)

(** The domain of the last correction of the given kind on [node], empty
    when there is none. *)
Definition last_domain (is_Z : bool) (node : nat) (corrections : list Correction.t)
  : list nat :=
  default []
    (last (Correction.domain
             <$> filter (fun cmd => Correction.is_Z cmd = is_Z /\
                                    Correction.node cmd = node)
                   corrections)).

(** The clean pattern of a pattern, as [Client.__init__] computes it. *)
Definition cleaned (pattern : Pattern.t) : Pattern.t :=
  prepared_nodes_as_input_nodes (remove_flow pattern).

(** ** Test runs ([client.py], lines 232-276)

    The colouring comes from [networkx]; it and the order in which Python
    iterates a set of colours are parameters of the model. *)

Section test_runs.
Context `{GraphixData}.

(** [nx.coloring.greedy_color(graph, strategy="largest_first")]: a
    dictionary from the nodes to their colours. *)
Variable greedy_color : nx.Graph -> gmap nat nat.

(** The order in which a set of colours is iterated. *)
Variable set_iter : gset nat -> list nat.

(** The graph [create_test_runs] builds from the graph of the client: the
    edges first, then the nodes. *)
Definition client_nx_graph (c : Client.t) : nx.Graph :=
  let '(nodes, edges) := Client.graph c in
  nx.add_nodes_from (nx.add_edges_from nx.empty edges) nodes.

(** The nodes of each colour, in increasing order. *)
Definition nodes_by_color_of (graph : nx.Graph) (coloring : gmap nat nat)
    (colors : list nat) : Outcome (gmap nat (list nat)) :=
  let nodes_by_color : gmap nat (list nat) :=
    for_each colors (fun c nodes_by_color => <[c := []]> nodes_by_color) ∅ in
  for_each_exc (merge_sort Nat.le (nx.nodes graph))
    (fun node nodes_by_color =>
       color ← dict_item coloring node;
       nodes ← dict_item nodes_by_color color;
       Ok (<[color := nodes ++ [node]]> nodes_by_color))
    nodes_by_color.

(** The loop over the colours: one canvas per colour, with a single-node
    trap for each node of the colour. *)
Fixpoint test_runs_loop (fuel : nat) (graph : nx.Graph)
    (nodes_by_color : gmap nat (list nat)) (colors : list nat)
    (runs : list TrappifiedCanvas.t) (g : Rng)
  : option (Outcome (list TrappifiedCanvas.t)) * Rng :=
  match colors with
  | [] => (Some (Ok runs), g)
  | color :: colors =>
      match dict_item nodes_by_color color with
      | Raise e => (Some (Raise e), g)
      | Ok colored_nodes =>
          let traps_list := (fun colored_node => [colored_node]) <$> colored_nodes in
          match TrappifiedCanvas_init fuel graph traps_list g with
          | (Some (Ok trappified_canvas), g) =>
              test_runs_loop fuel graph nodes_by_color colors
                (runs ++ [trappified_canvas]) g
          | (Some (Raise e), g) => (Some (Raise e), g)
          | (None, g) => (None, g)
          end
      end
  end.

(** [Client.create_test_runs]; [fuel] bounds the loops of each canvas. *)
Definition create_test_runs (fuel : nat) (c : Client.t) (g : Rng)
  : option (Outcome (list TrappifiedCanvas.t)) * Rng :=
  let graph := client_nx_graph c in
  let coloring := greedy_color graph in
  let colors := set_iter (list_to_set (map_to_list coloring).*2) in
  match nodes_by_color_of graph coloring colors with
  | Raise e => (Some (Raise e), g)
  | Ok nodes_by_color => test_runs_loop fuel graph nodes_by_color colors [] g
  end.
End test_runs.

(** The nodes of a colour, in increasing order. *)
Definition color_class (graph : nx.Graph) (coloring : gmap nat nat) (color : nat)
  : list nat :=
  filter (fun node => coloring !! node = Some color)
    (merge_sort Nat.le (nx.nodes graph)).

(** The colouring is defined on the nodes of the graph, and on them only. *)
Definition colors_nodes (graph : nx.Graph) (coloring : gmap nat nat) : Prop :=
  forall node, node ∈ nx.nodes graph <-> is_Some (coloring !! node).

(** Adjacent nodes have different colours. *)
Definition proper (graph : nx.Graph) (coloring : gmap nat nat) : Prop :=
  forall u v nb, nx.adj graph !! u = Some nb -> v ∈ nb ->
    coloring !! u <> coloring !! v.

(** The iteration of a set visits its elements, and nothing else. *)
Definition enumerates (set_iter : gset nat -> list nat) : Prop :=
  forall (X : gset nat) x, x ∈ set_iter X <-> x ∈ X.

(** A colouring of the two-node graph. *)
Definition two_colors (graph : nx.Graph) : gmap nat nat :=
  {[ 0%nat := 0%nat; 1%nat := 1%nat ]}.

(** ** Traps with an edge inside *)

(** No node of a trap is a neighbour of a node of another trap of the
    list. *)
Definition traps_pairwise_apart (graph : nx.Graph) (traps_list : list Trap) : Prop :=
  forall i j trap_i trap_j u v nb,
    i <> j -> traps_list !! i = Some trap_i -> traps_list !! j = Some trap_j ->
    u ∈ trap_i -> v ∈ trap_j -> nx.adj graph !! u = Some nb -> v ∉ nb.

(** The path 2 - 0 - 1 - 3; the trap {0, 1} holds both ends of the edge
    0 - 1. *)
Definition path_graph : nx.Graph :=
  nx.add_nodes_from
    (nx.add_edges_from nx.empty [(0, 1)%nat; (0, 2)%nat; (1, 3)%nat])
    [0; 1; 2; 3]%nat.

(** * Properties *)

(** ** Loops, parities and draws *)

Lemma for_each_snoc {A S} (l : list A) (x : A) (body : A -> S -> S) (s : S) :
  for_each (l ++ [x]) body s = body x (for_each l body s).
Proof. unfold for_each. by rewrite fold_left_app. Qed.

Lemma for_each_cons {A S} (l : list A) (x : A) (body : A -> S -> S) (s : S) :
  for_each (x :: l) body s = for_each l body (body x s).
Proof. reflexivity. Qed.

Lemma dict_item_Some {V} (d : gmap nat V) (k : nat) (v : V) :
  d !! k = Some v -> dict_item d k = Ok v.
Proof. intros Hv. unfold dict_item. by rewrite Hv. Qed.

Lemma dict_item_None {V} (d : gmap nat V) (k : nat) :
  d !! k = None -> dict_item d k = Raise (KeyError k).
Proof. intros Hv. unfold dict_item. by rewrite Hv. Qed.

Lemma is_bit_range (z : Z) : is_bit z <-> 0 <= z < 2.
Proof. unfold is_bit. lia. Qed.

Lemma is_bit_lxor (x y : Z) : is_bit x -> is_bit y -> is_bit (Z.lxor x y).
Proof. intros [-> | ->] [-> | ->]; vm_compute; auto. Qed.

Lemma mod2_is_bit (z : Z) : is_bit (z mod 2).
Proof. apply is_bit_range. apply Z.mod_pos_bound. lia. Qed.

(** The parity of a sum is the XOR of the parities. *)
Lemma add_mod2_lxor (x y : Z) : (x + y) mod 2 = Z.lxor (x mod 2) (y mod 2).
Proof.
  rewrite Zplus_mod.
  destruct (mod2_is_bit x) as [-> | ->], (mod2_is_bit y) as [-> | ->];
    reflexivity.
Qed.

Lemma is_bit_mod2 (z : Z) : is_bit z -> z mod 2 = z.
Proof. intros [-> | ->]; reflexivity. Qed.

Lemma xor_over_is_bit (d : gmap nat Z) (dom : list nat) :
  bits_on d dom -> is_bit (xor_over d dom).
Proof.
  induction dom as [| k dom IH]; intros Hb; simpl.
  - by left.
  - apply is_bit_lxor.
    + destruct (Hb k) as (v & Hv & Hbit); [left |].
      unfold dict_get0. by rewrite Hv.
    + apply IH. intros k' Hk'. apply Hb. by right.
Qed.

(** [sum(d[k] for k in dom) % 2] is the XOR of the bits. *)
Lemma sum_items_parity (d : gmap nat Z) (dom : list nat) :
  bits_on d dom ->
  exists s, sum_items d dom = Ok s /\ s mod 2 = xor_over d dom.
Proof.
  induction dom as [| k dom IH]; intros Hb; simpl.
  - by exists 0.
  - destruct (Hb k) as (v & Hv & Hbit); [left |].
    destruct IH as (s & Hs & Hpar).
    { intros k' Hk'. apply Hb. by right. }
    exists (v + s). rewrite (dict_item_Some _ _ _ Hv). simpl. rewrite Hs. simpl.
    split; [done |].
    rewrite add_mod2_lxor, Hpar, (is_bit_mod2 v Hbit).
    unfold dict_get0. by rewrite Hv.
Qed.

Lemma np_randint_range (low high : Z) (g : Rng) :
  low < high -> low <= (np_randint low high g).1 < high.
Proof.
  intros Hlt. unfold np_randint, next_raw. simpl.
  pose proof (Z.mod_pos_bound (raw g (pos g)) (high - low)). lia.
Qed.

Lemma py_randint_range (a b : Z) (g : Rng) :
  a <= b -> a <= (py_randint a b g).1 <= b.
Proof.
  intros Hle. unfold py_randint, next_raw. simpl.
  pose proof (Z.mod_pos_bound (raw g (pos g)) (b - a + 1)). lia.
Qed.

(** ** Secret generation *)

(** One drawing loop: every node of the list gets a value below [high], which
    is 0 on the excluded nodes; the other keys are left as they were. *)
Lemma draw_loop_spec (excluded : list nat) (high : Z) (node_list : list nat)
    (d : gmap nat Z) (g : Rng) :
  0 < high ->
  forall node,
    (node ∈ node_list ->
     exists v, (for_each node_list (draw_unless excluded high) (d, g)).1 !! node = Some v
               /\ 0 <= v < high /\ (node ∈ excluded -> v = 0)) /\
    (node ∉ node_list ->
     (for_each node_list (draw_unless excluded high) (d, g)).1 !! node = d !! node).
Proof.
  intros Hhigh node.
  induction node_list as [| x l IH] using rev_ind.
  - split; [intros Hin; by apply elem_of_nil in Hin | done].
  - rewrite for_each_snoc.
    destruct (for_each l (draw_unless excluded high) (d, g)) as [d' g'] eqn:Hloop.
    simpl in IH. destruct IH as [IHin IHout].
    unfold draw_unless.
    destruct (decide (node = x)) as [-> | Hne].
    + split; [intros _ | intros Hnot; exfalso; apply Hnot, elem_of_app; right; by left].
      case_bool_decide as Hex.
      * pose proof (np_randint_range 0 high g' Hhigh) as Hr.
        destruct (np_randint 0 high g') as [v g''] eqn:Hdraw. simpl in *.
        exists v. rewrite lookup_insert_eq.
        split; [done | split; [lia | intros Hin; by destruct Hex]].
      * exists 0. simpl. rewrite lookup_insert_eq. repeat split; lia.
    + assert ((if bool_decide (x ∉ excluded)
               then let '(v, g'0) := np_randint 0 high g' in (<[x:=v]> d', g'0)
               else (<[x:=0]> d', g')).1 !! node = d' !! node) as ->.
      { case_bool_decide; [destruct (np_randint 0 high g') |]; simpl;
          by rewrite lookup_insert_ne. }
      split.
      * intros Hin. apply IHin. apply elem_of_app in Hin as [Hin | Hin]; [done |].
        apply list_elem_of_singleton in Hin. congruence.
      * intros Hnot. apply IHout. intros Hin. apply Hnot, elem_of_app. by left.
Qed.

(** The inner loop of [a_N] accumulates the XOR over the neighbours. *)
Lemma a_N_loop_spec (edge_list : list (nat * nat)) (a : gmap nat Z) (i : nat)
    (l : list nat) (acc : Z) :
  (forall j, j ∈ l -> is_Some (a !! j)) ->
  for_each_exc l
    (fun j a_N_value =>
       if edge_between edge_list i j
       then a_j ← dict_item a j; Ok (Z.lxor a_N_value a_j)
       else Ok a_N_value)
    acc
  = Ok (Z.lxor acc (xor_over a (filter (fun j => edge_between edge_list i j = true) l))).
Proof.
  revert acc. induction l as [| j l IH]; intros acc Hdom; simpl.
  - by rewrite Z.lxor_0_r.
  - destruct (Hdom j) as [v Hv]; [left |].
    assert (forall j', j' ∈ l -> is_Some (a !! j')) as Hdom'.
    { intros j' Hj'. apply Hdom. by right. }
    destruct (edge_between edge_list i j) eqn:He.
    + rewrite (dict_item_Some _ _ _ Hv). simpl. rewrite (IH _ Hdom').
      rewrite filter_cons_True by done. simpl.
      unfold dict_get0 at 1. rewrite Hv. simpl. by rewrite Z.lxor_assoc.
    + simpl. rewrite (IH _ Hdom').
      rewrite filter_cons_False; [done | by rewrite He].
Qed.

(** A loop that stores [f i] under each key [i] of a list. *)
Lemma insert_loop_spec (f : nat -> Outcome Z) (h : nat -> Z) (l : list nat)
    (m : gmap nat Z) :
  (forall i, i ∈ l -> f i = Ok (h i)) ->
  exists m',
    for_each_exc l (fun i acc => v ← f i; Ok (<[i := v]> acc)) m = Ok m' /\
    forall i, m' !! i = if bool_decide (i ∈ l) then Some (h i) else m !! i.
Proof.
  revert m. induction l as [| x l IH]; intros m Hf.
  - exists m. split; [done |]. intros i.
    case_bool_decide as Hin; [by apply elem_of_nil in Hin | done].
  - cbn [for_each_exc]. rewrite (Hf x) by (by left). simpl.
    destruct (IH (<[x := h x]> m)) as (m' & Hrun & Hlook).
    { intros i Hi. apply Hf. by right. }
    exists m'. split; [done |]. intros i. rewrite Hlook.
    repeat case_bool_decide; try done.
    + exfalso. match goal with Hn : i ∉ x :: l |- _ => apply Hn end. by right.
    + match goal with Hc : i ∈ x :: l |- _ => apply elem_of_cons in Hc as [-> | Hc] end;
        [by rewrite lookup_insert_eq | done].
    + rewrite lookup_insert_ne; [done |]. intros ->.
      match goal with Hn : i ∉ i :: l |- _ => apply Hn end. by left.
Qed.

(** As the client reads a drawn map, with [.get(node, 0)]: in range at every
    node, 0 at the excluded ones. *)
Lemma draw_loop_get0 (excluded : list nat) (high : Z) (node_list : list nat)
    (g : Rng) (node : nat) :
  0 < high ->
  0 <= dict_get0 (for_each node_list (draw_unless excluded high) (∅, g)).1 node < high /\
  (node ∈ excluded ->
   dict_get0 (for_each node_list (draw_unless excluded high) (∅, g)).1 node = 0).
Proof.
  intros Hhigh. unfold dict_get0.
  destruct (draw_loop_spec excluded high node_list ∅ g Hhigh node) as [Hin Hout].
  destruct (decide (node ∈ node_list)) as [Hnode | Hnode].
  - destruct (Hin Hnode) as (v & -> & Hrange & Hzero). simpl. by split.
  - rewrite (Hout Hnode), lookup_empty. simpl. split; [lia | done].
Qed.

(** Secret generation never raises. *)
Lemma from_secrets_returns (secrets : Secrets.t) (graph : Graph)
    (input_nodes output_nodes : list nat) (g : Rng) :
  exists sd, (from_secrets secrets graph input_nodes output_nodes g).1 = Ok sd.
Proof.
  destruct graph as [node_list edge_list]. unfold from_secrets.
  destruct (if Secrets.r secrets then _ else _) as [r g1].
  destruct (if Secrets.theta secrets then _ else _) as [theta g2].
  destruct (Secrets.a secrets); [| by eexists].
  pose proof (fun node => draw_loop_spec input_nodes 2 node_list ∅ g2 ltac:(lia) node)
    as Ha.
  destruct (for_each node_list (draw_unless input_nodes 2) (∅, g2)) as [a g3].
  simpl in Ha.
  destruct (insert_loop_spec
              (a_N_value_of node_list edge_list a)
              (fun i => xor_over a (graph_neighbors (node_list, edge_list) i))
              node_list ∅) as (a_N & Hrun & _).
  { intros i _. unfold a_N_value_of. rewrite a_N_loop_spec.
    - by rewrite Z.lxor_0_l.
    - intros j Hj. destruct (Ha j) as [Hspec _].
      destruct (Hspec Hj) as (v & Hv & _). by exists v. }
  simpl. rewrite Hrun. by eexists.
Qed.

(** C8. For every graph with its input and output nodes, secret generation
    returns (it never raises) secrets such that: when [r] is enabled every
    node has a bit, 0 on the output nodes; when [theta] is enabled every node
    has a value in 0..7, 0 on the output nodes; when [a] is enabled every node
    has a bit, 0 on the input nodes, and [a_N(i)] is the XOR of [a(j)] over the
    neighbours [j] of [i], read from the completed [a]; a disabled flag gives
    the empty map, which reads as 0 at every node. In every case, read with
    [.get(node, 0)], [r] and [a] are bits and [theta] is in 0..7 at every node,
    [r] and [theta] are 0 on the output nodes and [a] is 0 on the input
    nodes. *)
Theorem from_secrets_spec (secrets : Secrets.t) (graph : Graph)
    (input_nodes output_nodes : list nat) (g : Rng) :
  exists sd,
    (from_secrets secrets graph input_nodes output_nodes g).1 = Ok sd /\
    (if Secrets.r secrets
     then forall node, node ∈ graph.1 ->
            exists v, SecretDatas.r sd !! node = Some v /\ is_bit v /\
                      (node ∈ output_nodes -> v = 0)
     else SecretDatas.r sd = ∅ /\
          forall node, dict_get0 (SecretDatas.r sd) node = 0) /\
    (if Secrets.theta secrets
     then forall node, node ∈ graph.1 ->
            exists v, SecretDatas.theta sd !! node = Some v /\ 0 <= v <= 7 /\
                      (node ∈ output_nodes -> v = 0)
     else SecretDatas.theta sd = ∅ /\
          forall node, dict_get0 (SecretDatas.theta sd) node = 0) /\
    (if Secrets.a secrets
     then (forall node, node ∈ graph.1 ->
             exists v, Secret_a.a (SecretDatas.a sd) !! node = Some v /\ is_bit v /\
                       (node ∈ input_nodes -> v = 0)) /\
          (forall i, i ∈ graph.1 ->
             Secret_a.a_N (SecretDatas.a sd) !! i
             = Some (xor_over (Secret_a.a (SecretDatas.a sd)) (graph_neighbors graph i)))
     else (Secret_a.a (SecretDatas.a sd) = ∅ /\ Secret_a.a_N (SecretDatas.a sd) = ∅) /\
          forall node, dict_get0 (Secret_a.a (SecretDatas.a sd)) node = 0 /\
                       dict_get0 (Secret_a.a_N (SecretDatas.a sd)) node = 0) /\
    (forall node,
       is_bit (dict_get0 (SecretDatas.r sd) node) /\
       0 <= dict_get0 (SecretDatas.theta sd) node <= 7 /\
       is_bit (dict_get0 (Secret_a.a (SecretDatas.a sd)) node) /\
       (node ∈ output_nodes ->
        dict_get0 (SecretDatas.r sd) node = 0 /\
        dict_get0 (SecretDatas.theta sd) node = 0) /\
       (node ∈ input_nodes ->
        dict_get0 (Secret_a.a (SecretDatas.a sd)) node = 0)).
Proof.
  destruct graph as [node_list edge_list]. unfold from_secrets.
  set (rg := if Secrets.r secrets
             then for_each node_list (draw_unless output_nodes 2) (∅, g)
             else (∅, g)).
  assert ((if Secrets.r secrets
           then forall node, node ∈ node_list ->
                  exists v, rg.1 !! node = Some v /\ is_bit v /\
                            (node ∈ output_nodes -> v = 0)
           else rg.1 = ∅ /\ forall node, dict_get0 rg.1 node = 0) /\
          forall node, is_bit (dict_get0 rg.1 node) /\
                       (node ∈ output_nodes -> dict_get0 rg.1 node = 0)) as [Hr Hr0].
  { subst rg. destruct (Secrets.r secrets).
    - split; intros node.
      + intros Hin.
        destruct (draw_loop_spec output_nodes 2 node_list ∅ g ltac:(lia) node)
          as [Hspec _].
        destruct (Hspec Hin) as (v & Hv & Hrange & Hzero).
        exists v. split; [done |]. split; [apply is_bit_range; lia | done].
      + destruct (draw_loop_get0 output_nodes 2 node_list g node ltac:(lia))
          as [Hrange Hzero].
        split; [apply is_bit_range; lia | done].
    - split; [by split |]. intros node. split; [by left | done]. }
  destruct rg as [r g1]. simpl in Hr, Hr0.
  set (tg := if Secrets.theta secrets
             then for_each node_list (draw_unless output_nodes 8) (∅, g1)
             else (∅, g1)).
  assert ((if Secrets.theta secrets
           then forall node, node ∈ node_list ->
                  exists v, tg.1 !! node = Some v /\ 0 <= v <= 7 /\
                            (node ∈ output_nodes -> v = 0)
           else tg.1 = ∅ /\ forall node, dict_get0 tg.1 node = 0) /\
          forall node, 0 <= dict_get0 tg.1 node <= 7 /\
                       (node ∈ output_nodes -> dict_get0 tg.1 node = 0)) as [Ht Ht0].
  { subst tg. destruct (Secrets.theta secrets).
    - split; intros node.
      + intros Hin.
        destruct (draw_loop_spec output_nodes 8 node_list ∅ g1 ltac:(lia) node)
          as [Hspec _].
        destruct (Hspec Hin) as (v & Hv & Hrange & Hzero).
        exists v. split; [done |]. split; [lia | done].
      + destruct (draw_loop_get0 output_nodes 8 node_list g1 node ltac:(lia))
          as [Hrange Hzero].
        split; [lia | done].
    - split; [by split |]. intros node. split; [done | done]. }
  destruct tg as [theta g2]. simpl in Ht, Ht0.
  destruct (Secrets.a secrets).
  - pose proof (fun node => draw_loop_spec input_nodes 2 node_list ∅ g2 ltac:(lia) node)
      as Ha.
    pose proof (fun node => draw_loop_get0 input_nodes 2 node_list g2 node ltac:(lia))
      as Ha0.
    destruct (for_each node_list (draw_unless input_nodes 2) (∅, g2)) as [a g3].
    simpl in Ha, Ha0.
    destruct (insert_loop_spec
                (a_N_value_of node_list edge_list a)
                (fun i => xor_over a (graph_neighbors (node_list, edge_list) i))
                node_list ∅) as (a_N & Hrun & Hlook).
    { intros i _. unfold a_N_value_of. rewrite a_N_loop_spec.
      - by rewrite Z.lxor_0_l.
      - intros j Hj. destruct (Ha j) as [Hspec _].
        destruct (Hspec Hj) as (v & Hv & _). by exists v. }
    simpl. rewrite Hrun. simpl.
    eexists. split; [reflexivity |]. simpl.
    split; [done |]. split; [done |]. split; [split |].
    + intros node Hin. destruct (Ha node) as [Hspec _].
      destruct (Hspec Hin) as (v & Hv & Hrange & Hzero).
      exists v. split; [done |]. split; [apply is_bit_range; lia | done].
    + intros i Hi. rewrite Hlook. by rewrite bool_decide_eq_true_2.
    + intros node. destruct (Hr0 node) as [Hrb Hrz], (Ht0 node) as [Htb Htz],
        (Ha0 node) as [Hab Haz].
      split; [done |]. split; [done |]. split; [apply is_bit_range; lia |].
      split; [| done]. intros Hout. split; [by apply Hrz | by apply Htz].
  - simpl. eexists. split; [reflexivity |]. simpl.
    split; [done |]. split; [done |]. split; [by repeat split |].
    intros node. destruct (Hr0 node) as [Hrb Hrz], (Ht0 node) as [Htb Htz].
    split; [done |]. split; [done |]. split; [by left |].
    split; [| done]. intros Hout. split; [by apply Hrz | by apply Htz].
Qed.

(** ** The clean pattern *)

Lemma remove_flow_loop (cmds : list Command) (acc : Pattern.t) :
  for_each cmds
    (fun cmd clean_pattern =>
       if bool_decide (kind cmd = CommandKind.X \/ kind cmd = CommandKind.Z)
       then clean_pattern
       else
         let new_cmd :=
           match cmd with
           | cmd_M m => cmd_BaseM (M.node m)
           | cmd_BaseM node => cmd_BaseM node
           | _ => cmd
           end in
         Pattern.add clean_pattern new_cmd)
    acc
  = Pattern.mk (Pattern.input_nodes acc) (Pattern.seq acc ++ omap clean_command cmds)
      (Pattern.results acc).
Proof.
  revert acc. induction cmds as [| cmd cmds IH]; intros acc.
  - simpl. rewrite app_nil_r. by destruct acc.
  - rewrite for_each_cons, IH.
    destruct cmd; simpl; try by rewrite <- app_assoc.
    all: reflexivity.
Qed.

Lemma remove_flow_seq (pattern : Pattern.t) :
  Pattern.seq (remove_flow pattern) = omap clean_command (Pattern.seq pattern) /\
  Pattern.input_nodes (remove_flow pattern) = Pattern.input_nodes pattern.
Proof. unfold remove_flow. by rewrite remove_flow_loop. Qed.

Lemma extend_seq (cmds : list Command) (p : Pattern.t) :
  Pattern.extend p cmds
  = Pattern.mk (Pattern.input_nodes p) (Pattern.seq p ++ cmds) (Pattern.results p).
Proof.
  revert p. unfold Pattern.extend.
  induction cmds as [| cmd cmds IH]; intros p.
  - simpl. rewrite app_nil_r. by destruct p.
  - rewrite for_each_cons, IH. simpl. by rewrite <- app_assoc.
Qed.

Lemma prepared_loop (cmds : list Command) (input_nodes : list nat)
    (seq : list Command) :
  for_each cmds
    (fun cmd '(input_nodes, seq) =>
       match cmd with
       | cmd_N node => (input_nodes ++ [node], seq)
       | _ => (input_nodes, seq ++ [cmd])
       end)
    (input_nodes, seq)
  = (input_nodes ++ prepared_nodes cmds,
     seq ++ filter (fun cmd => kind cmd <> CommandKind.N) cmds).
Proof.
  revert input_nodes seq. induction cmds as [| cmd cmds IH]; intros input_nodes seq.
  - simpl. by rewrite !app_nil_r.
  - rewrite for_each_cons.
    destruct cmd; rewrite IH; unfold prepared_nodes; simpl;
      first [ by rewrite <- app_assoc
            | rewrite filter_cons_True by done; by rewrite <- app_assoc ].
Qed.

Lemma prepared_nodes_as_input_nodes_seq (pattern : Pattern.t) :
  Pattern.seq (prepared_nodes_as_input_nodes pattern)
  = filter (fun cmd => kind cmd <> CommandKind.N) (Pattern.seq pattern) /\
  Pattern.input_nodes (prepared_nodes_as_input_nodes pattern)
  = Pattern.input_nodes pattern ++ prepared_nodes (Pattern.seq pattern).
Proof.
  unfold prepared_nodes_as_input_nodes. rewrite prepared_loop, extend_seq. done.
Qed.

Lemma clean_command_kind (cmd cmd' : Command) :
  clean_command cmd = Some cmd' ->
  kind cmd' <> CommandKind.X /\ kind cmd' <> CommandKind.Z /\ bare_if_measure cmd'.
Proof.
  unfold bare_if_measure.
  destruct cmd; simpl; intros [= <-]; simpl; repeat split; try done; eauto.
Qed.

Lemma filter_omap_clean (cmds : list Command) :
  filter (fun cmd => kind cmd <> CommandKind.N) (omap clean_command cmds)
  = omap executed_command cmds.
Proof.
  induction cmds as [| cmd cmds IH]; [done |].
  destruct cmd; cbn [omap list_omap clean_command executed_command];
    first [ exact IH
          | rewrite filter_cons_True by done; by rewrite IH
          | rewrite filter_cons_False by (intros Hk; by apply Hk); exact IH ].
Qed.

Lemma prepared_nodes_clean (cmds : list Command) :
  prepared_nodes (omap clean_command cmds) = prepared_nodes cmds.
Proof.
  unfold prepared_nodes.
  induction cmds as [| cmd cmds IH]; [done |].
  destruct cmd; cbn [omap list_omap clean_command]; by rewrite ?IH.
Qed.

(** C5 (as amended). For every pattern, the client built from it holds a clean
    pattern whose commands are those of the pattern, in their order, with every
    X and Z correction stripped, every measurement reduced to the bare
    measurement of its node, and every preparation command removed, its node
    appended to the input nodes; the other commands are unchanged. The output
    of [remove_flow] alone is the pattern's sequence with the corrections
    stripped and the measurements reduced, everything else unchanged. *)
Theorem clean_pattern_spec `{GraphixLib} (pattern : Pattern.t)
    (input_state : option (list State)) (secrets : option Secrets.t) (g : Rng) :
  exists c,
    (Client_init pattern input_state secrets g).1 = Ok c /\
    Pattern.seq (Client.clean_pattern c) = omap executed_command (Pattern.seq pattern) /\
    Pattern.input_nodes (Client.clean_pattern c)
    = Pattern.input_nodes pattern ++ prepared_nodes (Pattern.seq pattern) /\
    (forall cmd, cmd ∈ Pattern.seq (Client.clean_pattern c) ->
       kind cmd <> CommandKind.X /\ kind cmd <> CommandKind.Z /\ bare_if_measure cmd) /\
    Pattern.seq (remove_flow pattern) = omap clean_command (Pattern.seq pattern).
Proof.
  unfold Client_init.
  destruct (from_secrets_returns (default Secrets.default secrets) (get_graph pattern)
              (Pattern.input_nodes pattern) (pattern_output_nodes pattern) g)
    as (sd & Hsd).
  destruct (from_secrets _ _ _ _ g) as [o g']. simpl in Hsd. subst o. simpl.
  eexists. split; [reflexivity |]. simpl.
  destruct (prepared_nodes_as_input_nodes_seq (remove_flow pattern)) as [Hseq Hin].
  destruct (remove_flow_seq pattern) as [Hrf Hrin].
  assert (Pattern.seq (prepared_nodes_as_input_nodes (remove_flow pattern))
          = omap executed_command (Pattern.seq pattern)) as Hexec.
  { by rewrite Hseq, Hrf, filter_omap_clean. }
  split; [done |]. split.
  { by rewrite Hin, Hrin, Hrf, prepared_nodes_clean. }
  split; [| done].
  intros cmd Hcmd. rewrite Hseq in Hcmd.
  apply list_elem_of_filter in Hcmd as [_ Hcmd]. rewrite Hrf in Hcmd.
  apply list_elem_of_omap in Hcmd as (cmd0 & _ & Hclean).
  by apply clean_command_kind in Hclean.
Qed.

(** C5 (as stated) fails: the prepare command of the two-node pattern is
    neither a correction nor a measurement, and the clean pattern the client
    executes does not contain it. *)
Lemma clean_pattern_drops_preparation :
  exists c,
    (Client_init two_node_pattern None None counting_rng).1 = Ok c /\
    cmd_N 1 ∈ Pattern.seq two_node_pattern /\
    clean_command (cmd_N 1) = Some (cmd_N 1) /\
    (cmd_N 1 ∉ Pattern.seq (Client.clean_pattern c)) /\
    Pattern.seq (Client.clean_pattern c) = [cmd_E (0, 1)%nat; cmd_BaseM 0].
Proof.
  eexists. split; [vm_compute; reflexivity |]. simpl.
  split; [by left |]. split; [done |]. split; [| vm_compute; reflexivity].
  vm_compute. intros Hin.
  repeat (apply elem_of_cons in Hin as [Hin | Hin]; [discriminate |]).
  by apply elem_of_nil in Hin.
Qed.

(** ** The measure method *)

(** C9. For every client and every node, [get_measure_result] raises the
    [ValueError] that forbids the query (the specification's [ForbiddenQuery])
    and returns no measurement result. *)
Theorem get_measure_result_forbidden `{GraphixData} (c : Client.t) (node : nat) :
  get_measure_result c node
  = Raise (ValueError "Server cannot have access to measurement results") /\
  forall result, get_measure_result c node <> Ok result.
Proof. split; [reflexivity | discriminate]. Qed.

(** C10. For every client, [get_secrets_size] raises a [TypeError]: the
    [SecretDatas] instance it iterates over is not iterable, so no size map is
    returned. *)
Theorem get_secrets_size_raises `{GraphixData} (c : Client.t) :
  get_secrets_size c = Raise (TypeError "'SecretDatas' object is not iterable") /\
  forall secrets_size, get_secrets_size c <> Ok secrets_size.
Proof. split; [reflexivity | discriminate]. Qed.

(** C4. For a node with measurement parameters in the client's table, whose
    domains hold recorded bits, the description the measure method computes
    carries the plane updated by the adaptive update for [s] and [t], the
    parities of the recorded results over the two domains, and the angle
    [(-1)^a * corrected_angle + theta * pi / 4 + pi * (r + a_N)], where
    [corrected_angle] is the base angle (in units of pi) times pi, times the
    coefficient of the update, plus its additive term; and this description is
    the one the backend's [measure] receives. *)
Theorem measurement_description_spec `{GraphixLib} (c : Client.t) (node : nat)
    (parameters : M.t) :
  Client.measurement_db c !! node = Some parameters ->
  bits_on (Client.results c) (M.s_domain parameters) ->
  bits_on (Client.results c) (M.t_domain parameters) ->
  let r : Z := dict_get0 (SecretDatas.r (Client.secret_datas c)) node in
  let theta : Z := dict_get0 (SecretDatas.theta (Client.secret_datas c)) node in
  let a : Z := dict_get0 (Secret_a.a (SecretDatas.a (Client.secret_datas c))) node in
  let a_N : Z := dict_get0 (Secret_a.a_N (SecretDatas.a (Client.secret_datas c))) node in
  let s : Z := xor_over (Client.results c) (M.s_domain parameters) in
  let t : Z := xor_over (Client.results c) (M.t_domain parameters) in
  let update :=
    MeasureUpdate_compute (M.plane parameters) (bool_decide (s = 1)) (bool_decide (t = 1)) in
  let corrected_angle :=
    (M.angle parameters * np_pi * float_of_int (MeasureUpdate.coeff update)
     + MeasureUpdate.add_term update)%float in
  let description :=
    Measurement.mk (MeasureUpdate.new_plane update)
      (float_of_int ((-1) ^ a) * corrected_angle
       + float_of_int theta * np_pi / float_of_int 4
       + np_pi * float_of_int (r + a_N))%float in
  get_measurement_description c node = Ok description /\
  forall (B : Type) `(!Backend B) (backend : B),
    (MeasureMethod_measure node (c, backend)).2.2 = (measure backend node description).2.
Proof.
  intros Hdb Hs Ht r theta a a_N s t update corrected_angle description.
  assert (get_measurement_description c node = Ok description) as Hdesc.
  { unfold get_measurement_description.
    rewrite (dict_item_Some _ _ _ Hdb). simpl.
    destruct (sum_items_parity _ _ Hs) as (s_signal & -> & Hspar).
    destruct (sum_items_parity _ _ Ht) as (t_signal & -> & Htpar).
    simpl. by rewrite Hspar, Htpar. }
  split; [done |].
  intros B HB backend. unfold MeasureMethod_measure, py_bind, py_lift, on_backend.
  rewrite Hdesc. destruct (measure backend node description) as [result backend'].
  unfold on_client. simpl. by destruct (set_measure_result node result c).
Qed.

Lemma measurement_description_witness :
  Client.measurement_db example_client !! 0%nat
  = Some (M.mk 0 XY 0.25%float [7%nat] []) /\
  bits_on (Client.results example_client) [7%nat] /\
  bits_on (Client.results example_client) [] /\
  get_measurement_description example_client 0
  = Ok (Measurement.mk XY 0x1.c463abeccb2bbp+2%float).
Proof.
  assert (bits_on (Client.results example_client) [7%nat]) as Hs.
  { intros k Hk. apply list_elem_of_singleton in Hk as ->.
    exists 1. split; [reflexivity | by right]. }
  assert (bits_on (Client.results example_client) []) as Ht.
  { intros k Hk. by apply elem_of_nil in Hk. }
  split; [reflexivity |]. split; [exact Hs |]. split; [exact Ht |].
  destruct (measurement_description_spec example_client 0
              (M.mk 0 XY 0.25%float [7%nat] []) eq_refl Hs Ht) as [Hdesc _].
  rewrite Hdesc. vm_compute. reflexivity.
Defined.

(** ** Decoding *)

Lemma decode_output_bits `{GraphixData} (c : Client.t) (node : nat)
    (byproduct : ByProduct.t) :
  Client.byproduct_db c !! node = Some byproduct ->
  bits_on (Client.results c) (ByProduct.z_domain byproduct) ->
  bits_on (Client.results c) (ByProduct.x_domain byproduct) ->
  decode_output c node = Ok (z_bit c node byproduct, x_bit c node byproduct).
Proof.
  intros Hdb Hz Hx. unfold decode_output.
  rewrite (dict_item_Some _ _ _ Hdb). simpl.
  destruct (sum_items_parity _ _ Hz) as (z_sum & -> & Hzpar).
  destruct (sum_items_parity _ _ Hx) as (x_sum & -> & Hxpar).
  simpl. by rewrite Hzpar, Hxpar.
Qed.

Lemma bit_nonzero (z : Z) : is_bit z -> (z <> 0 <-> z = 1).
Proof. unfold is_bit. lia. Qed.

(** The body of the decoding loop, for one output node: Z when [z_bit = 1],
    then X when [x_bit = 1], and nothing else. *)
Lemma decode_output_node_ops `{GraphixData} {B : Type} `{!Backend B} (c : Client.t)
    (node : nat) (byproduct : ByProduct.t) (backend : B) :
  Client.byproduct_db c !! node = Some byproduct ->
  bits_on (Client.results c) (ByProduct.z_domain byproduct) ->
  bits_on (Client.results c) (ByProduct.x_domain byproduct) ->
  is_bit (dict_get0 (SecretDatas.r (Client.secret_datas c)) node) ->
  is_bit (dict_get0 (Secret_a.a (SecretDatas.a (Client.secret_datas c))) node) ->
  decode_output_node c node backend
  = (Ok tt,
     apply_ops node
       (decoding_ops (z_bit c node byproduct) (x_bit c node byproduct)) backend).
Proof.
  intros Hdb Hz Hx Hr Ha.
  unfold decode_output_node, py_bind, py_lift, py_modify.
  rewrite (decode_output_bits c node byproduct Hdb Hz Hx).
  assert (is_bit (z_bit c node byproduct)) as Hzb.
  { apply is_bit_lxor; [by apply xor_over_is_bit | done]. }
  assert (is_bit (x_bit c node byproduct)) as Hxb.
  { apply is_bit_lxor; [by apply xor_over_is_bit | done]. }
  unfold decoding_ops, apply_ops.
  pose proof (bit_nonzero _ Hzb) as Hznz. pose proof (bit_nonzero _ Hxb) as Hxnz.
  repeat case_bool_decide; simpl; try reflexivity; exfalso; tauto.
Qed.

(** A loop whose body returns at every element returns, having applied the
    bodies in the order of the list. *)
Lemma py_for_returns {A S} (l : list A) (body : A -> Py S unit) (step : A -> S -> S)
    (s : S) :
  (forall x s, x ∈ l -> body x s = (Ok tt, step x s)) ->
  py_for l body s = (Ok tt, for_each l step s).
Proof.
  revert s. induction l as [| x l IH]; intros s Hbody; [done |].
  cbn [py_for]. unfold py_bind. rewrite (Hbody x s) by (by left).
  rewrite for_each_cons. apply IH. intros y s' Hy. apply Hbody. by right.
Qed.

(** C6. For a client whose output nodes each have an entry in the byproduct
    table with domains that hold recorded bits, and bit secrets [r] and [a]:
    for every output node, decoding returns [z_bit], the XOR of the recorded
    results over the Z domain of the node XOR [r(node)], and [x_bit], the XOR
    over its X domain XOR [a(node)]; and the decoder [decode_output_state]
    returns, having visited the output nodes in their order and applied to
    the backend, at each of them, a Z correction iff [z_bit = 1] and then an X
    correction iff [x_bit = 1], and nothing else. *)
Theorem decode_output_spec `{GraphixData} (c : Client.t)
    (byproduct_of : nat -> ByProduct.t) :
  (forall node, node ∈ Client.output_nodes c ->
     Client.byproduct_db c !! node = Some (byproduct_of node) /\
     bits_on (Client.results c) (ByProduct.z_domain (byproduct_of node)) /\
     bits_on (Client.results c) (ByProduct.x_domain (byproduct_of node)) /\
     is_bit (dict_get0 (SecretDatas.r (Client.secret_datas c)) node) /\
     is_bit (dict_get0 (Secret_a.a (SecretDatas.a (Client.secret_datas c))) node)) ->
  (forall node, node ∈ Client.output_nodes c ->
     decode_output c node
     = Ok (z_bit c node (byproduct_of node), x_bit c node (byproduct_of node))) /\
  forall (B : Type) `(!Backend B) (backend : B),
    decode_output_state c backend
    = (Ok tt,
       for_each (Client.output_nodes c)
         (fun node backend =>
            for_each
              ((if bool_decide (z_bit c node (byproduct_of node) = 1)
                then [Ops_Z] else [])
               ++ (if bool_decide (x_bit c node (byproduct_of node) = 1)
                   then [Ops_X] else []))
              (fun op backend => apply_single backend node op)
              backend)
         backend).
Proof.
  intros Hall. split.
  - intros node Hnode. destruct (Hall node Hnode) as (Hdb & Hz & Hx & _).
    by apply decode_output_bits.
  - intros B HB backend. unfold decode_output_state.
    apply py_for_returns. intros node b Hnode.
    destruct (Hall node Hnode) as (Hdb & Hz & Hx & Hr & Ha).
    by rewrite (decode_output_node_ops c node (byproduct_of node) b Hdb Hz Hx Hr Ha).
Qed.

Lemma decode_output_witness :
  Client.output_nodes measured_client = [1%nat] /\
  Client.byproduct_db measured_client !! 1%nat = Some (ByProduct.mk [] [0%nat]) /\
  bits_on (Client.results measured_client) [0%nat] /\
  decode_output measured_client 1 = Ok (0, 1) /\
  decode_output_state measured_client silent_recorder
  = (Ok tt, mkRecorder (outcome_of silent_recorder) [call_apply_single 1 Ops_X]).
Proof.
  assert (bits_on (Client.results measured_client) [0%nat]) as Hx.
  { intros k Hk. apply list_elem_of_singleton in Hk as ->.
    exists 0. split; [reflexivity | by left]. }
  assert (bits_on (Client.results measured_client) []) as Hz.
  { intros k Hk. by apply elem_of_nil in Hk. }
  split; [reflexivity |]. split; [reflexivity |]. split; [exact Hx |].
  destruct (decode_output_spec measured_client (fun _ => ByProduct.mk [] [0%nat]))
    as [Hdec Hstate].
  - intros node Hnode. apply list_elem_of_singleton in Hnode as ->.
    split; [reflexivity |]. split; [exact Hz |]. split; [exact Hx |].
    split; [by left | by right].
  - split; [by rewrite (Hdec 1%nat) by (by left) |].
    by rewrite (Hstate Recorder Recorder_Backend silent_recorder).
Defined.

(** Every output node of the pattern has an entry in the byproduct table. *)
Lemma get_byproduct_db_output (output_nodes : list nat)
    (corrections : list Correction.t) (node : nat) :
  node ∈ output_nodes ->
  is_Some (get_byproduct_db output_nodes corrections !! node).
Proof.
  intros Hnode. unfold get_byproduct_db.
  set (fresh := for_each output_nodes
                  (fun node db => <[node := ByProduct.mk [] []]> db) ∅).
  assert (is_Some (fresh !! node)) as Hfresh.
  { subst fresh. clear corrections. revert Hnode.
    induction output_nodes as [| x l IH] using rev_ind; intros Hnode.
    - by apply elem_of_nil in Hnode.
    - rewrite for_each_snoc. destruct (decide (node = x)) as [-> | Hne].
      + rewrite lookup_insert_eq. by eexists.
      + rewrite lookup_insert_ne by done. apply IH.
        apply elem_of_app in Hnode as [Hnode | Hnode]; [done |].
        apply list_elem_of_singleton in Hnode. congruence. }
  clearbody fresh. revert fresh Hfresh.
  induction corrections as [| cmd cmds IH]; intros db Hdb; [done |].
  rewrite for_each_cons. apply IH.
  case_bool_decide; [| done].
  destruct (decide (Correction.node cmd = node)) as [-> | Hne].
  - destruct Hdb as [bp Hbp].
    destruct (Correction.is_Z cmd); rewrite lookup_alter_eq, Hbp; by eexists.
  - destruct (Correction.is_Z cmd); by rewrite lookup_alter_ne.
Qed.

(** What the client records for a measured node is a bit, when the [r]
    secrets are bits. *)
Lemma set_measure_result_bit `{GraphixData} (c : Client.t) (node : nat)
    (result : bool) :
  (forall n v, SecretDatas.r (Client.secret_datas c) !! n = Some v -> is_bit v) ->
  (set_measure_result node result c).1 = Ok tt ->
  exists v, Client.results (set_measure_result node result c).2 !! node = Some v /\
            is_bit v.
Proof.
  intros Hr. unfold set_measure_result.
  assert (is_bit (Z.b2z result)) as Hb by (destruct result; [by right | by left]).
  case_bool_decide.
  - destruct (SecretDatas.r (Client.secret_datas c) !! node) as [r_node |] eqn:Hnode.
    + rewrite (dict_item_Some _ _ _ Hnode). simpl. intros _.
      eexists. rewrite lookup_insert_eq. split; [done |].
      apply is_bit_lxor; [done | by apply (Hr node)].
    + by rewrite (dict_item_None _ _ Hnode).
  - simpl. intros _. eexists. rewrite lookup_insert_eq. by split.
Qed.

(** ** The results store across runs *)

Lemma example_client_built :
  (Client_init preprocessed_pattern None (Some all_secrets) counting_rng).1
  = Ok example_client.
Proof. vm_compute. reflexivity. Qed.

Lemma example_canvas_built :
  (TrappifiedCanvas_init 10 two_node_graph [[0%nat]] counting_rng).1
  = Some (Ok example_canvas).
Proof. vm_compute. reflexivity. Qed.

Lemma preserves_bind {S A B} (P : S -> Prop) (m : Py S A) (k : A -> Py S B) :
  preserves P m -> (forall a, preserves P (k a)) -> preserves P (py_bind m k).
Proof.
  intros Hm Hk s Hs. unfold py_bind.
  specialize (Hm s Hs). destruct (m s) as [[a | e] s']; simpl in *; [| done].
  by apply Hk.
Qed.

Lemma preserves_ret {S A} (P : S -> Prop) (a : A) : preserves P (py_ret a).
Proof. by intros s Hs. Qed.

Lemma preserves_lift {S A} (P : S -> Prop) (f : S -> Outcome A) :
  preserves P (py_lift f).
Proof. by intros s Hs. Qed.

Lemma preserves_for {S A} (P : S -> Prop) (l : list A) (body : A -> Py S unit) :
  (forall x, x ∈ l -> preserves P (body x)) -> preserves P (py_for l body).
Proof.
  induction l as [| x l IH]; intros Hbody; cbn [py_for].
  - apply preserves_ret.
  - apply preserves_bind.
    + apply Hbody. by left.
    + intros _. apply IH. intros y Hy. apply Hbody. by right.
Qed.

Section results_store.
Context `{GraphixLib} {B : Type} `{!Backend B}.

Lemma on_backend_holds {A} (node : nat) (v : option Z) (m : Py B A) :
  preserves (holds node v) (on_backend m).
Proof.
  intros [c backend] Hs. unfold on_backend. by destruct (m backend).
Qed.

Lemma set_measure_result_holds (node n : nat) (v : option Z) (result : bool) :
  n <> node ->
  preserves (holds node v) (on_client (B := B) (set_measure_result n result)).
Proof.
  intros Hne [c backend] Hs. unfold on_client, set_measure_result, holds in *.
  simpl in *.
  case_bool_decide; [destruct (dict_item _ n) |]; simpl; try done;
    by rewrite lookup_insert_ne.
Qed.

Lemma MeasureMethod_measure_holds (node n : nat) (v : option Z) :
  n <> node -> preserves (holds node v) (MeasureMethod_measure (B := B) n).
Proof.
  intros Hne. unfold MeasureMethod_measure.
  apply preserves_bind; [apply preserves_lift |]. intros description.
  apply preserves_bind; [apply on_backend_holds |]. intros result.
  by apply set_measure_result_holds.
Qed.

Lemma correct_byproduct_holds (node : nat) (v : option Z) (op : Op) (n : nat)
    (domain : list nat) :
  preserves (holds node v) (correct_byproduct (B := B) op n domain).
Proof.
  unfold correct_byproduct.
  apply preserves_bind; [apply preserves_lift |]. intros outcomes.
  case_bool_decide; [apply on_backend_holds | apply preserves_ret].
Qed.

Lemma run_command_holds (node : nat) (v : option Z) (cmd : Command) :
  measured_node cmd <> Some node ->
  preserves (holds node v) (run_command (B := B) cmd).
Proof.
  intros Hcmd.
  destruct cmd; simpl in *;
    first [ apply on_backend_holds
          | apply correct_byproduct_holds
          | apply MeasureMethod_measure_holds; congruence ].
Qed.

Lemma PatternSimulator_run_holds (node : nat) (v : option Z) (pattern : Pattern.t) :
  (forall cmd, cmd ∈ Pattern.seq pattern -> measured_node cmd <> Some node) ->
  preserves (holds node v) (PatternSimulator_run (B := B) pattern).
Proof.
  intros Hseq. unfold PatternSimulator_run.
  apply preserves_bind; [| intros _; apply on_backend_holds].
  apply preserves_for. intros cmd Hcmd.
  by apply run_command_holds, Hseq.
Qed.

Lemma delegate_pattern_holds (node : nat) (c : Client.t) (backend : B) :
  (forall cmd, cmd ∈ Pattern.seq (Client.clean_pattern c) ->
     measured_node cmd <> Some node) ->
  Client.results (delegate_pattern (c, backend)).2.1 !! node
  = Client.results c !! node.
Proof.
  intros Hseq. unfold delegate_pattern, py_bind, py_lift. simpl.
  pose proof (PatternSimulator_run_holds node (Client.results c !! node)
                (Client.clean_pattern c) Hseq
                (c, blind_qubits c (prepare_states c backend)) eq_refl) as Hrun.
  destruct (PatternSimulator_run _ _) as [[[] | e] [c' backend']]; simpl in *;
    [| done].
  by destruct (decode_output_state c' backend').
Qed.

Lemma delegate_test_run_holds (node : nat) (run : TrappifiedCanvas.t)
    (c : Client.t) (backend : B) :
  (forall cmd, cmd ∈ Pattern.seq (Client.clean_pattern c) ->
     measured_node cmd <> Some node) ->
  Client.results (delegate_test_run run (c, backend)).2.1 !! node
  = Client.results c !! node.
Proof.
  intros Hseq. unfold delegate_test_run, py_bind, py_lift, on_client, py_modify, py_ret.
  simpl.
  match goal with
  | |- context [PatternSimulator_run ?p ?st] =>
      pose proof (PatternSimulator_run_holds node (Client.results c !! node)
                    p Hseq st eq_refl) as Hrun;
      destruct (PatternSimulator_run p st) as [[[] | e] [c' backend']]
  end; simpl in *; [| done].
  by destruct (trap_outcomes_of _ _).
Qed.
End results_store.

(** C3 (as amended). Neither [delegate_pattern] nor [delegate_test_run]
    resets the results store: for every client, backend and canvas, the entry
    of a node that the clean pattern does not measure is, when the run ends
    (by returning or by raising), what it was when the run started; a run
    writes only the entries of the nodes it measures. *)
Theorem results_not_reset `{GraphixLib} (B : Type) `(!Backend B) (c : Client.t)
    (backend : B) (run : TrappifiedCanvas.t) (node : nat) :
  (forall cmd, cmd ∈ Pattern.seq (Client.clean_pattern c) ->
     measured_node cmd <> Some node) ->
  Client.results (delegate_pattern (c, backend)).2.1 !! node
  = Client.results c !! node /\
  Client.results (delegate_test_run run (c, backend)).2.1 !! node
  = Client.results c !! node.
Proof.
  intros Hseq. split.
  - by apply delegate_pattern_holds.
  - by apply delegate_test_run_holds.
Qed.

Lemma results_not_reset_witness :
  (forall cmd, cmd ∈ Pattern.seq (Client.clean_pattern example_client) ->
     measured_node cmd <> Some 7%nat) /\
  Client.results (delegate_pattern (example_client, silent_recorder)).2.1 !! 7%nat
  = Client.results example_client !! 7%nat /\
  Client.results
    (delegate_test_run example_canvas (example_client, silent_recorder)).2.1 !! 7%nat
  = Client.results example_client !! 7%nat.
Proof.
  assert (forall cmd, cmd ∈ Pattern.seq (Client.clean_pattern example_client) ->
            measured_node cmd <> Some 7%nat) as Hseq.
  { intros cmd Hcmd. simpl in Hcmd.
    repeat (apply elem_of_cons in Hcmd as [-> | Hcmd]; [discriminate |]).
    by apply elem_of_nil in Hcmd. }
  split; [exact Hseq |].
  exact (results_not_reset Recorder Recorder_Backend example_client silent_recorder
           example_canvas 7%nat Hseq).
Defined.

(** C3 (as stated) fails. The store of the example client holds the outcome
    of node 7 when [delegate_pattern] starts; the run reads it (on an emptied
    store the same run raises [KeyError 7]) and leaves it in place next to the
    outcome it records for node 0; the test run that follows starts from that
    store, not from an empty one, and leaves the entry of node 7 in place too. *)
Lemma results_survive_runs :
  let first_run := delegate_pattern (example_client, silent_recorder) in
  let second_run := delegate_test_run example_canvas (first_run.2.1, silent_recorder) in
  Client.results example_client = {[ 7%nat := 1 ]} /\
  first_run.1 = Ok tt /\
  (delegate_pattern (Client.set_results example_client ∅, silent_recorder)).1
  = Raise (KeyError 7) /\
  Client.results first_run.2.1 = {[ 0%nat := 1; 7%nat := 1 ]} /\
  second_run.1 = Ok [1] /\
  Client.results second_run.2.1 = {[ 0%nat := 1; 7%nat := 1 ]}.
Proof. vm_compute. repeat split; reflexivity. Qed.

(** ** The parities a test run returns *)

Lemma trap_outcomes_loop (results : gmap nat Z) (traps_list : list (list nat))
    (acc : list Z) :
  (forall trap, trap ∈ traps_list -> bits_on results trap) ->
  for_each_exc traps_list
    (fun trap trap_outcomes =>
       outcomes ← sum_items results trap;
       Ok (trap_outcomes ++ [outcomes mod 2]))
    acc
  = Ok (acc ++ (xor_over results <$> traps_list)).
Proof.
  revert acc. induction traps_list as [| trap traps IH]; intros acc Hbits.
  - simpl. by rewrite app_nil_r.
  - cbn [for_each_exc].
    destruct (sum_items_parity results trap (Hbits trap ltac:(by left)))
      as (s & -> & Hpar).
    simpl. rewrite IH by (intros t Ht; apply Hbits; by right).
    rewrite Hpar. by rewrite <- app_assoc.
Qed.

(** One parity per trap, each the XOR of the recorded bits of the trap's
    nodes. *)
Lemma trap_outcomes_parities (results : gmap nat Z) (traps_list : list (list nat)) :
  (forall trap, trap ∈ traps_list -> bits_on results trap) ->
  trap_outcomes_of results traps_list = Ok (xor_over results <$> traps_list).
Proof. intros Hbits. unfold trap_outcomes_of. by rewrite trap_outcomes_loop. Qed.

(** What a test run returns was computed from the store the run left. *)
Lemma delegate_test_run_returns `{GraphixLib} {B : Type} `{!Backend B}
    (run : TrappifiedCanvas.t) (st : Client.t * B) (trap_outcomes : list Z) :
  (delegate_test_run run st).1 = Ok trap_outcomes ->
  trap_outcomes_of (Client.results (delegate_test_run run st).2.1)
    (TrappifiedCanvas.traps_list run)
  = Ok trap_outcomes.
Proof.
  destruct st as [c backend].
  unfold delegate_test_run, py_bind, py_lift, on_client, py_modify, py_ret. simpl.
  destruct (PatternSimulator_run _ _) as [[[] | e] [c' backend']]; simpl;
    [| discriminate].
  destruct (trap_outcomes_of (Client.results c') _) as [outs | e] eqn:Houts; simpl;
    [| discriminate].
  by intros [= <-].
Qed.

(** The parities a test run returns: one per trap of the canvas, in order,
    each the XOR of the bits the store holds for the nodes of the trap when the
    run ends. *)
Lemma delegate_test_run_parities `{GraphixLib} (B : Type) `(!Backend B)
    (run : TrappifiedCanvas.t) (st : Client.t * B) (trap_outcomes : list Z) :
  (delegate_test_run run st).1 = Ok trap_outcomes ->
  (forall trap, trap ∈ TrappifiedCanvas.traps_list run ->
     bits_on (Client.results (delegate_test_run run st).2.1) trap) ->
  trap_outcomes
  = xor_over (Client.results (delegate_test_run run st).2.1)
      <$> TrappifiedCanvas.traps_list run.
Proof.
  intros Hrun Hbits. apply delegate_test_run_returns in Hrun.
  rewrite (trap_outcomes_parities _ _ Hbits) in Hrun. by injection Hrun.
Qed.

Lemma delegate_test_run_parities_witness :
  (delegate_test_run example_canvas (example_client, silent_recorder)).1 = Ok [1] /\
  [1] = xor_over
          (Client.results
             (delegate_test_run example_canvas (example_client, silent_recorder)).2.1)
          <$> [[0%nat]].
Proof.
  split; [vm_compute; reflexivity |].
  apply (delegate_test_run_parities Recorder Recorder_Backend example_canvas
           (example_client, silent_recorder) [1]).
  - vm_compute. reflexivity.
  - intros trap Htrap. apply list_elem_of_singleton in Htrap as ->.
    intros k Hk. apply list_elem_of_singleton in Hk as ->.
    exists 1. split; [vm_compute; reflexivity | by right].
Defined.

(** ** Merging stabilizers *)

(** No stabilizer of the list has a common eigenstate with a later one. *)
Lemma inner_while_no_merge (fuel : nat) (pauli_list : list PauliString.t)
    (i j : nat) (merged : bool) (p_i : PauliString.t) :
  pauli_list !! i = Some p_i ->
  (forall j' p_j, (j <= j')%nat -> pauli_list !! j' = Some p_j ->
     common_eigenstate p_i p_j = false) ->
  (length pauli_list - j < fuel)%nat ->
  inner_while fuel pauli_list i j merged = Some (Ok (pauli_list, merged)).
Proof.
  revert j. induction fuel as [| fuel IH]; intros j Hi Hclash Hfuel; [lia |].
  cbn [inner_while]. case_bool_decide as Hj; [| done].
  rewrite Hi.
  destruct (lookup_lt_is_Some_2 pauli_list j Hj) as [p_j Hpj]. rewrite Hpj.
  rewrite (Hclash j p_j ltac:(lia) Hpj).
  apply IH; [done | | lia].
  intros j' p_j' Hle. apply Hclash. lia.
Qed.

Lemma middle_while_no_merge (fuel : nat) (pauli_list : list PauliString.t)
    (i : nat) :
  (forall i j p_i p_j, (i < j)%nat -> pauli_list !! i = Some p_i ->
     pauli_list !! j = Some p_j -> common_eigenstate p_i p_j = false) ->
  (length pauli_list - i < fuel)%nat ->
  middle_while fuel pauli_list i false = Some (Ok (pauli_list, false)).
Proof.
  intros Hclash. revert i.
  induction fuel as [| fuel IH]; intros i Hfuel; [lia |].
  cbn [middle_while]. case_bool_decide as Hi; [| done].
  destruct (lookup_lt_is_Some_2 pauli_list i ltac:(lia)) as [p_i Hpi].
  rewrite (inner_while_no_merge fuel pauli_list i (i + 1) false p_i Hpi).
  - apply IH. lia.
  - intros j' p_j Hle. apply (Hclash i j'); [lia | done].
  - lia.
Qed.

(** C2 (as amended). [merge_pauli_list] has no failure for stabilizers that
    do not merge: when no stabilizer of a non-empty list has a common
    eigenstate with a later one, the call returns, with enough fuel for as
    many loop iterations as the list is long, the first stabilizer and leaves
    the list as it was, however many stabilizers remain. *)
Theorem merge_pauli_list_no_failure (pauli_list : list PauliString.t)
    (first : PauliString.t) (fuel : nat) :
  pauli_list !! 0%nat = Some first ->
  (forall i j p_i p_j, (i < j)%nat -> pauli_list !! i = Some p_i ->
     pauli_list !! j = Some p_j -> common_eigenstate p_i p_j = false) ->
  (length pauli_list + 2 <= fuel)%nat ->
  merge_pauli_list fuel pauli_list = Some (Ok (first, pauli_list)).
Proof.
  intros Hfirst Hclash Hfuel.
  destruct fuel as [| [| fuel]]; [lia | lia |].
  unfold merge_pauli_list. cbn [outer_while].
  rewrite (middle_while_no_merge (S fuel) pauli_list 0 Hclash) by lia.
  by rewrite Hfirst.
Qed.

Lemma merge_pauli_list_no_failure_witness :
  clashing_stabilizers !! 0%nat = Some (pauli_string [pX]) /\
  (length clashing_stabilizers + 2 <= 4)%nat /\
  merge_pauli_list 4 clashing_stabilizers
  = Some (Ok (pauli_string [pX], clashing_stabilizers)).
Proof.
  split; [reflexivity |]. split; [simpl; lia |].
  apply (merge_pauli_list_no_failure clashing_stabilizers (pauli_string [pX]) 4).
  - reflexivity.
  - intros i j p_i p_j Hlt Hi Hj.
    destruct i as [| [| i]], j as [| [| j]]; try lia; try discriminate.
    simpl in Hi, Hj. injection Hi as <-. injection Hj as <-. by vm_compute.
  - simpl. lia.
Defined.

(** C2 (as stated) fails: the two stabilizers X and Z are mutually
    incompatible and both remain, and [merge_pauli_list] returns the first of
    them instead of raising. *)
Lemma merge_pauli_list_returns_on_clash :
  common_eigenstate (pauli_string [pX]) (pauli_string [pZ]) = false /\
  common_eigenstate (pauli_string [pZ]) (pauli_string [pX]) = false /\
  merge_pauli_list 4 clashing_stabilizers
  = Some (Ok (pauli_string [pX], clashing_stabilizers)) /\
  forall e, merge_pauli_list 4 clashing_stabilizers <> Some (Raise e).
Proof. vm_compute. repeat split; try reflexivity. discriminate. Qed.

(** After a merge, the flag [merged] stays set for the rest of the pass, so
    the index [i] no longer advances: once the merged stabilizer clashes with
    what remains, the middle loop never ends. *)
Lemma inner_while_stuck (fuel : nat) :
  let stuck := [pauli_string [pX; pZ]; pauli_string [pZ; pI]] in
  inner_while fuel stuck 0 1 true = None \/
  inner_while fuel stuck 0 1 true = Some (Ok (stuck, true)).
Proof.
  destruct fuel as [| [| fuel]]; [by left | by left | by right].
Qed.

Lemma middle_while_stuck (fuel : nat) :
  middle_while fuel [pauli_string [pX; pZ]; pauli_string [pZ; pI]] 0 true = None.
Proof.
  induction fuel as [| fuel IH]; [done |].
  cbn [middle_while]. rewrite bool_decide_eq_true_2 by (simpl; lia).
  change (0 + 1)%nat with 1%nat.
  destruct (inner_while_stuck fuel) as [-> | ->]; [done | exact IH].
Qed.

(** The call on the three stabilizers X_, _Z, Z_ does not return, whatever
    the fuel: the first two merge into XZ, which has no common eigenstate
    with Z_. *)
Lemma merge_pauli_list_diverges (fuel : nat) :
  merge_pauli_list fuel late_clash_stabilizers = None.
Proof.
  unfold merge_pauli_list.
  destruct fuel as [| fuel]; [done |]. cbn [outer_while].
  destruct fuel as [| fuel]; [done |]. cbn [middle_while].
  rewrite bool_decide_eq_true_2 by (simpl; lia).
  change (0 + 1)%nat with 1%nat.
  destruct fuel as [| fuel]; [done |].
  change (inner_while (S fuel) late_clash_stabilizers 0 1 false)
    with (Some (Ok ([pauli_string [pX; pZ]; pauli_string [pZ; pI]], true))).
  cbv beta iota. by rewrite middle_while_stuck.
Qed.

(** ** Coins *)

Lemma xor_over_ext (d d' : gmap nat Z) (dom : list nat) :
  (forall k, k ∈ dom -> d' !! k = d !! k) -> xor_over d' dom = xor_over d dom.
Proof.
  induction dom as [| k dom IH]; intros Hext; [done |].
  simpl. rewrite IH by (intros k' Hk'; apply Hext; by right).
  unfold dict_get0. by rewrite (Hext k) by (by left).
Qed.

Lemma neighbors_Some (graph : nx.Graph) (n : nat) (nb : list nat) :
  nx.adj graph !! n = Some nb -> nx.neighbors graph n = Ok nb.
Proof. intros Hadj. unfold nx.neighbors. by rewrite Hadj. Qed.

Lemma neighbors_Ok (graph : nx.Graph) (n : nat) (nb : list nat) :
  nx.neighbors graph n = Ok nb -> nx.adj graph !! n = Some nb.
Proof. unfold nx.neighbors. destruct (nx.adj graph !! n); by intros [= ->]. Qed.

(** *** Graphs built by the library's operations are well formed *)

Lemma nx_empty_wf : nx.wf nx.empty.
Proof.
  split.
  - intros n. split; [intros Hn; by apply elem_of_nil in Hn |].
    intros [l Hl]. simpl in Hl. by rewrite lookup_empty in Hl.
  - intros n l m Hl. simpl in Hl. by rewrite lookup_empty in Hl.
Qed.

Lemma nx_add_node_nodes (g : nx.Graph) (n m : nat) :
  m ∈ nx.nodes (nx.add_node g n) <-> m = n \/ m ∈ nx.nodes g.
Proof.
  unfold nx.add_node. case_bool_decide as Hn; simpl.
  - split; [by right | intros [-> | Hm]; done].
  - rewrite elem_of_app, list_elem_of_singleton. tauto.
Qed.

Lemma nx_add_node_wf (g : nx.Graph) (n : nat) : nx.wf g -> nx.wf (nx.add_node g n).
Proof.
  intros [Hnodes Hnb]. split.
  - intros m. rewrite nx_add_node_nodes.
    unfold nx.add_node. case_bool_decide as Hn; simpl.
    + rewrite <- Hnodes. split; [intros [-> | Hm]; done | by right].
    + destruct (decide (m = n)) as [-> | Hne].
      * rewrite lookup_insert_eq. split; [by eexists | by left].
      * rewrite lookup_insert_ne by done. rewrite <- Hnodes. tauto.
  - intros k l m Hl Hm. apply nx_add_node_nodes.
    unfold nx.add_node in Hl. case_bool_decide as Hn; simpl in Hl.
    + right. by apply (Hnb k l).
    + destruct (decide (k = n)) as [-> | Hne].
      * rewrite lookup_insert_eq in Hl. injection Hl as <-.
        by apply elem_of_nil in Hm.
      * rewrite lookup_insert_ne in Hl by done. right. by apply (Hnb k l).
Qed.

Lemma nx_add_neighbor_nodes (g : nx.Graph) (u v : nat) :
  nx.nodes (nx.add_neighbor g u v) = nx.nodes g.
Proof. unfold nx.add_neighbor. by case_bool_decide. Qed.

Lemma nx_add_neighbor_wf (g : nx.Graph) (u v : nat) :
  nx.wf g -> u ∈ nx.nodes g -> v ∈ nx.nodes g -> nx.wf (nx.add_neighbor g u v).
Proof.
  intros [Hnodes Hnb] Hu Hv. unfold nx.add_neighbor.
  case_bool_decide as Hin; [by split |]. split; simpl.
  - intros m. destruct (decide (m = u)) as [-> | Hne].
    + rewrite lookup_insert_eq. split; [by eexists | done].
    + rewrite lookup_insert_ne by done. apply Hnodes.
  - intros k l m Hl Hm. destruct (decide (k = u)) as [-> | Hne].
    + rewrite lookup_insert_eq in Hl. injection Hl as <-.
      apply elem_of_app in Hm as [Hm | Hm].
      * destruct (nx.adj g !! u) as [l0 |] eqn:Hadj; simpl in Hm;
          [by apply (Hnb u l0) | by apply elem_of_nil in Hm].
      * by apply list_elem_of_singleton in Hm as ->.
    + rewrite lookup_insert_ne in Hl by done. by apply (Hnb k l).
Qed.

Lemma nx_add_edge_wf (g : nx.Graph) (e : nat * nat) :
  nx.wf g -> nx.wf (nx.add_edge g e).
Proof.
  intros Hwf. unfold nx.add_edge.
  assert (e.1 ∈ nx.nodes (nx.add_node (nx.add_node g e.1) e.2)) as H1.
  { apply nx_add_node_nodes. right. apply nx_add_node_nodes. by left. }
  assert (e.2 ∈ nx.nodes (nx.add_node (nx.add_node g e.1) e.2)) as H2.
  { apply nx_add_node_nodes. by left. }
  apply nx_add_neighbor_wf; rewrite ?nx_add_neighbor_nodes; [| done | done].
  apply nx_add_neighbor_wf; [| done | done].
  by do 2 apply nx_add_node_wf.
Qed.

Lemma nx_add_edges_from_wf (edges : list (nat * nat)) (g : nx.Graph) :
  nx.wf g -> nx.wf (nx.add_edges_from g edges).
Proof.
  revert g. unfold nx.add_edges_from.
  induction edges as [| e edges IH]; intros g Hwf; [done |].
  rewrite for_each_cons. by apply IH, nx_add_edge_wf.
Qed.

Lemma nx_add_nodes_from_wf (ns : list nat) (g : nx.Graph) :
  nx.wf g -> nx.wf (nx.add_nodes_from g ns).
Proof.
  revert g. unfold nx.add_nodes_from.
  induction ns as [| n ns IH]; intros g Hwf; [done |].
  rewrite for_each_cons. by apply IH, nx_add_node_wf.
Qed.

(** The graph the client hands to its canvases
    ([create_test_runs], lines 245-248) is well formed. *)
Lemma client_graph_wf (nodes : list nat) (edges : list (nat * nat)) :
  nx.wf (nx.add_nodes_from (nx.add_edges_from nx.empty edges) nodes).
Proof. apply nx_add_nodes_from_wf, nx_add_edges_from_wf, nx_empty_wf. Qed.

(** The dummies pass gives every node of the graph a bit: a draw for a node
    outside the traps, 0 for a trap node. *)
Lemma generate_coins_dummies_bits (graph : nx.Graph) (traps_list : list Trap)
    (g : Rng) (node : nat) :
  node ∈ nx.nodes graph ->
  exists v, (generate_coins_dummies graph traps_list g).1 !! node = Some v /\
            is_bit v.
Proof.
  unfold generate_coins_dummies.
  induction (nx.nodes graph) as [| x l IH] using rev_ind; intros Hin.
  - by apply elem_of_nil in Hin.
  - rewrite for_each_snoc.
    destruct (for_each l _ (∅, g)) as [coins g'] eqn:Hloop. simpl in IH.
    destruct (decide (node = x)) as [-> | Hne].
    + case_bool_decide.
      * pose proof (py_randint_range 0 1 g' ltac:(lia)) as Hr.
        destruct (py_randint 0 1 g') as [coin g'']. simpl in *.
        exists coin. rewrite lookup_insert_eq. split; [done |].
        apply is_bit_range. lia.
      * exists 0. simpl. rewrite lookup_insert_eq. split; [done | by left].
    + apply elem_of_app in Hin as [Hin | Hin];
        [| apply list_elem_of_singleton in Hin; congruence].
      destruct (IH Hin) as (v & Hv & Hbit). exists v. split; [| done].
      case_bool_decide; [destruct (py_randint 0 1 g') |]; simpl;
        by rewrite lookup_insert_ne.
Qed.

Section trap_coins.
Variables (graph : nx.Graph) (traps : list nat).
Hypothesis graph_wf : nx.wf graph.
Hypothesis traps_in_graph : forall t, t ∈ traps -> t ∈ nx.nodes graph.
Hypothesis traps_apart :
  forall t u nb, t ∈ traps -> u ∈ traps -> nx.adj graph !! t = Some nb -> u ∉ nb.

(** The loop of [generate_coins_trap_qubits], started on coins that hold a
    bit for every node, over any part [todo] of the trap nodes. *)
Lemma trap_loop_spec (todo : list nat) (coins : gmap nat Z) :
  (forall t, t ∈ todo -> t ∈ traps) ->
  (forall n, n ∈ nx.nodes graph -> exists v, coins !! n = Some v /\ is_bit v) ->
  exists coins',
    for_each_exc todo
      (fun node coins =>
         neighbors ← nx.neighbors graph node;
         total ← sum_items coins neighbors;
         Ok (<[node := total mod 2]> coins))
      coins = Ok coins' /\
    (forall n, n ∈ nx.nodes graph -> exists v, coins' !! n = Some v /\ is_bit v) /\
    (forall n, n ∉ todo -> coins' !! n = coins !! n) /\
    (forall t nb, t ∈ todo -> nx.adj graph !! t = Some nb ->
       dict_get0 coins' t = xor_over coins' nb).
Proof.
  revert coins. induction todo as [| t todo IH]; intros coins Htodo Hbits.
  - exists coins. split; [done |]. split; [done |]. split; [done |].
    intros t nb Ht. by apply elem_of_nil in Ht.
  - cbn [for_each_exc].
    assert (t ∈ traps) as Ht by (apply Htodo; by left).
    destruct graph_wf as [Hnodes Hnb].
    destruct (proj1 (Hnodes t) (traps_in_graph t Ht)) as [nb Hadj].
    rewrite (neighbors_Some _ _ _ Hadj). simpl.
    assert (bits_on coins nb) as Hbnb.
    { intros k Hk. apply Hbits. by apply (Hnb t nb). }
    destruct (sum_items_parity coins nb Hbnb) as (total & Hsum & Hpar).
    rewrite Hsum. simpl.
    destruct (IH (<[t := total mod 2]> coins)) as (coins' & Hrun & Hbits' & Hout & Hinv).
    { intros u Hu. apply Htodo. by right. }
    { intros n Hn. destruct (decide (n = t)) as [-> | Hne].
      - exists (total mod 2). rewrite lookup_insert_eq. split; [done | apply mod2_is_bit].
      - rewrite lookup_insert_ne by done. by apply Hbits. }
    exists coins'. split; [done |]. split; [done |]. split.
    + intros n Hn. rewrite Hout.
      * rewrite lookup_insert_ne; [done |]. intros ->. apply Hn. by left.
      * intros Hin. apply Hn. by right.
    + intros u nb' Hu Hadj'.
      destruct (decide (u ∈ todo)) as [Hin | Hnin]; [by apply Hinv |].
      apply elem_of_cons in Hu as [-> | Hu]; [| done].
      assert (nb' = nb) as -> by congruence.
      assert (forall k, k ∈ nb -> coins' !! k = coins !! k) as Hsame.
      { intros k Hk.
        assert (k ∉ traps) as Hkt by (intros Hkt; by apply (traps_apart t k nb)).
        rewrite Hout.
        - rewrite lookup_insert_ne; [done |]. intros ->. by apply Hkt.
        - intros Hkin. apply Hkt, Htodo. by right. }
      rewrite (xor_over_ext coins coins' nb Hsame), <- Hpar.
      unfold dict_get0. rewrite Hout by done. by rewrite lookup_insert_eq.
Qed.
End trap_coins.

(** A constructed canvas holds the coins of the two passes. *)
Lemma TrappifiedCanvas_init_coins `{GraphixData} (fuel : nat) (graph : nx.Graph)
    (traps_list : list Trap) (g : Rng) (cv : TrappifiedCanvas.t) :
  (TrappifiedCanvas_init fuel graph traps_list g).1 = Some (Ok cv) ->
  generate_coins_trap_qubits graph traps_list
    (generate_coins_dummies graph traps_list g).1
  = Ok (TrappifiedCanvas.coins cv).
Proof.
  unfold TrappifiedCanvas_init.
  destruct (for_each_exc traps_list _ []) as [stabilizers | e]; [| discriminate].
  destruct (merge_pauli_list fuel stabilizers) as [[[stabilizer merged] | e] |];
    [| discriminate | discriminate].
  destruct (generate_coins_dummies graph traps_list g) as [dummies g']. simpl.
  destruct (generate_coins_trap_qubits graph traps_list dummies) as [coins | e];
    [| discriminate].
  simpl. destruct (generate_eigenstate graph stabilizer coins); [| discriminate].
  simpl. by intros [= <-].
Qed.

(** C7 (as amended). For every graph, every list of traps whose nodes are
    nodes of the graph and pairwise non-adjacent in it (no trap node is a
    neighbour of a trap node, of the same trap or of another), and every
    state of the random source: the two coin passes
    return the coins a constructed canvas holds; every node of the graph has a
    bit; the coin of a node outside the traps is the bit [randint(0, 1)] drew
    for it in the dummies pass; and for every trap node the coin XOR the XOR of
    the coins of its neighbours is 0. *)
Theorem trap_coins_cancel `{GraphixData} (graph : nx.Graph)
    (traps_list : list Trap) (g : Rng) :
  nx.wf graph ->
  (forall t, t ∈ trap_qubits traps_list -> t ∈ nx.nodes graph) ->
  (forall t u nb, t ∈ trap_qubits traps_list -> u ∈ trap_qubits traps_list ->
     nx.neighbors graph t = Ok nb -> u ∉ nb) ->
  exists coins,
    generate_coins_trap_qubits graph traps_list
      (generate_coins_dummies graph traps_list g).1 = Ok coins /\
    (forall fuel cv,
       (TrappifiedCanvas_init fuel graph traps_list g).1 = Some (Ok cv) ->
       TrappifiedCanvas.coins cv = coins) /\
    (forall n, n ∈ nx.nodes graph -> exists v, coins !! n = Some v /\ is_bit v) /\
    (forall n, n ∉ trap_qubits traps_list ->
       coins !! n = (generate_coins_dummies graph traps_list g).1 !! n) /\
    (forall t nb, t ∈ trap_qubits traps_list -> nx.neighbors graph t = Ok nb ->
       Z.lxor (dict_get0 coins t) (xor_over coins nb) = 0).
Proof.
  intros Hwf Hin Hapart.
  destruct (trap_loop_spec graph (trap_qubits traps_list) Hwf Hin
              ltac:(intros t u nb Ht Hu Hadj; apply (Hapart t u nb Ht Hu);
                    by apply neighbors_Some)
              (trap_qubits traps_list)
              (generate_coins_dummies graph traps_list g).1
              ltac:(done)
              ltac:(intros n Hn; by apply generate_coins_dummies_bits))
    as (coins & Hrun & Hbits & Hout & Hinv).
  exists coins. split; [exact Hrun |]. split.
  { intros fuel cv Hcv. apply TrappifiedCanvas_init_coins in Hcv.
    unfold generate_coins_trap_qubits in Hcv. congruence. }
  split; [done |]. split; [done |].
  intros t nb Ht Hnb. apply neighbors_Ok in Hnb.
  rewrite (Hinv t nb Ht Hnb). apply Z.lxor_nilpotent.
Qed.

Lemma trap_coins_cancel_witness :
  nx.wf two_node_graph /\
  exists coins,
    generate_coins_trap_qubits two_node_graph [[0%nat]]
      (generate_coins_dummies two_node_graph [[0%nat]] counting_rng).1 = Ok coins /\
    (forall t nb, t ∈ trap_qubits [[0%nat]] -> nx.neighbors two_node_graph t = Ok nb ->
       Z.lxor (dict_get0 coins t) (xor_over coins nb) = 0).
Proof.
  assert (nx.wf two_node_graph) as Hwf by apply client_graph_wf.
  split; [exact Hwf |].
  destruct (trap_coins_cancel (H := named_data) two_node_graph [[0%nat]]
              counting_rng Hwf)
    as (coins & Hrun & _ & _ & _ & Hinv).
  - intros t Ht. apply list_elem_of_singleton in Ht as ->. by left.
  - intros t u nb Ht Hu Hnb.
    apply list_elem_of_singleton in Ht as ->.
    apply list_elem_of_singleton in Hu as ->.
    vm_compute in Hnb. injection Hnb as <-.
    intros Habs. apply list_elem_of_singleton in Habs. discriminate.
  - exists coins. by split.
Defined.

(** C7 (as stated) fails. On the path 2 - 0 - 1 - 3 the single trap {0, 1}
    is a list of pairwise non-adjacent traps, and the canvas is built; but
    the coin of node 0 is computed from the coin of node 1 before that coin
    is set: with the dummy coins 1 for node 2 and 0 for node 3, node 0 gets
    0 + 1 = 1, then node 1 gets 1 + 0 = 1, and the coin of node 0 XOR the
    coins of its neighbours 1 and 2 is 1. *)
Lemma trap_coins_internal_edge :
  traps_pairwise_apart path_graph [[0; 1]%nat] /\
  nx.neighbors path_graph 0 = Ok [1; 2]%nat /\
  exists cv,
    (TrappifiedCanvas_init (H := named_data) 10 path_graph [[0; 1]%nat]
       counting_rng).1 = Some (Ok cv) /\
    0%nat ∈ trap_qubits (TrappifiedCanvas.traps_list cv) /\
    TrappifiedCanvas.coins cv
    = {[ 0%nat := 1; 1%nat := 1; 2%nat := 1; 3%nat := 0 ]} /\
    Z.lxor (dict_get0 (TrappifiedCanvas.coins cv) 0)
      (xor_over (TrappifiedCanvas.coins cv) [1; 2]%nat) = 1.
Proof.
  split.
  { intros i j trap_i trap_j u v nb Hne Hi Hj.
    destruct i as [| i], j as [| j]; try done; by destruct i || by destruct j. }
  split; [by vm_compute |].
  eexists. split; [vm_compute; reflexivity |].
  split; [by left |]. split; by vm_compute.
Qed.

(** ** Pauli strings: compatibility and merging *)

Lemma pauli_indices_spec (s : PauliString.t) (letters : list Pauli) (k : nat) :
  k ∈ PauliString.pauli_indices s letters <->
  exists p, PauliString.paulis s !! k = Some p /\ p ∈ letters.
Proof.
  unfold PauliString.pauli_indices. rewrite list_elem_of_fmap. split.
  - intros ([k' p] & -> & Hin). apply list_elem_of_filter in Hin as [Hp Hin].
    apply elem_of_lookup_imap in Hin as (i & y & [= -> ->] & Hlook).
    by exists y.
  - intros (p & Hlook & Hp). exists (k, p). split; [done |].
    apply list_elem_of_filter. split; [done |].
    apply elem_of_lookup_imap. by exists k, p.
Qed.

Lemma match_letter_spec (s1 s2 : PauliString.t) (letter : Pauli) :
  (list_to_set (PauliString.pauli_indices s1 [letter]) : gset nat)
    ⊆ list_to_set (PauliString.pauli_indices s2 [letter])
      ∪ list_to_set (PauliString.pauli_indices s2 [pI]) <->
  forall k, PauliString.paulis s1 !! k = Some letter ->
            PauliString.paulis s2 !! k = Some letter \/
            PauliString.paulis s2 !! k = Some pI.
Proof.
  split.
  - intros Hsub k Hk.
    assert (k ∈ (list_to_set (PauliString.pauli_indices s1 [letter]) : gset nat)) as Hin.
    { apply elem_of_list_to_set, pauli_indices_spec. exists letter.
      split; [done | by left]. }
    apply Hsub, elem_of_union in Hin as [Hin | Hin];
      apply elem_of_list_to_set, pauli_indices_spec in Hin as (p & Hp & Hl);
      apply list_elem_of_singleton in Hl as ->; [by left | by right].
  - intros Hall k Hin.
    apply elem_of_list_to_set, pauli_indices_spec in Hin as (p & Hp & Hl).
    apply list_elem_of_singleton in Hl as ->.
    apply elem_of_union.
    destruct (Hall k Hp) as [Hk | Hk]; [left | right];
      apply elem_of_list_to_set, pauli_indices_spec; eexists; split; try done;
      by left.
Qed.

Lemma common_eigenstate_letters (stabilizer_1 stabilizer_2 : PauliString.t) :
  common_eigenstate stabilizer_1 stabilizer_2 = true <->
  forall k p, PauliString.paulis stabilizer_1 !! k = Some p -> p <> pI ->
              PauliString.paulis stabilizer_2 !! k = Some p \/
              PauliString.paulis stabilizer_2 !! k = Some pI.
Proof.
  unfold common_eigenstate. rewrite !andb_true_iff, !bool_decide_eq_true.
  rewrite !match_letter_spec. split.
  - intros [[HX HY] HZ] k p Hk Hp. destruct p; [done | by apply HX | by apply HY | by apply HZ].
  - intros Hall. repeat split; intros k Hk; by apply Hall.
Qed.

(** What [common_eigenstate] decides: wherever the first string has a letter
    other than the identity, the second has the same letter or the identity
    (and has that position at all). The signs are not looked at. For strings
    of the same length the test is symmetric. *)
Theorem common_eigenstate_spec (stabilizer_1 stabilizer_2 : PauliString.t) :
  (common_eigenstate stabilizer_1 stabilizer_2 = true <->
   forall k p, PauliString.paulis stabilizer_1 !! k = Some p -> p <> pI ->
               PauliString.paulis stabilizer_2 !! k = Some p \/
               PauliString.paulis stabilizer_2 !! k = Some pI) /\
  (PauliString.len stabilizer_1 = PauliString.len stabilizer_2 ->
   common_eigenstate stabilizer_1 stabilizer_2
   = common_eigenstate stabilizer_2 stabilizer_1).
Proof.
  split; [apply common_eigenstate_letters |].
  assert (forall s1 s2, PauliString.len s1 = PauliString.len s2 ->
            common_eigenstate s1 s2 = true -> common_eigenstate s2 s1 = true) as Hdir.
  { intros s1 s2 Hlen H12. apply common_eigenstate_letters.
    intros k q Hq Hne.
    destruct (lookup_lt_is_Some_2 (PauliString.paulis s1) k) as [p Hp].
    { unfold PauliString.len in Hlen. rewrite Hlen. by apply lookup_lt_Some in Hq. }
    destruct (decide (p = pI)) as [-> | Hpne]; [by right |].
    destruct (proj1 (common_eigenstate_letters s1 s2) H12 k p Hp Hpne) as [H2 | H2];
      rewrite H2 in Hq; injection Hq as <-; [by left | done]. }
  intros Hlen.
  destruct (common_eigenstate stabilizer_1 stabilizer_2) eqn:H12,
           (common_eigenstate stabilizer_2 stabilizer_1) eqn:H21; try done.
  - by rewrite (Hdir _ _ Hlen H12) in H21.
  - by rewrite (Hdir _ _ (eq_sym Hlen) H21) in H12.
Qed.

Lemma getitem_Some (s : PauliString.t) (k : nat) (p : Pauli) :
  PauliString.paulis s !! k = Some p -> PauliString.getitem s k = Ok p.
Proof. intros Hp. unfold PauliString.getitem. by rewrite Hp. Qed.

Lemma setitem_in_range (s : PauliString.t) (k : nat) (p : Pauli) :
  (k < PauliString.len s)%nat ->
  PauliString.setitem s k p
  = Ok (PauliString.mk (PauliString.sign s) (<[k := p]> (PauliString.paulis s))).
Proof. intros Hk. unfold PauliString.setitem. by rewrite bool_decide_eq_true_2. Qed.

Lemma setitem_out_of_range (s : PauliString.t) (k : nat) (p : Pauli) :
  (PauliString.len s <= k)%nat -> PauliString.setitem s k p = Raise IndexError.
Proof.
  intros Hk. unfold PauliString.setitem. rewrite bool_decide_eq_false_2; [done | lia].
Qed.

(** The loop of [merge], over indices that are in range. *)
Lemma merge_loop_ok (s2 : PauliString.t) (idx : list nat) (r : PauliString.t) :
  (forall k, k ∈ idx -> (k < PauliString.len r)%nat /\
                        is_Some (PauliString.paulis s2 !! k)) ->
  exists r',
    for_each_exc idx
      (fun node result =>
         p ← PauliString.getitem s2 node; PauliString.setitem result node p)
      r = Ok r' /\
    PauliString.sign r' = PauliString.sign r /\
    PauliString.len r' = PauliString.len r /\
    forall k, PauliString.paulis r' !! k
              = if bool_decide (k ∈ idx) then PauliString.paulis s2 !! k
                else PauliString.paulis r !! k.
Proof.
  revert r. induction idx as [| k0 idx IH]; intros r Hidx.
  - exists r. split; [done |]. split; [done |]. split; [done |]. intros k.
    case_bool_decide as Hk; [by apply elem_of_nil in Hk | done].
  - destruct (Hidx k0 ltac:(by left)) as [Hlt [p Hp]].
    cbn [for_each_exc]. rewrite (getitem_Some _ _ _ Hp). simpl.
    rewrite (setitem_in_range _ _ _ Hlt). simpl.
    set (r1 := PauliString.mk (PauliString.sign r) (<[k0 := p]> (PauliString.paulis r))).
    destruct (IH r1) as (r' & Hrun & Hsign & Hlen & Hlook).
    { intros k Hk. destruct (Hidx k ltac:(by right)) as [Hk1 Hk2]. split; [| done].
      unfold PauliString.len, r1 in *. simpl. by rewrite length_insert. }
    exists r'. split; [done |]. split; [done |]. split.
    { rewrite Hlen. unfold PauliString.len, r1. simpl. by rewrite length_insert. }
    intros k. rewrite Hlook. unfold r1. simpl.
    destruct (decide (k ∈ idx)) as [Hin | Hnin].
    + rewrite !bool_decide_eq_true_2; [done | by right | done].
    + rewrite (bool_decide_eq_false_2 (k ∈ idx)) by done.
      destruct (decide (k = k0)) as [-> | Hne].
      * rewrite bool_decide_eq_true_2 by (by left).
        rewrite list_lookup_insert_eq; [done | exact Hlt].
      * rewrite bool_decide_eq_false_2.
        -- by rewrite list_lookup_insert_ne.
        -- intros Hk. apply elem_of_cons in Hk as [? | ?]; done.
Qed.

(** The loop of [merge], when some index is out of range. *)
Lemma merge_loop_out_of_range (s2 : PauliString.t) (idx : list nat)
    (r : PauliString.t) :
  (forall k, k ∈ idx -> is_Some (PauliString.paulis s2 !! k)) ->
  (exists k, k ∈ idx /\ (PauliString.len r <= k)%nat) ->
  for_each_exc idx
    (fun node result =>
       p ← PauliString.getitem s2 node; PauliString.setitem result node p)
    r = Raise IndexError.
Proof.
  revert r. induction idx as [| k0 idx IH]; intros r Hs2 (k & Hk & Hout).
  - by apply elem_of_nil in Hk.
  - destruct (Hs2 k0 ltac:(by left)) as [p Hp].
    cbn [for_each_exc]. rewrite (getitem_Some _ _ _ Hp). simpl.
    destruct (decide (k0 < PauliString.len r)%nat) as [Hk0 | Hk0];
      [| by rewrite setitem_out_of_range by lia].
    rewrite (setitem_in_range _ _ _ Hk0). simpl.
    apply IH.
    + intros k' Hk'. apply Hs2. by right.
    + apply elem_of_cons in Hk as [-> | Hk]; [lia |].
      exists k. split; [done |]. unfold PauliString.len in *. simpl.
      by rewrite length_insert.
Qed.

Lemma overlay_lookup (l1 l2 : list Pauli) (k : nat) :
  overlay l1 l2 !! k
  = match l1 !! k with
    | Some p =>
        Some (match l2 !! k with
              | Some q => if bool_decide (q = pI) then p else q
              | None => p
              end)
    | None => None
    end.
Proof. unfold overlay. rewrite list_lookup_imap. by destruct (l1 !! k). Qed.

Lemma overlay_length (l1 l2 : list Pauli) : length (overlay l1 l2) = length l1.
Proof. unfold overlay. apply length_imap. Qed.

(** The positions [merge] writes: those where the second stabilizer has a
    letter other than the identity. *)
Lemma merge_indices (stabilizer_2 : PauliString.t) (k : nat) :
  k ∈ PauliString.pauli_indices stabilizer_2 [pX; pY; pZ] <->
  exists p, PauliString.paulis stabilizer_2 !! k = Some p /\ p <> pI.
Proof.
  rewrite pauli_indices_spec. split.
  - intros (p & Hp & Hin). exists p. split; [done |]. intros ->.
    repeat (apply elem_of_cons in Hin as [? | Hin]; [done |]).
    by apply elem_of_nil in Hin.
  - intros (p & Hp & Hne). exists p. split; [done |].
    destruct p; [done | | |]; repeat first [by left | right].
Qed.

Lemma merge_in_range (stabilizer_1 stabilizer_2 : PauliString.t) :
  (forall k p, PauliString.paulis stabilizer_2 !! k = Some p -> p <> pI ->
               (k < PauliString.len stabilizer_1)%nat) ->
  merge stabilizer_1 stabilizer_2 = Ok (merged stabilizer_1 stabilizer_2).
Proof.
  intros Hrange.
  set (idx := PauliString.pauli_indices stabilizer_2 [pX; pY; pZ]).
  set (r := PauliString.scale (PauliString.sign stabilizer_2) stabilizer_1).
  assert (PauliString.len r = PauliString.len stabilizer_1) as Hlen by done.
  destruct (merge_loop_ok stabilizer_2 idx r) as (r' & Hrun & Hsign & Hlen' & Hlook).
  { intros k Hk. apply merge_indices in Hk as (p & Hp & Hne).
    split; [rewrite Hlen; by apply (Hrange k p) | by eexists]. }
  unfold merge. fold idx. fold r. rewrite Hrun. f_equal.
  destruct r' as [sign' letters']. unfold merged. simpl in *. f_equal; [done |].
  apply list_eq. intros k. rewrite Hlook, overlay_lookup.
  case_bool_decide as Hk.
  - apply merge_indices in Hk as (p & Hp & Hne). rewrite Hp.
    destruct (lookup_lt_is_Some_2 (PauliString.paulis stabilizer_1) k) as [p1 Hp1].
    { by apply (Hrange k p). }
    rewrite Hp1. by rewrite bool_decide_eq_false_2.
  - destruct (PauliString.paulis stabilizer_1 !! k) as [p1 |] eqn:Hp1; [| done].
    destruct (PauliString.paulis stabilizer_2 !! k) as [q |] eqn:Hq; [| done].
    case_bool_decide; [done |]. exfalso. apply Hk, merge_indices. by exists q.
Qed.

(** [merge] lays the second stabilizer over the first and multiplies the
    signs, whether or not the two are compatible; it raises [IndexError]
    exactly when the second has a letter other than the identity at a position
    the first does not have. *)
Theorem merge_spec (stabilizer_1 stabilizer_2 : PauliString.t) :
  ((forall k p, PauliString.paulis stabilizer_2 !! k = Some p -> p <> pI ->
                (k < PauliString.len stabilizer_1)%nat) /\
   merge stabilizer_1 stabilizer_2 = Ok (merged stabilizer_1 stabilizer_2)) \/
  ((exists k p, PauliString.paulis stabilizer_2 !! k = Some p /\ p <> pI /\
                (PauliString.len stabilizer_1 <= k)%nat) /\
   merge stabilizer_1 stabilizer_2 = Raise IndexError).
Proof.
  set (idx := PauliString.pauli_indices stabilizer_2 [pX; pY; pZ]).
  destruct (decide (Forall (fun k => (k < PauliString.len stabilizer_1)%nat) idx))
    as [Hall | Hnot].
  - left. rewrite Forall_forall in Hall.
    assert (forall k p, PauliString.paulis stabilizer_2 !! k = Some p -> p <> pI ->
                        (k < PauliString.len stabilizer_1)%nat) as Hrange.
    { intros k p Hp Hne. apply Hall, merge_indices. by exists p. }
    split; [exact Hrange | by apply merge_in_range].
  - right. apply not_Forall_Exists in Hnot; [| apply _].
    apply Exists_exists in Hnot as (k & Hk & Hout). simpl in Hout.
    pose proof Hk as Hk'. apply merge_indices in Hk' as (p & Hp & Hne).
    split; [exists k, p; split; [done | split; [done | simpl in Hout; lia]] |].
    unfold merge. fold idx. apply merge_loop_out_of_range.
    + intros k' Hk''. apply merge_indices in Hk'' as (p' & Hp' & _). by eexists.
    + exists k. split; [done |].
      change (PauliString.len (PauliString.scale (PauliString.sign stabilizer_2)
                                 stabilizer_1))
        with (PauliString.len stabilizer_1). lia.
Qed.

Lemma merge_same_length (s1 s2 : PauliString.t) :
  PauliString.len s2 = PauliString.len s1 -> merge s1 s2 = Ok (merged s1 s2).
Proof.
  intros Hlen. apply merge_in_range. intros k p Hp _.
  apply lookup_lt_Some in Hp. unfold PauliString.len in *. lia.
Qed.

Lemma merged_len (s1 s2 : PauliString.t) :
  PauliString.len (merged s1 s2) = PauliString.len s1.
Proof. unfold PauliString.len, merged. simpl. apply overlay_length. Qed.

(** A stabilizer compatible with two others is compatible with their merge. *)
Lemma merged_compatible (s1 s2 s3 : PauliString.t) :
  common_eigenstate s1 s3 = true -> common_eigenstate s2 s3 = true ->
  common_eigenstate (merged s1 s2) s3 = true.
Proof.
  rewrite !common_eigenstate_letters. intros H13 H23 k p Hp Hne.
  unfold merged in Hp. simpl in Hp. rewrite overlay_lookup in Hp.
  destruct (PauliString.paulis s1 !! k) as [p1 |] eqn:Hp1; [| done].
  destruct (PauliString.paulis s2 !! k) as [p2 |] eqn:Hp2.
  - case_bool_decide as Hp2I; injection Hp as <-.
    + by apply H13.
    + by apply H23.
  - injection Hp as <-. by apply H13.
Qed.

Lemma later_compatible_merge (first second : PauliString.t)
    (rest : list PauliString.t) :
  later_compatible (first :: second :: rest) ->
  later_compatible (merged first second :: rest).
Proof.
  intros Hc i j p_i p_j Hlt Hi Hj.
  destruct j as [| j]; [lia |]. simpl in Hj.
  destruct i as [| i]; simpl in Hi.
  - injection Hi as <-. apply merged_compatible.
    + by apply (Hc 0%nat (S (S j))); [lia | |].
    + by apply (Hc 1%nat (S (S j))); [lia | |].
  - by apply (Hc (S (S i)) (S (S j))); [lia | |].
Qed.

Lemma inner_while_step (fuel : nat) (pauli_list : list PauliString.t)
    (i j : nat) (flag : bool) :
  inner_while (S fuel) pauli_list i j flag
  = if bool_decide (j < length pauli_list)%nat
    then
      match pauli_list !! i, pauli_list !! j with
      | Some p_i, Some p_j =>
          if common_eigenstate p_i p_j
          then
            match merge p_i p_j with
            | Ok merged_pauli =>
                Some (Ok (delete j (<[i := merged_pauli]> pauli_list), true))
            | Raise e => Some (Raise e)
            end
          else inner_while fuel pauli_list i (j + 1) flag
      | _, _ => Some (Raise IndexError)
      end
    else Some (Ok (pauli_list, flag)).
Proof. reflexivity. Qed.

Lemma middle_while_step (fuel : nat) (pauli_list : list PauliString.t)
    (i : nat) (flag : bool) :
  middle_while (S fuel) pauli_list i flag
  = if bool_decide (Z.of_nat i < Z.of_nat (length pauli_list) - 1)
    then
      match inner_while fuel pauli_list i (i + 1) flag with
      | Some (Ok (pauli_list, flag)) =>
          middle_while fuel pauli_list (if flag then i else (i + 1)%nat) flag
      | other => other
      end
    else Some (Ok (pauli_list, flag)).
Proof. reflexivity. Qed.

Lemma outer_while_step (fuel : nat) (pauli_list : list PauliString.t)
    (flag : bool) :
  outer_while (S fuel) pauli_list flag
  = if flag
    then
      match middle_while fuel pauli_list 0 false with
      | Some (Ok (pauli_list, flag)) => outer_while fuel pauli_list flag
      | Some (Raise e) => Some (Raise e)
      | None => None
      end
    else Some (Ok pauli_list).
Proof. reflexivity. Qed.

(** The inner loop merges the first two stabilizers at once when they are
    compatible and of one length. *)
Lemma inner_while_merges_first (fuel : nat) (first second : PauliString.t)
    (rest : list PauliString.t) (flag : bool) :
  common_eigenstate first second = true ->
  PauliString.len second = PauliString.len first ->
  inner_while (S fuel) (first :: second :: rest) 0 1 flag
  = Some (Ok (merged first second :: rest, true)).
Proof.
  intros Hc Hlen. rewrite inner_while_step.
  rewrite bool_decide_eq_true_2 by (simpl; lia).
  change ((first :: second :: rest) !! 0%nat) with (Some first).
  change ((first :: second :: rest) !! 1%nat) with (Some second).
  cbv beta iota. rewrite Hc, (merge_same_length _ _ Hlen). done.
Qed.

(** One pass of the middle loop over a list whose stabilizers are compatible
    and of one length: everything is merged into the first position. *)
Lemma middle_while_merges (rest : list PauliString.t) :
  forall (first : PauliString.t) (fuel : nat) (merged_flag : bool),
    (forall s, s ∈ first :: rest -> PauliString.len s = PauliString.len first) ->
    later_compatible (first :: rest) ->
    (length rest + 2 <= fuel)%nat ->
    middle_while fuel (first :: rest) 0 merged_flag
    = Some (Ok ([merge_all first rest], merged_flag || bool_decide (rest <> []))).
Proof.
  induction rest as [| second rest IH]; intros first fuel flag Hlen Hc Hfuel.
  - destruct fuel as [| fuel]; [simpl in Hfuel; lia |].
    rewrite middle_while_step, bool_decide_eq_false_2 by (simpl; lia).
    by rewrite orb_false_r.
  - destruct fuel as [| [| fuel]]; [simpl in Hfuel; lia | simpl in Hfuel; lia |].
    rewrite middle_while_step, bool_decide_eq_true_2 by (simpl length; lia).
    change (0 + 1)%nat with 1%nat.
    rewrite inner_while_merges_first.
    + rewrite IH.
      * by rewrite orb_true_r.
      * intros s Hs. rewrite merged_len.
        apply elem_of_cons in Hs as [-> | Hs]; [apply merged_len |].
        apply Hlen. right. by right.
      * by apply later_compatible_merge.
      * simpl in Hfuel. lia.
    + apply (Hc 0%nat 1%nat); [lia | done | done].
    + apply Hlen. right. by left.
Qed.

Lemma merge_all_len (rest : list PauliString.t) (first : PauliString.t) :
  PauliString.len (merge_all first rest) = PauliString.len first.
Proof.
  revert first. induction rest as [| second rest IH]; intros first; [done |].
  unfold merge_all in *. simpl. by rewrite IH, merged_len.
Qed.

(** The letters of a left-to-right merge: it keeps every letter other than
    the identity that a stabilizer of a compatible list has, and has no other. *)
Lemma merge_all_letters (rest : list PauliString.t) :
  forall first : PauliString.t,
    (forall s, s ∈ first :: rest -> PauliString.len s = PauliString.len first) ->
    later_compatible (first :: rest) ->
    (forall s k p, s ∈ first :: rest -> PauliString.paulis s !! k = Some p ->
       p <> pI -> PauliString.paulis (merge_all first rest) !! k = Some p) /\
    (forall k q, PauliString.paulis (merge_all first rest) !! k = Some q ->
       q <> pI -> exists s, s ∈ first :: rest /\ PauliString.paulis s !! k = Some q).
Proof.
  induction rest as [| second rest IH]; intros first Hlen Hc.
  - split.
    + intros s k p Hs Hp Hne. by apply list_elem_of_singleton in Hs as ->.
    + intros k q Hq Hne. exists first. split; [by left | done].
  - destruct (IH (merged first second)) as [IHb IHc].
    { intros s Hs. rewrite merged_len.
      apply elem_of_cons in Hs as [-> | Hs]; [apply merged_len |].
      apply Hlen. right. by right. }
    { by apply later_compatible_merge. }
    assert (PauliString.len second = PauliString.len first) as Hlen2.
    { apply Hlen. right. by left. }
    split.
    + intros s k p Hs Hp Hne.
      change (merge_all first (second :: rest))
        with (merge_all (merged first second) rest).
      assert (PauliString.paulis (merged first second) !! k = Some p
              \/ s ∈ rest) as [Hm | Hrest].
      { apply elem_of_cons in Hs as [-> | Hs].
        - left. unfold merged. simpl. rewrite overlay_lookup, Hp.
          destruct (PauliString.paulis second !! k) as [q |] eqn:Hq; [| done].
          case_bool_decide as HqI; [done |].
          pose proof (Hc 0%nat 1%nat first second ltac:(lia) eq_refl eq_refl) as H12.
          destruct (proj1 (common_eigenstate_letters first second) H12 k p Hp Hne)
            as [H2 | H2]; rewrite H2 in Hq; by injection Hq as <-.
        - apply elem_of_cons in Hs as [-> | Hs]; [left | by right].
          unfold merged. simpl. rewrite overlay_lookup, Hp.
          destruct (lookup_lt_is_Some_2 (PauliString.paulis first) k) as [p1 ->].
          { apply lookup_lt_Some in Hp. unfold PauliString.len in Hlen2. lia. }
          by rewrite bool_decide_eq_false_2. }
      * apply (IHb (merged first second) k p); [by left | done | done].
      * apply (IHb s k p); [by right | done | done].
    + intros k q Hq Hne.
      change (merge_all first (second :: rest))
        with (merge_all (merged first second) rest) in Hq.
      destruct (IHc k q Hq Hne) as (s & Hs & Hsk).
      apply elem_of_cons in Hs as [-> | Hs].
      * unfold merged in Hsk. simpl in Hsk. rewrite overlay_lookup in Hsk.
        destruct (PauliString.paulis first !! k) as [p1 |] eqn:Hp1; [| done].
        destruct (PauliString.paulis second !! k) as [p2 |] eqn:Hp2.
        -- case_bool_decide; injection Hsk as <-.
           ++ exists first. split; [by left | done].
           ++ exists second. split; [right; by left | done].
        -- injection Hsk as <-. exists first. split; [by left | done].
      * exists s. split; [right; by right | done].
Qed.

Lemma merge_pauli_list_merge_all (first : PauliString.t)
    (rest : list PauliString.t) (fuel : nat) :
  (forall s, s ∈ first :: rest -> PauliString.len s = PauliString.len first) ->
  later_compatible (first :: rest) ->
  (length rest + 4 <= fuel)%nat ->
  merge_pauli_list fuel (first :: rest)
  = Some (Ok (merge_all first rest, [merge_all first rest])).
Proof.
  intros Hlen Hc Hfuel.
  destruct fuel as [| fuel]; [lia |].
  unfold merge_pauli_list. rewrite outer_while_step.
  rewrite (middle_while_merges rest first fuel false Hlen Hc) by lia.
  cbn [orb]. destruct rest as [| second rest].
  - rewrite bool_decide_eq_false_2 by (by intros []).
    destruct fuel as [| fuel]; [simpl in Hfuel; lia |]. by rewrite outer_while_step.
  - rewrite bool_decide_eq_true_2 by done.
    destruct fuel as [| fuel]; [simpl in Hfuel; lia |]. rewrite outer_while_step.
    destruct fuel as [| fuel]; [simpl in Hfuel; lia |].
    rewrite middle_while_step, bool_decide_eq_false_2 by (simpl; lia).
    destruct fuel as [| fuel]; [simpl in Hfuel; lia |]. by rewrite outer_while_step.
Qed.

(** Merging converges on compatible stabilizers: for a non-empty list of
    stabilizers of one length, each with a common eigenstate with every later
    one, [merge_pauli_list] returns, with fuel for as many iterations as the
    list is long, one stabilizer of that length and leaves the list holding it
    alone; that stabilizer keeps every letter other than the identity that a
    stabilizer of the list has, and has no other. *)
Theorem merge_pauli_list_converges (first : PauliString.t)
    (rest : list PauliString.t) (fuel : nat) :
  (forall s, s ∈ first :: rest -> PauliString.len s = PauliString.len first) ->
  later_compatible (first :: rest) ->
  (length rest + 4 <= fuel)%nat ->
  exists stabilizer,
    merge_pauli_list fuel (first :: rest) = Some (Ok (stabilizer, [stabilizer])) /\
    PauliString.len stabilizer = PauliString.len first /\
    (forall s k p, s ∈ first :: rest -> PauliString.paulis s !! k = Some p ->
       p <> pI -> PauliString.paulis stabilizer !! k = Some p) /\
    (forall k q, PauliString.paulis stabilizer !! k = Some q -> q <> pI ->
       exists s, s ∈ first :: rest /\ PauliString.paulis s !! k = Some q).
Proof.
  intros Hlen Hc Hfuel. exists (merge_all first rest).
  destruct (merge_all_letters rest first Hlen Hc) as [Hb Hcc].
  split; [by apply merge_pauli_list_merge_all |].
  split; [apply merge_all_len | by split].
Qed.

Lemma merge_pauli_list_converges_witness :
  later_compatible [pauli_string [pX; pI]; pauli_string [pI; pZ]] /\
  exists stabilizer,
    merge_pauli_list 5 [pauli_string [pX; pI]; pauli_string [pI; pZ]]
    = Some (Ok (stabilizer, [stabilizer])) /\
    PauliString.paulis stabilizer = [pX; pZ].
Proof.
  assert (later_compatible [pauli_string [pX; pI]; pauli_string [pI; pZ]]) as Hc.
  { intros i j p_i p_j Hlt Hi Hj.
    destruct i as [| [| i]], j as [| [| j]]; try lia; try discriminate.
    simpl in Hi, Hj. injection Hi as <-. injection Hj as <-. by vm_compute. }
  split; [exact Hc |].
  destruct (merge_pauli_list_converges (pauli_string [pX; pI])
              [pauli_string [pI; pZ]] 5) as (stabilizer & Hrun & _).
  - intros s Hs.
    repeat (apply elem_of_cons in Hs as [-> | Hs]; [reflexivity |]).
    by apply elem_of_nil in Hs.
  - exact Hc.
  - simpl. lia.
  - exists stabilizer. split; [exact Hrun |].
    vm_compute in Hrun. by injection Hrun as <-.
Defined.

(** ** Canonical stabilizers and the construction of a canvas *)

Lemma fill_Z_loop (nb : list nat) (chain : PauliString.t) :
  Forall (fun k => (k < PauliString.len chain)%nat) nb ->
  exists chain',
    for_each_exc nb (fun n chain => PauliString.setitem chain n pZ) chain = Ok chain' /\
    PauliString.sign chain' = PauliString.sign chain /\
    PauliString.len chain' = PauliString.len chain /\
    forall k, PauliString.paulis chain' !! k
              = (fun p => if bool_decide (k ∈ nb) then pZ else p)
                  <$> PauliString.paulis chain !! k.
Proof.
  revert chain. induction nb as [| n nb IH]; intros chain Hrange.
  - exists chain. split; [done |]. split; [done |]. split; [done |]. intros k.
    destruct (PauliString.paulis chain !! k) as [p |]; simpl; [| done].
    first [done | case_bool_decide as Hk; [by apply elem_of_nil in Hk | done]].
  - apply Forall_cons in Hrange as [Hn Hrange].
    cbn [for_each_exc]. rewrite (setitem_in_range _ _ _ Hn). simpl.
    set (chain1 := PauliString.mk (PauliString.sign chain)
                     (<[n := pZ]> (PauliString.paulis chain))).
    assert (PauliString.len chain1 = PauliString.len chain) as Hlen1.
    { unfold PauliString.len, chain1. simpl. by rewrite length_insert. }
    destruct (IH chain1) as (chain' & Hrun & Hsign & Hlen & Hlook).
    { by rewrite Hlen1. }
    exists chain'. split; [done |]. split; [done |]. split; [by rewrite Hlen |].
    intros k. rewrite Hlook. unfold chain1. simpl.
    destruct (decide (k = n)) as [-> | Hne].
    + rewrite list_lookup_insert_eq by exact Hn.
      destruct (lookup_lt_is_Some_2 (PauliString.paulis chain) n Hn) as [p ->].
      simpl. rewrite (bool_decide_eq_true_2 (n ∈ n :: nb)) by (by left).
      by case_bool_decide.
    + rewrite list_lookup_insert_ne by done.
      destruct (PauliString.paulis chain !! k) as [p |]; simpl; [| done].
      f_equal. repeat case_bool_decide; try done.
      * exfalso. match goal with Hx : k ∉ n :: nb |- _ => apply Hx end. by right.
      * match goal with Hx : k ∈ n :: nb |- _ =>
          apply elem_of_cons in Hx as [? | ?]; done end.
Qed.

Lemma fill_canonical_ok (graph : nx.Graph) (chain : PauliString.t) (node : nat)
    (nb : list nat) :
  nx.adj graph !! node = Some nb ->
  (node < PauliString.len chain)%nat ->
  Forall (fun k => (k < PauliString.len chain)%nat) nb ->
  exists chain',
    fill_canonical_stabilizer graph chain node = Ok chain' /\
    PauliString.sign chain' = PauliString.sign chain /\
    PauliString.len chain' = PauliString.len chain /\
    forall k, PauliString.paulis chain' !! k
              = (fun p => if bool_decide (k ∈ nb) then pZ
                          else if bool_decide (k = node) then pX else p)
                  <$> PauliString.paulis chain !! k.
Proof.
  intros Hadj Hnode Hrange. unfold fill_canonical_stabilizer.
  rewrite (setitem_in_range _ _ _ Hnode). simpl.
  rewrite (neighbors_Some _ _ _ Hadj). simpl.
  set (chain1 := PauliString.mk (PauliString.sign chain)
                   (<[node := pX]> (PauliString.paulis chain))).
  assert (PauliString.len chain1 = PauliString.len chain) as Hlen1.
  { unfold PauliString.len, chain1. simpl. by rewrite length_insert. }
  destruct (fill_Z_loop nb chain1) as (chain' & Hrun & Hsign & Hlen & Hlook).
  { by rewrite Hlen1. }
  exists chain'. split; [done |]. split; [done |]. split; [by rewrite Hlen |].
  intros k. rewrite Hlook. unfold chain1. simpl.
  destruct (decide (k = node)) as [-> | Hne].
  - rewrite list_lookup_insert_eq by exact Hnode.
    destruct (lookup_lt_is_Some_2 (PauliString.paulis chain) node Hnode) as [p ->].
    simpl. by rewrite (bool_decide_eq_true_2 (node = node)).
  - rewrite list_lookup_insert_ne by done.
    destruct (PauliString.paulis chain !! k) as [p |]; simpl; [| done].
    by rewrite (bool_decide_eq_false_2 (k = node)).
Qed.

Lemma fill_Z_loop_out_of_range (nb : list nat) (chain : PauliString.t) :
  ~ Forall (fun k => (k < PauliString.len chain)%nat) nb ->
  for_each_exc nb (fun n chain => PauliString.setitem chain n pZ) chain
  = Raise IndexError.
Proof.
  revert chain. induction nb as [| n nb IH]; intros chain Hnot.
  - destruct Hnot. constructor.
  - cbn [for_each_exc].
    destruct (decide (n < PauliString.len chain)%nat) as [Hn | Hn];
      [| by rewrite setitem_out_of_range by lia].
    rewrite (setitem_in_range _ _ _ Hn). simpl. apply IH.
    intros Hall. apply Hnot. constructor; [done |].
    unfold PauliString.len in *. simpl in Hall. by rewrite length_insert in Hall.
Qed.

Lemma PauliString_eq (s1 s2 : PauliString.t) :
  PauliString.sign s1 = PauliString.sign s2 ->
  PauliString.paulis s1 = PauliString.paulis s2 -> s1 = s2.
Proof. destruct s1, s2. simpl. by intros -> ->. Qed.

Lemma new_lookup (n k : nat) :
  PauliString.paulis (PauliString.new n) !! k
  = if bool_decide (k < n)%nat then Some pI else None.
Proof.
  unfold PauliString.new. simpl. case_bool_decide as Hk.
  - by apply lookup_replicate_2.
  - apply lookup_ge_None. rewrite length_replicate. lia.
Qed.

Lemma canonical_letters_lookup (xs zs : list nat) (n k : nat) :
  (canonical_letter xs zs <$> seq 0 n) !! k
  = if bool_decide (k < n)%nat then Some (canonical_letter xs zs k) else None.
Proof.
  rewrite list_lookup_fmap. case_bool_decide as Hk.
  - by rewrite lookup_seq_lt.
  - rewrite lookup_seq_ge; [done | lia].
Qed.

(** [get_canonical_stabilizer], case by case: [IndexError] when the node id
    is not below the number of nodes; [NetworkXError] when the node is not in
    the graph; [IndexError] when a neighbour's id is not below the number of
    nodes; otherwise the string with sign +1 that has Z on the neighbours of
    the node, X on the node and the identity elsewhere. *)
Theorem get_canonical_stabilizer_spec (graph : nx.Graph) (node : nat) :
  get_canonical_stabilizer graph node
  = let n := length (nx.nodes graph) in
    if bool_decide (node < n)%nat
    then
      match nx.adj graph !! node with
      | None => Raise (NetworkXError node)
      | Some nb =>
          if bool_decide (Forall (fun k => (k < n)%nat) nb)
          then Ok (PauliString.mk sign_1 (canonical_letter [node] nb <$> seq 0 n))
          else Raise IndexError
      end
    else Raise IndexError.
Proof.
  cbv zeta. unfold get_canonical_stabilizer.
  set (n := length (nx.nodes graph)).
  assert (PauliString.len (PauliString.new n) = n) as Hlen.
  { unfold PauliString.len, PauliString.new. simpl. apply length_replicate. }
  case_bool_decide as Hnode.
  - destruct (nx.adj graph !! node) as [nb |] eqn:Hadj.
    + case_bool_decide as Hnb.
      * destruct (fill_canonical_ok graph (PauliString.new n) node nb Hadj)
          as (chain' & -> & Hsign & Hlen' & Hlook);
          [by rewrite Hlen | by rewrite Hlen |].
        f_equal. apply PauliString_eq; [done |].
        apply list_eq. intros k. cbn [PauliString.paulis].
        rewrite Hlook, new_lookup, canonical_letters_lookup.
        destruct (decide (k < n)%nat) as [Hk | Hk];
          [rewrite !(bool_decide_eq_true_2 (k < n)%nat) by done
          | by rewrite !(bool_decide_eq_false_2 (k < n)%nat) by done].
        simpl. f_equal. unfold canonical_letter.
        repeat case_bool_decide; try done.
        -- exfalso. match goal with Hx : k ∉ [node] |- _ => apply Hx end.
           subst. by left.
        -- match goal with Hx : k ∈ [node] |- _ =>
             by apply list_elem_of_singleton in Hx end.
      * unfold fill_canonical_stabilizer.
        rewrite setitem_in_range by (by rewrite Hlen). simpl.
        rewrite (neighbors_Some _ _ _ Hadj). simpl.
        apply fill_Z_loop_out_of_range.
        unfold PauliString.len. simpl. by rewrite length_insert, length_replicate.
    + unfold fill_canonical_stabilizer.
      rewrite setitem_in_range by (by rewrite Hlen). simpl.
      unfold nx.neighbors. by rewrite Hadj.
  - unfold fill_canonical_stabilizer.
    by rewrite setitem_out_of_range by (rewrite Hlen; lia).
Qed.

Lemma neighbors_of_cons (graph : nx.Graph) (t : nat) (rest : list nat) :
  neighbors_of graph (t :: rest)
  = default [] (nx.adj graph !! t) ++ neighbors_of graph rest.
Proof. reflexivity. Qed.

Lemma elem_of_neighbors_of (graph : nx.Graph) (nodes : list nat) (k : nat) :
  k ∈ neighbors_of graph nodes <->
  exists t nb, t ∈ nodes /\ nx.adj graph !! t = Some nb /\ k ∈ nb.
Proof.
  unfold neighbors_of. rewrite list_elem_of_bind. split.
  - intros (t & Hk & Ht). destruct (nx.adj graph !! t) as [nb |] eqn:Hadj.
    + by exists t, nb.
    + simpl in Hk. by apply elem_of_nil in Hk.
  - intros (t & nb & Ht & Hadj & Hk). exists t. rewrite Hadj. by split.
Qed.

(** The loop of [compute_trap_stabilizer], over nodes of the graph that are
    in range with their neighbours and no two of which are adjacent. *)
Lemma trap_fill_loop (graph : nx.Graph) (todo : list nat) (chain : PauliString.t) :
  (forall t, t ∈ todo ->
     exists nb, nx.adj graph !! t = Some nb /\
                (t < PauliString.len chain)%nat /\
                Forall (fun k => (k < PauliString.len chain)%nat) nb) ->
  apart graph todo ->
  exists chain',
    for_each_exc todo
      (fun node trap_stabilizer => fill_canonical_stabilizer graph trap_stabilizer node)
      chain = Ok chain' /\
    PauliString.sign chain' = PauliString.sign chain /\
    PauliString.len chain' = PauliString.len chain /\
    forall k, PauliString.paulis chain' !! k
              = (fun p => if bool_decide (k ∈ neighbors_of graph todo) then pZ
                          else if bool_decide (k ∈ todo) then pX else p)
                  <$> PauliString.paulis chain !! k.
Proof.
  revert chain. induction todo as [| t rest IH]; intros chain Hok Hapart.
  - exists chain. split; [done |]. split; [done |]. split; [done |]. intros k.
    by destruct (PauliString.paulis chain !! k).
  - destruct (Hok t ltac:(by left)) as (nb & Hadj & Ht & Hnb).
    destruct (fill_canonical_ok graph chain t nb Hadj Ht Hnb)
      as (chain1 & Hfill & Hsign1 & Hlen1 & Hlook1).
    remember (neighbors_of graph (t :: rest)) as N eqn:HN.
    rewrite neighbors_of_cons, Hadj in HN. simpl in HN.
    cbn [for_each_exc]. rewrite Hfill. simpl.
    destruct (IH chain1) as (chain' & Hrun & Hsign & Hlen & Hlook).
    { intros u Hu. rewrite Hlen1. apply Hok. by right. }
    { intros u v nbu Hu Hv. apply Hapart; by right. }
    exists chain'. split; [done |]. split; [congruence |]. split; [congruence |].
    intros k. rewrite Hlook, Hlook1. subst N.
    destruct (PauliString.paulis chain !! k) as [p |]; [| done]. simpl. f_equal.
    destruct (decide (k ∈ neighbors_of graph rest)) as [HkN | HkN].
    { rewrite !bool_decide_eq_true_2; [done | | done].
      apply elem_of_app. by right. }
    rewrite (bool_decide_eq_false_2 (k ∈ neighbors_of graph rest)) by done.
    destruct (decide (k ∈ rest)) as [Hkr | Hkr].
    { rewrite (bool_decide_eq_true_2 (k ∈ rest)) by done.
      rewrite bool_decide_eq_false_2.
      - rewrite bool_decide_eq_true_2; [done | by right].
      - intros Hin. apply elem_of_app in Hin as [Hin | Hin]; [| done].
        apply (Hapart t k nb); [by left | by right | done | done]. }
    rewrite (bool_decide_eq_false_2 (k ∈ rest)) by done.
    destruct (decide (k ∈ nb)) as [Hknb | Hknb].
    { rewrite !bool_decide_eq_true_2; [done | | done]. apply elem_of_app. by left. }
    rewrite (bool_decide_eq_false_2 (k ∈ nb)) by done.
    rewrite (bool_decide_eq_false_2 (k ∈ nb ++ neighbors_of graph rest)).
    2: { intros Hin. apply elem_of_app in Hin as [? | ?]; done. }
    destruct (decide (k = t)) as [-> | Hkt].
    + rewrite bool_decide_eq_true_2 by done.
      rewrite bool_decide_eq_true_2; [done | by left].
    + rewrite bool_decide_eq_false_2 by done.
      rewrite bool_decide_eq_false_2; [done |].
      intros Hin. apply elem_of_cons in Hin as [? | ?]; done.
Qed.

Lemma node_in_range (graph : nx.Graph) (t : nat) :
  nx.wf graph -> dense graph -> t ∈ nx.nodes graph ->
  exists nb, nx.adj graph !! t = Some nb /\
             (t < length (nx.nodes graph))%nat /\
             Forall (fun k => (k < length (nx.nodes graph))%nat) nb.
Proof.
  intros [Hnodes Hnb] Hdense Ht.
  destruct (proj1 (Hnodes t) Ht) as [nb Hadj].
  exists nb. split; [done |]. split; [by apply Hdense |].
  apply Forall_forall. intros k Hk. apply Hdense. by apply (Hnb t nb).
Qed.

Lemma compute_trap_stabilizer_ok (graph : nx.Graph) (trap : Trap) :
  nx.wf graph -> dense graph ->
  (forall t, t ∈ trap -> t ∈ nx.nodes graph) ->
  apart graph trap ->
  compute_trap_stabilizer graph trap
  = Ok (PauliString.mk sign_1
          (canonical_letter trap (neighbors_of graph trap)
             <$> seq 0 (length (nx.nodes graph)))).
Proof.
  intros Hwf Hdense Hin Hapart. unfold compute_trap_stabilizer.
  set (n := length (nx.nodes graph)).
  assert (PauliString.len (PauliString.new n) = n) as Hlen.
  { unfold PauliString.len, PauliString.new. simpl. apply length_replicate. }
  destruct (trap_fill_loop graph trap (PauliString.new n))
    as (chain' & -> & Hsign & Hlen' & Hlook); [| done |].
  { intros t Ht. rewrite Hlen. by apply node_in_range, Hin. }
  f_equal. apply PauliString_eq; [done |].
  apply list_eq. intros k. cbn [PauliString.paulis].
  rewrite Hlook, new_lookup, canonical_letters_lookup.
  destruct (decide (k < n)%nat) as [Hk | Hk];
    [rewrite !(bool_decide_eq_true_2 (k < n)%nat) by done
    | by rewrite !(bool_decide_eq_false_2 (k < n)%nat) by done].
  done.
Qed.

(** The stabilizer of a trap: for a trap of nodes of the graph, no two of
    them adjacent, in a graph whose node ids are below its number of nodes,
    [compute_trap_stabilizer] returns the string with sign +1 that has X on
    the nodes of the trap, Z on their neighbours and the identity elsewhere. *)
Theorem compute_trap_stabilizer_spec (graph : nx.Graph) (trap : Trap) :
  nx.wf graph -> dense graph ->
  (forall t, t ∈ trap -> t ∈ nx.nodes graph) ->
  apart graph trap ->
  exists stabilizer,
    compute_trap_stabilizer graph trap = Ok stabilizer /\
    PauliString.sign stabilizer = sign_1 /\
    PauliString.len stabilizer = length (nx.nodes graph) /\
    forall k, (k < length (nx.nodes graph))%nat ->
      PauliString.paulis stabilizer !! k
      = Some (if bool_decide (k ∈ trap) then pX
              else if bool_decide (k ∈ neighbors_of graph trap) then pZ
              else pI).
Proof.
  intros Hwf Hdense Hin Hapart. eexists.
  split; [by apply compute_trap_stabilizer_ok |].
  split; [done |]. split.
  { unfold PauliString.len. simpl. by rewrite length_fmap, length_seq. }
  intros k Hk. simpl. rewrite canonical_letters_lookup.
  rewrite bool_decide_eq_true_2 by done. f_equal. unfold canonical_letter.
  repeat case_bool_decide; try done.
  exfalso.
  match goal with Hz : k ∈ neighbors_of graph trap |- _ =>
    apply elem_of_neighbors_of in Hz as (t & nb & Ht & Hadj & Hknb) end.
  by apply (Hapart t k nb).
Qed.

Lemma compute_trap_stabilizer_witness :
  nx.wf two_node_graph /\ dense two_node_graph /\ apart two_node_graph [0%nat] /\
  compute_trap_stabilizer two_node_graph [0%nat] = Ok (pauli_string [pX; pZ]).
Proof.
  assert (nx.wf two_node_graph) as Hwf by apply client_graph_wf.
  assert (dense two_node_graph) as Hdense.
  { intros n Hn. vm_compute in Hn.
    repeat (apply elem_of_cons in Hn as [-> | Hn]; [vm_compute; lia |]).
    by apply elem_of_nil in Hn. }
  assert (apart two_node_graph [0%nat]) as Hapart.
  { intros t u nb Ht Hu Hadj.
    apply list_elem_of_singleton in Ht as ->.
    apply list_elem_of_singleton in Hu as ->.
    vm_compute in Hadj. injection Hadj as <-.
    intros Hin. apply list_elem_of_singleton in Hin. discriminate. }
  split; [exact Hwf |]. split; [exact Hdense |]. split; [exact Hapart |].
  destruct (compute_trap_stabilizer_spec two_node_graph [0%nat] Hwf Hdense)
    as (stabilizer & Hrun & _); [| exact Hapart |].
  - intros t Ht. apply list_elem_of_singleton in Ht as ->. vm_compute. by left.
  - rewrite Hrun. vm_compute in Hrun. by injection Hrun as <-.
Defined.

(** A loop that appends [f x] for each [x]. *)
Lemma append_loop_ok {A R} (f : A -> Outcome R) (h : A -> R) (l : list A)
    (acc : list R) :
  (forall x, x ∈ l -> f x = Ok (h x)) ->
  for_each_exc l (fun x acc => y ← f x; Ok (acc ++ [y])) acc = Ok (acc ++ (h <$> l)).
Proof.
  revert acc. induction l as [| x l IH]; intros acc Hf.
  - simpl. by rewrite app_nil_r.
  - cbn [for_each_exc]. rewrite (Hf x) by (by left). simpl.
    rewrite IH by (intros y Hy; apply Hf; by right).
    by rewrite <- app_assoc.
Qed.

Lemma trap_stabilizer_of_lookup (graph : nx.Graph) (trap : Trap) (k : nat) (p : Pauli) :
  PauliString.paulis (trap_stabilizer_of graph trap) !! k = Some p <->
  (k < length (nx.nodes graph))%nat /\
  p = canonical_letter trap (neighbors_of graph trap) k.
Proof.
  unfold trap_stabilizer_of. simpl. rewrite canonical_letters_lookup.
  case_bool_decide; split.
  - by intros [= <-].
  - by intros [_ ->].
  - done.
  - intros [? _]. lia.
Qed.

Lemma apart_sublist (graph : nx.Graph) (nodes part : list nat) :
  apart graph nodes -> (forall t, t ∈ part -> t ∈ nodes) -> apart graph part.
Proof. intros Hapart Hsub t u nb Ht Hu. apply Hapart; by apply Hsub. Qed.

Lemma elem_of_trap_qubits (traps_list : list Trap) (t : nat) :
  t ∈ trap_qubits traps_list <-> exists trap, trap ∈ traps_list /\ t ∈ trap.
Proof.
  unfold trap_qubits. rewrite list_elem_of_bind. split.
  - intros (trap & Ht & Htrap). exists trap. split; [done |].
    apply list_elem_of_bind in Ht as (u & Hu & Hut).
    by apply list_elem_of_singleton in Hu as ->.
  - intros (trap & Htrap & Ht). exists trap. split; [| done].
    apply list_elem_of_bind. exists t. split; [by left | done].
Qed.

(** The stabilizers of two traps of a layout whose trap nodes are pairwise
    non-adjacent have a common eigenstate. *)
Lemma trap_stabilizers_compatible (graph : nx.Graph) (traps_list : list Trap)
    (trap_1 trap_2 : Trap) :
  apart graph (trap_qubits traps_list) ->
  trap_1 ∈ traps_list -> trap_2 ∈ traps_list ->
  common_eigenstate (trap_stabilizer_of graph trap_1) (trap_stabilizer_of graph trap_2)
  = true.
Proof.
  intros Hapart H1 H2. apply common_eigenstate_letters. intros k p Hp Hne.
  apply trap_stabilizer_of_lookup in Hp as [Hk ->].
  assert (forall q, q = canonical_letter trap_2 (neighbors_of graph trap_2) k ->
                    PauliString.paulis (trap_stabilizer_of graph trap_2) !! k = Some q)
    as Hq.
  { intros q ->. by apply trap_stabilizer_of_lookup. }
  unfold canonical_letter in *.
  destruct (decide (k ∈ neighbors_of graph trap_1)) as [HZ1 | HZ1].
  - rewrite (bool_decide_eq_true_2 _ HZ1).
    apply elem_of_neighbors_of in HZ1 as (t & nb & Ht & Hadj & Hknb).
    assert (k ∉ trap_qubits traps_list) as Hnot.
    { intros Hkt. apply (Hapart t k nb); [| done | done | done].
      apply elem_of_trap_qubits. by exists trap_1. }
    destruct (decide (k ∈ neighbors_of graph trap_2)) as [HZ2 | HZ2].
    + left. apply Hq. by rewrite (bool_decide_eq_true_2 _ HZ2).
    + right. apply Hq. rewrite (bool_decide_eq_false_2 _ HZ2).
      rewrite bool_decide_eq_false_2; [done |].
      intros Hk2. apply Hnot, elem_of_trap_qubits. by exists trap_2.
  - rewrite (bool_decide_eq_false_2 _ HZ1) in *.
    destruct (decide (k ∈ trap_1)) as [HX1 | HX1].
    + rewrite (bool_decide_eq_true_2 _ HX1).
      assert (k ∉ neighbors_of graph trap_2) as HZ2.
      { intros HZ2. apply elem_of_neighbors_of in HZ2 as (t & nb & Ht & Hadj & Hknb).
        apply (Hapart t k nb); [| | done | done];
          apply elem_of_trap_qubits; eauto. }
      destruct (decide (k ∈ trap_2)) as [HX2 | HX2].
      * left. apply Hq.
        by rewrite (bool_decide_eq_false_2 _ HZ2), (bool_decide_eq_true_2 _ HX2).
      * right. apply Hq.
        by rewrite (bool_decide_eq_false_2 _ HZ2), (bool_decide_eq_false_2 _ HX2).
    + by rewrite (bool_decide_eq_false_2 _ HX1) in Hne.
Qed.

Lemma merge_all_sign_1 (rest : list PauliString.t) (first : PauliString.t) :
  (forall s, s ∈ first :: rest -> PauliString.sign s = sign_1) ->
  PauliString.sign (merge_all first rest) = sign_1.
Proof.
  revert first. induction rest as [| second rest IH]; intros first Hsign.
  - apply Hsign. by left.
  - change (merge_all first (second :: rest))
      with (merge_all (merged first second) rest).
    apply IH. intros s Hs. apply elem_of_cons in Hs as [-> | Hs].
    + unfold merged. simpl.
      rewrite (Hsign first) by (by left).
      by rewrite (Hsign second) by (right; by left).
    + apply Hsign. right. by right.
Qed.

(** The letters of the merged stabilizer of a layout. *)
Lemma layout_letters (graph : nx.Graph) (first : Trap) (rest : list Trap) (k : nat) :
  apart graph (trap_qubits (first :: rest)) ->
  (k < length (nx.nodes graph))%nat ->
  PauliString.paulis
    (merge_all (trap_stabilizer_of graph first) (trap_stabilizer_of graph <$> rest)) !! k
  = Some (canonical_letter (trap_qubits (first :: rest))
            (neighbors_of graph (trap_qubits (first :: rest))) k).
Proof.
  intros Hapart Hk.
  set (stabilizers := trap_stabilizer_of graph first :: (trap_stabilizer_of graph <$> rest)).
  assert (forall s, s ∈ stabilizers ->
            exists trap, trap ∈ first :: rest /\ s = trap_stabilizer_of graph trap) as Hfrom.
  { intros s Hs. apply elem_of_cons in Hs as [-> | Hs].
    - exists first. split; [by left | done].
    - apply list_elem_of_fmap in Hs as (trap & -> & Htrap).
      exists trap. split; [by right | done]. }
  assert (forall s, s ∈ stabilizers ->
            PauliString.len s = PauliString.len (trap_stabilizer_of graph first)) as Hlen.
  { intros s Hs. destruct (Hfrom s Hs) as (trap & _ & ->).
    unfold PauliString.len, trap_stabilizer_of. simpl.
    by rewrite !length_fmap, !length_seq. }
  assert (later_compatible stabilizers) as Hc.
  { intros i j p_i p_j _ Hi Hj.
    apply list_elem_of_lookup_2 in Hi, Hj.
    destruct (Hfrom _ Hi) as (t1 & Ht1 & ->), (Hfrom _ Hj) as (t2 & Ht2 & ->).
    by apply (trap_stabilizers_compatible graph (first :: rest)). }
  destruct (merge_all_letters _ _ Hlen Hc) as [Hkeep Honly].
  set (m := merge_all (trap_stabilizer_of graph first) (trap_stabilizer_of graph <$> rest)).
  fold m in Hkeep, Honly.
  destruct (lookup_lt_is_Some_2 (PauliString.paulis m) k) as [q Hq].
  { fold (PauliString.len m). unfold m. rewrite merge_all_len.
    unfold PauliString.len, trap_stabilizer_of. simpl.
    by rewrite length_fmap, length_seq. }
  rewrite Hq. f_equal.
  set (xs := trap_qubits (first :: rest)).
  assert (forall trap, trap ∈ first :: rest ->
            PauliString.paulis (trap_stabilizer_of graph trap) !! k
            = Some (canonical_letter trap (neighbors_of graph trap) k)) as Hlook.
  { intros trap _. by apply trap_stabilizer_of_lookup. }
  unfold canonical_letter at 1.
  destruct (decide (k ∈ neighbors_of graph xs)) as [HZ | HZ].
  - rewrite (bool_decide_eq_true_2 _ HZ).
    apply elem_of_neighbors_of in HZ as (t & nb & Ht & Hadj & Hknb).
    apply elem_of_trap_qubits in Ht as (trap & Htrap & Ht).
    assert (PauliString.paulis m !! k = Some pZ) as HmZ.
    { apply (Hkeep (trap_stabilizer_of graph trap)); [| | done].
      - apply elem_of_cons in Htrap as [-> | Htrap]; [by left | right].
        apply list_elem_of_fmap. by exists trap.
      - rewrite (Hlook trap Htrap). f_equal. unfold canonical_letter.
        rewrite bool_decide_eq_true_2; [done |].
        apply elem_of_neighbors_of. by exists t, nb. }
    congruence.
  - rewrite (bool_decide_eq_false_2 _ HZ).
    destruct (decide (k ∈ xs)) as [HX | HX].
    + rewrite (bool_decide_eq_true_2 _ HX).
      pose proof HX as HX'.
      apply elem_of_trap_qubits in HX' as (trap & Htrap & Hkt).
      assert (PauliString.paulis m !! k = Some pX) as HmX.
      { apply (Hkeep (trap_stabilizer_of graph trap)); [| | done].
        - apply elem_of_cons in Htrap as [-> | Htrap]; [by left | right].
          apply list_elem_of_fmap. by exists trap.
        - rewrite (Hlook trap Htrap). f_equal. unfold canonical_letter.
          rewrite bool_decide_eq_false_2.
          + by rewrite bool_decide_eq_true_2.
          + intros Hn. apply HZ. apply elem_of_neighbors_of in Hn as (t & nb & Ht & Hadj & Hknb).
            apply elem_of_neighbors_of. exists t, nb. split; [| done].
            apply elem_of_trap_qubits. by exists trap. }
      congruence.
    + rewrite (bool_decide_eq_false_2 _ HX).
      destruct (decide (q = pI)) as [-> | Hne]; [done |].
      destruct (Honly k q Hq Hne) as (s & Hs & Hsk).
      destruct (Hfrom s Hs) as (trap & Htrap & ->).
      rewrite (Hlook trap Htrap) in Hsk. injection Hsk as <-.
      exfalso. unfold canonical_letter in Hne.
      repeat case_bool_decide; try done.
      * apply HZ.
        match goal with Hz : k ∈ neighbors_of graph trap |- _ =>
          apply elem_of_neighbors_of in Hz as (t & nb & Ht & Hadj & Hknb) end.
        apply elem_of_neighbors_of. exists t, nb. split; [| done].
        apply elem_of_trap_qubits. by exists trap.
      * apply HX, elem_of_trap_qubits. by exists trap.
Qed.

Lemma generate_eigenstate_loop `{GraphixData} (stabilizer : PauliString.t)
    (coins : gmap nat Z) (letter : nat -> Pauli) (nodes : list nat)
    (acc : list State) :
  (forall node, node ∈ nodes ->
     PauliString.paulis stabilizer !! node = Some (letter node) /\
     is_Some (coins !! node)) ->
  for_each_exc nodes
    (fun node states =>
       operator ← PauliString.getitem stabilizer node;
       coin ← dict_item coins node;
       Ok (states ++ [pauli_eigenstate operator coin]))
    acc
  = Ok (acc ++ ((fun node => pauli_eigenstate (letter node) (dict_get0 coins node))
                  <$> nodes)).
Proof.
  revert acc. induction nodes as [| node nodes IH]; intros acc Hok.
  - simpl. by rewrite app_nil_r.
  - destruct (Hok node ltac:(by left)) as [Hletter [coin Hcoin]].
    cbn [for_each_exc].
    rewrite (getitem_Some _ _ _ Hletter). simpl.
    rewrite (dict_item_Some _ _ _ Hcoin). simpl.
    rewrite IH by (intros n Hn; apply Hok; by right).
    rewrite <- app_assoc. simpl. unfold dict_get0. by rewrite Hcoin.
Qed.

(** The canvas the constructor returns on a valid layout, field by field. *)
Lemma TrappifiedCanvas_init_value `{GraphixData} (graph : nx.Graph)
    (first : Trap) (rest : list Trap) (g : Rng) (fuel : nat) :
  nx.wf graph -> dense graph ->
  (forall t, t ∈ trap_qubits (first :: rest) -> t ∈ nx.nodes graph) ->
  apart graph (trap_qubits (first :: rest)) ->
  (length (first :: rest) + 3 <= fuel)%nat ->
  exists coins,
    (forall node, node ∈ nx.nodes graph -> is_Some (coins !! node)) /\
    (TrappifiedCanvas_init fuel graph (first :: rest) g).1
    = Some (Ok (TrappifiedCanvas.mk _ graph (first :: rest)
                  [merge_all (trap_stabilizer_of graph first)
                     (trap_stabilizer_of graph <$> rest)]
                  (merge_all (trap_stabilizer_of graph first)
                     (trap_stabilizer_of graph <$> rest))
                  coins
                  ((fun node =>
                      pauli_eigenstate
                        (canonical_letter (trap_qubits (first :: rest))
                           (neighbors_of graph (trap_qubits (first :: rest))) node)
                        (dict_get0 coins node))
                     <$> merge_sort Nat.le (nx.nodes graph)))).
Proof.
  intros Hwf Hdense Hin Hapart Hfuel.
  set (traps_list := first :: rest) in *.
  set (xs := trap_qubits traps_list) in *.
  unfold TrappifiedCanvas_init.
  rewrite (append_loop_ok (compute_trap_stabilizer graph) (trap_stabilizer_of graph)).
  2: { intros trap Htrap. apply compute_trap_stabilizer_ok; [done | done | |].
       - intros t Ht. apply Hin, elem_of_trap_qubits. by exists trap.
       - apply (apart_sublist graph xs); [done |].
         intros t Ht. apply elem_of_trap_qubits. by exists trap. }
  rewrite app_nil_l.
  change (trap_stabilizer_of graph <$> traps_list)
    with (trap_stabilizer_of graph first :: (trap_stabilizer_of graph <$> rest)).
  set (m := merge_all (trap_stabilizer_of graph first) (trap_stabilizer_of graph <$> rest)).
  assert (forall s, s ∈ trap_stabilizer_of graph first :: (trap_stabilizer_of graph <$> rest) ->
            exists trap, s = trap_stabilizer_of graph trap /\ trap ∈ traps_list) as Hfrom.
  { intros s Hs. apply elem_of_cons in Hs as [-> | Hs].
    - exists first. split; [done | by left].
    - apply list_elem_of_fmap in Hs as (trap & -> & Htrap).
      exists trap. split; [done | by right]. }
  rewrite merge_pauli_list_merge_all.
  2: { intros s Hs. destruct (Hfrom s Hs) as (trap & -> & _).
       unfold PauliString.len, trap_stabilizer_of. simpl.
       by rewrite !length_fmap, !length_seq. }
  2: { intros i j p_i p_j _ Hi Hj.
       apply list_elem_of_lookup_2 in Hi, Hj.
       destruct (Hfrom _ Hi) as (t1 & -> & Ht1), (Hfrom _ Hj) as (t2 & -> & Ht2).
       by apply (trap_stabilizers_compatible graph traps_list). }
  2: { rewrite length_fmap. simpl in Hfuel. lia. }
  fold m.
  (* the coins *)
  destruct (trap_loop_spec graph xs Hwf Hin Hapart xs
              (generate_coins_dummies graph traps_list g).1
              ltac:(done)
              ltac:(intros n Hn; by apply generate_coins_dummies_bits))
    as (coins & Hcoins & Hbits & _ & _).
  destruct (generate_coins_dummies graph traps_list g) as [dummies g'] eqn:Hdummies.
  simpl in Hcoins. unfold generate_coins_trap_qubits. fold xs.
  cbn [fst]. rewrite Hcoins. simpl.
  (* the states *)
  unfold generate_eigenstate.
  rewrite (generate_eigenstate_loop m coins
             (canonical_letter xs (neighbors_of graph xs))).
  2: { intros node Hnode.
       assert (node ∈ nx.nodes graph) as Hnode'.
       { by rewrite <- (merge_sort_Permutation Nat.le (nx.nodes graph)). }
       split; [by apply layout_letters, Hdense |].
       destruct (Hbits node Hnode') as (v & Hv & _). by exists v. }
  simpl. exists coins. split; [| done].
  intros node Hnode. destruct (Hbits node Hnode) as (v & Hv & _). by exists v.
Qed.

(** The construction of a canvas succeeds on a valid layout: for a graph
    whose node ids are below its number of nodes, a non-empty list of traps
    made of nodes of the graph, no two trap nodes adjacent, and fuel for as
    many iterations as there are traps, the constructor returns a canvas. Its
    stabilizer, the single one left in the list, has sign +1, X on the trap
    nodes, Z on their neighbours and the identity elsewhere; every node has a
    coin; and the states are, for the nodes in increasing order, the
    eigenstates of their letters selected by their coins. *)
Theorem TrappifiedCanvas_init_succeeds `{GraphixData} (graph : nx.Graph)
    (traps_list : list Trap) (g : Rng) (fuel : nat) :
  nx.wf graph -> dense graph ->
  traps_list <> [] ->
  (forall t, t ∈ trap_qubits traps_list -> t ∈ nx.nodes graph) ->
  apart graph (trap_qubits traps_list) ->
  (length traps_list + 3 <= fuel)%nat ->
  exists cv,
    (TrappifiedCanvas_init fuel graph traps_list g).1 = Some (Ok cv) /\
    TrappifiedCanvas.graph cv = graph /\
    TrappifiedCanvas.traps_list cv = traps_list /\
    TrappifiedCanvas.trap_stabilizers cv = [TrappifiedCanvas.stabilizer cv] /\
    PauliString.sign (TrappifiedCanvas.stabilizer cv) = sign_1 /\
    PauliString.len (TrappifiedCanvas.stabilizer cv) = length (nx.nodes graph) /\
    (forall k, (k < length (nx.nodes graph))%nat ->
       PauliString.paulis (TrappifiedCanvas.stabilizer cv) !! k
       = Some (if bool_decide (k ∈ trap_qubits traps_list) then pX
               else if bool_decide (k ∈ neighbors_of graph (trap_qubits traps_list))
                    then pZ else pI)) /\
    (forall node, node ∈ nx.nodes graph ->
       is_Some (TrappifiedCanvas.coins cv !! node)) /\
    TrappifiedCanvas.states cv
    = (fun node =>
         pauli_eigenstate
           (if bool_decide (node ∈ trap_qubits traps_list) then pX
            else if bool_decide (node ∈ neighbors_of graph (trap_qubits traps_list))
                 then pZ else pI)
           (dict_get0 (TrappifiedCanvas.coins cv) node))
        <$> merge_sort Nat.le (nx.nodes graph).
Proof.
  intros Hwf Hdense Hne Hin Hapart Hfuel.
  destruct traps_list as [| first rest]; [done |]. clear Hne.
  destruct (TrappifiedCanvas_init_value graph first rest g fuel Hwf Hdense Hin
              Hapart Hfuel) as (coins & Hcoins & ->).
  set (traps_list := first :: rest) in *.
  set (xs := trap_qubits traps_list) in *.
  (* the letters, with X tested first: the same, as trap nodes are no neighbours *)
  assert (forall k,
            canonical_letter xs (neighbors_of graph xs) k
            = if bool_decide (k ∈ xs) then pX
              else if bool_decide (k ∈ neighbors_of graph xs) then pZ else pI) as Hletter.
  { intros k. unfold canonical_letter. repeat case_bool_decide; try done.
    exfalso.
    match goal with Hz : k ∈ neighbors_of graph xs |- _ =>
      apply elem_of_neighbors_of in Hz as (t & nb & Ht & Hadj & Hknb) end.
    by apply (Hapart t k nb). }
  eexists. split; [reflexivity |]. simpl.
  split; [done |]. split; [done |]. split; [done |].
  split.
  { apply merge_all_sign_1. intros s Hs. apply elem_of_cons in Hs as [-> | Hs]; [done |].
    by apply list_elem_of_fmap in Hs as (trap & -> & _). }
  split.
  { rewrite merge_all_len. unfold PauliString.len, trap_stabilizer_of.
    simpl. by rewrite length_fmap, length_seq. }
  split.
  { intros k Hk. rewrite <- Hletter. by apply layout_letters. }
  split; [done |].
  apply list_fmap_ext. intros i node _. by rewrite Hletter.
Qed.

Lemma TrappifiedCanvas_init_succeeds_witness :
  nx.wf two_node_graph /\ dense two_node_graph /\
  apart two_node_graph (trap_qubits [[0%nat]]) /\
  exists cv,
    (TrappifiedCanvas_init (H := named_data) 10 two_node_graph [[0%nat]]
       counting_rng).1 = Some (Ok cv) /\
    PauliString.sign (TrappifiedCanvas.stabilizer cv) = sign_1 /\
    PauliString.len (TrappifiedCanvas.stabilizer cv) = 2%nat.
Proof.
  assert (nx.wf two_node_graph) as Hwf by apply client_graph_wf.
  assert (dense two_node_graph) as Hdense.
  { intros n Hn. change (nx.nodes two_node_graph) with [0; 1]%nat in *.
    apply elem_of_cons in Hn as [-> | Hn]; [simpl; lia |].
    apply list_elem_of_singleton in Hn as ->. simpl. lia. }
  assert (apart two_node_graph (trap_qubits [[0%nat]])) as Hapart.
  { intros t u nb Ht Hu Hnb.
    apply list_elem_of_singleton in Ht as ->.
    apply list_elem_of_singleton in Hu as ->.
    vm_compute in Hnb. injection Hnb as <-.
    intros Habs. apply list_elem_of_singleton in Habs. discriminate. }
  split; [exact Hwf |]. split; [exact Hdense |]. split; [exact Hapart |].
  destruct (TrappifiedCanvas_init_succeeds (H := named_data) two_node_graph
              [[0%nat]] counting_rng 10 Hwf Hdense)
    as (cv & Hrun & _ & _ & _ & Hsign & Hlen & _).
  - done.
  - intros t Ht. apply list_elem_of_singleton in Ht as ->. by left.
  - exact Hapart.
  - simpl. lia.
  - exists cv. split; [exact Hrun |]. split; [exact Hsign | exact Hlen].
Defined.

(** A loop whose body raises at one element of the list, whatever the state
    it is run on, raises. *)
Lemma for_each_exc_raises {A S} (l : list A) (body : A -> S -> Outcome S) (x : A) :
  x ∈ l ->
  (forall s, exists e, body x s = Raise e) ->
  forall s, exists e, for_each_exc l body s = Raise e.
Proof.
  intros Hx Hbody. induction l as [| y l IH]; intros s.
  - by apply elem_of_nil in Hx.
  - cbn [for_each_exc]. destruct (body y s) as [s' | e] eqn:Hy.
    + apply elem_of_cons in Hx as [<- | Hx].
      * destruct (Hbody s) as [e He]. congruence.
      * simpl. by apply IH.
    + by exists e.
Qed.

(** Without a trap there is no stabilizer to return: on an empty list of
    traps the constructor raises [IndexError], whatever the graph, as soon as
    the loops of the merge have fuel to see that the list is empty, and
    before any coin is drawn. *)
Theorem TrappifiedCanvas_init_no_trap `{GraphixData} (graph : nx.Graph) (g : Rng)
    (fuel : nat) :
  TrappifiedCanvas_init (S (S fuel)) graph [] g = (Some (Raise IndexError), g).
Proof. reflexivity. Qed.

(** A trap that holds a node the graph does not have stops the construction:
    the constructor raises while it computes the stabilizers of the traps,
    whatever the fuel, and before any coin is drawn. *)
Theorem TrappifiedCanvas_init_foreign_node `{GraphixData} (graph : nx.Graph)
    (traps_list : list Trap) (trap : Trap) (node : nat) (g : Rng) (fuel : nat) :
  trap ∈ traps_list -> node ∈ trap ->
  nx.adj graph !! node = None ->
  exists e, TrappifiedCanvas_init fuel graph traps_list g = (Some (Raise e), g).
Proof.
  intros Htrap Hnode Hnone.
  assert (forall chain, exists e, fill_canonical_stabilizer graph chain node = Raise e)
    as Hfill.
  { intros chain. unfold fill_canonical_stabilizer.
    destruct (PauliString.setitem chain node pX) as [chain' | e]; [| by exists e].
    simpl. unfold nx.neighbors. rewrite Hnone. simpl. by eexists. }
  assert (exists e, compute_trap_stabilizer graph trap = Raise e) as [e He].
  { unfold compute_trap_stabilizer.
    by apply (for_each_exc_raises trap _ node). }
  unfold TrappifiedCanvas_init.
  destruct (for_each_exc_raises traps_list
              (fun trap acc => s ← compute_trap_stabilizer graph trap; Ok (acc ++ [s]))
              trap Htrap) with (s := @nil PauliString.t) as [e' He'].
  - intros acc. rewrite He. simpl. by exists e.
  - rewrite He'. by exists e'.
Qed.

Lemma TrappifiedCanvas_init_foreign_node_witness :
  exists e,
    TrappifiedCanvas_init (H := named_data) 10 two_node_graph [[0%nat]; [1; 5]%nat]
      counting_rng
    = (Some (Raise e), counting_rng).
Proof.
  apply (TrappifiedCanvas_init_foreign_node (H := named_data) two_node_graph
           [[0%nat]; [1; 5]%nat] [1; 5]%nat 5%nat counting_rng 10).
  - right. by left.
  - right. by left.
  - reflexivity.
Defined.

(** * The client during a run *)

(** The table of a test run: every node of the table gets the default
    measurement of that node, and no node is added. *)
Lemma patch_loop (keys : list nat) (db : gmap nat M.t) (node : nat) :
  for_each keys (fun node db => <[node := M.of_node node]> db) db !! node
  = if bool_decide (node ∈ keys) then Some (M.of_node node) else db !! node.
Proof.
  revert db. induction keys as [| k keys IH] using rev_ind; intros db.
  - by rewrite bool_decide_eq_false_2 by apply not_elem_of_nil.
  - rewrite for_each_snoc. destruct (decide (node = k)) as [-> | Hne].
    + rewrite lookup_insert_eq, bool_decide_eq_true_2; [done |].
      apply elem_of_app. right. by left.
    + rewrite lookup_insert_ne by done. rewrite IH.
      destruct (decide (node ∈ keys)) as [Hin | Hout].
      * rewrite !bool_decide_eq_true_2; [done | | done].
        apply elem_of_app. by left.
      * rewrite !bool_decide_eq_false_2; [done | | done].
        intros Habs. apply elem_of_app in Habs as [Habs | Habs]; [done |].
        apply list_elem_of_singleton in Habs. congruence.
Qed.

Lemma patched_lookup (db : gmap nat M.t) (node : nat) :
  for_each (map_to_list db).*1 (fun node db => <[node := M.of_node node]> db) db
    !! node
  = (fun _ => M.of_node node) <$> db !! node.
Proof.
  rewrite patch_loop. destruct (db !! node) as [m |] eqn:Hnode.
  - rewrite bool_decide_eq_true_2; [done |].
    apply list_elem_of_fmap. exists (node, m). split; [done |].
    by apply elem_of_map_to_list.
  - rewrite bool_decide_eq_false_2; [done |].
    intros Habs. apply list_elem_of_fmap in Habs as ([k m] & -> & Hkm).
    apply elem_of_map_to_list in Hkm. simpl in Hnode. congruence.
Qed.

Section client_invariant.
Context `{GraphixLib} {B : Type} `{!Backend B}.

(** A property of the client that does not read the results store. *)
Variable P : Client.t -> Prop.
Hypothesis P_results : forall c results, P c -> P (Client.set_results c results).

Lemma on_backend_keeps {A} (m : Py B A) :
  preserves (fun st : Client.t * B => P st.1) (on_backend m).
Proof.
  intros [c backend] Hs. unfold on_backend. by destruct (m backend).
Qed.

Lemma MeasureMethod_measure_keeps (node : nat) :
  preserves (fun st : Client.t * B => P st.1) (MeasureMethod_measure node).
Proof.
  unfold MeasureMethod_measure.
  apply preserves_bind; [apply preserves_lift |]. intros description.
  apply preserves_bind; [apply on_backend_keeps |]. intros result.
  intros [c backend] Hs. unfold on_client, set_measure_result. simpl in *.
  case_bool_decide; [destruct (dict_item _ node) |]; simpl; try done;
    by apply P_results.
Qed.

Lemma run_command_keeps (cmd : Command) :
  preserves (fun st : Client.t * B => P st.1) (run_command cmd).
Proof.
  destruct cmd; simpl;
    first [ apply on_backend_keeps | apply MeasureMethod_measure_keeps | idtac ].
  all: unfold correct_byproduct;
    (apply preserves_bind; [apply preserves_lift |]); intros outcomes;
    case_bool_decide; [apply on_backend_keeps | apply preserves_ret].
Qed.

Lemma PatternSimulator_run_keeps (pattern : Pattern.t) :
  preserves (fun st : Client.t * B => P st.1) (PatternSimulator_run pattern).
Proof.
  unfold PatternSimulator_run.
  apply preserves_bind; [| intros _; apply on_backend_keeps].
  apply preserves_for. intros cmd _. apply run_command_keeps.
Qed.
End client_invariant.

(** The simulator leaves the measurement table of the client as it is. *)
Lemma PatternSimulator_run_measurement_db `{GraphixLib} {B : Type} `{!Backend B}
    (pattern : Pattern.t) (st : Client.t * B) :
  Client.measurement_db (PatternSimulator_run pattern st).2.1
  = Client.measurement_db st.1.
Proof.
  by apply (PatternSimulator_run_keeps
              (fun c => Client.measurement_db c = Client.measurement_db st.1)).
Qed.

(** The simulator changes nothing of the client but its results store. *)
Lemma PatternSimulator_run_frame `{GraphixLib} {B : Type} `{!Backend B}
    (pattern : Pattern.t) (c : Client.t) (backend : B) :
  exists results,
    (PatternSimulator_run pattern (c, backend)).2.1 = Client.set_results c results.
Proof.
  apply (PatternSimulator_run_keeps
           (fun c' => exists results, c' = Client.set_results c results)).
  - intros c' results [results' ->]. by exists results.
  - exists (Client.results c). by destruct c.
Qed.

(** A test run that returns gives the client its measurement table back:
    the client is then as it was before the call, except for its results
    store. *)
Theorem delegate_test_run_restores `{GraphixLib} (B : Type) `(!Backend B)
    (run : TrappifiedCanvas.t) (c : Client.t) (backend : B)
    (trap_outcomes : list Z) :
  (delegate_test_run run (c, backend)).1 = Ok trap_outcomes ->
  Client.measurement_db (delegate_test_run run (c, backend)).2.1
  = Client.measurement_db c /\
  (delegate_test_run run (c, backend)).2.1
  = Client.set_results c
      (Client.results (delegate_test_run run (c, backend)).2.1).
Proof.
  unfold delegate_test_run, py_bind, py_lift, on_client, py_modify, py_ret. simpl.
  match goal with
  | |- context [PatternSimulator_run ?p (?c0, ?b0)] =>
      destruct (PatternSimulator_run_frame p c0 b0) as [results Hframe];
      destruct (PatternSimulator_run p (c0, b0)) as [[[] | e] [c' backend']]
  end; simpl in *; [| discriminate].
  destruct (trap_outcomes_of (Client.results c') _); simpl; [| discriminate].
  intros _. split; [done |]. subst c'. by destruct c.
Qed.

Lemma delegate_test_run_restores_witness :
  (delegate_test_run example_canvas (measured_client, silent_recorder)).1 = Ok [1] /\
  Client.measurement_db
    (delegate_test_run example_canvas (measured_client, silent_recorder)).2.1
  = Client.measurement_db measured_client.
Proof.
  assert ((delegate_test_run example_canvas (measured_client, silent_recorder)).1
          = Ok [1]) as Hrun by (vm_compute; reflexivity).
  split; [exact Hrun |].
  exact (proj1 (delegate_test_run_restores Recorder Recorder_Backend example_canvas
                  measured_client silent_recorder [1] Hrun)).
Defined.

(** A test run that raises, in the simulator or when it reads the outcomes of
    the traps, leaves the client with the table of the test: every
    measurement is the default one of its node (plane XY, angle 0, empty
    domains), and the parameters of the computation are no longer in the
    client. *)
Theorem delegate_test_run_leaves_patched `{GraphixLib} (B : Type) `(!Backend B)
    (run : TrappifiedCanvas.t) (c : Client.t) (backend : B) (e : Exc) (node : nat) :
  (delegate_test_run run (c, backend)).1 = Raise e ->
  Client.measurement_db (delegate_test_run run (c, backend)).2.1 !! node
  = (fun _ => M.of_node node) <$> Client.measurement_db c !! node.
Proof.
  unfold delegate_test_run, py_bind, py_lift, on_client, py_modify, py_ret. simpl.
  match goal with
  | |- context [PatternSimulator_run ?p ?st] =>
      pose proof (PatternSimulator_run_measurement_db p st) as Hdb;
      destruct (PatternSimulator_run p st) as [[[] | e'] [c' backend']]
  end; simpl in *.
  - destruct (trap_outcomes_of (Client.results c') _); simpl; [discriminate |].
    intros _. rewrite Hdb. apply patched_lookup.
  - intros _. rewrite Hdb. apply patched_lookup.
Qed.

Lemma delegate_test_run_leaves_patched_witness :
  (delegate_test_run output_canvas (example_client, silent_recorder)).1
  = Raise (KeyError 1) /\
  Client.measurement_db example_client !! 0%nat
  = Some (M.mk 0 XY 0.25%float [7%nat] []) /\
  Client.measurement_db
    (delegate_test_run output_canvas (example_client, silent_recorder)).2.1 !! 0%nat
  = Some (M.of_node 0).
Proof.
  assert ((delegate_test_run output_canvas (example_client, silent_recorder)).1
          = Raise (KeyError 1)) as Hrun by (vm_compute; reflexivity).
  split; [exact Hrun |]. split; [reflexivity |].
  exact (delegate_test_run_leaves_patched Recorder Recorder_Backend output_canvas
           example_client silent_recorder (KeyError 1) 0%nat Hrun).
Defined.

Lemma output_canvas_built :
  (TrappifiedCanvas_init 10 two_node_graph [[1%nat]] counting_rng).1
  = Some (Ok output_canvas).
Proof. vm_compute. reflexivity. Qed.

(** The sum over a domain raises [KeyError] at its first missing key. *)
Lemma sum_items_missing (d : gmap nat Z) (dom : list nat) (node : nat) :
  node ∈ dom -> d !! node = None ->
  exists key, sum_items d dom = Raise (KeyError key) /\ d !! key = None.
Proof.
  intros Hnode Hnone. induction dom as [| k dom IH].
  - by apply elem_of_nil in Hnode.
  - cbn [sum_items]. destruct (d !! k) as [v |] eqn:Hk.
    + rewrite (dict_item_Some _ _ _ Hk). simpl.
      apply elem_of_cons in Hnode as [-> | Hnode]; [congruence |].
      destruct (IH Hnode) as (key & -> & Hkey). by exists key.
    + rewrite (dict_item_None _ _ Hk). by exists k.
Qed.

(** The sum over a domain raises nothing but [KeyError], at a key of the
    domain that the dictionary does not have. *)
Lemma sum_items_raises (d : gmap nat Z) (dom : list nat) (e : Exc) :
  sum_items d dom = Raise e ->
  exists key, e = KeyError key /\ key ∈ dom /\ d !! key = None.
Proof.
  induction dom as [| k dom IH]; [discriminate |].
  cbn [sum_items]. destruct (d !! k) as [v |] eqn:Hk.
  - rewrite (dict_item_Some _ _ _ Hk). simpl.
    destruct (sum_items d dom) as [s | e'] eqn:Hdom; [discriminate |].
    simpl. intros [= <-]. destruct (IH eq_refl) as (key & -> & Hin & Hkey).
    exists key. split; [done |]. split; [by right | done].
  - rewrite (dict_item_None _ _ Hk). simpl. intros [= <-].
    exists k. split; [done |]. split; [by left | done].
Qed.

Lemma trap_outcomes_missing (results : gmap nat Z) (traps_list : list (list nat))
    (trap : list nat) (node : nat) :
  trap ∈ traps_list -> node ∈ trap -> results !! node = None ->
  exists key, trap_outcomes_of results traps_list = Raise (KeyError key) /\
              results !! key = None.
Proof.
  intros Htrap Hnode Hnone. unfold trap_outcomes_of.
  enough (forall acc,
            exists key,
              for_each_exc traps_list
                (fun trap trap_outcomes =>
                   outcomes ← sum_items results trap;
                   Ok (trap_outcomes ++ [outcomes mod 2]))
                acc
              = Raise (KeyError key) /\ results !! key = None) as Hgen by apply Hgen.
  induction traps_list as [| t traps IH]; intros acc.
  - by apply elem_of_nil in Htrap.
  - cbn [for_each_exc]. destruct (sum_items results t) as [s | e] eqn:Hsum.
    + simpl. apply elem_of_cons in Htrap as [-> | Htrap].
      * destruct (sum_items_missing results t node Hnode Hnone) as (key & Hkey & _).
        congruence.
      * by apply IH.
    + simpl. apply sum_items_raises in Hsum as (key & -> & _ & Hkey).
      by exists key.
Qed.

(** A trap on a node whose outcome nobody records ends the test run with an
    exception: when a trap of the canvas holds a node that the clean
    pattern does not measure (an output node, for one) and the results store
    has no entry for, the test run does not return. *)
Theorem delegate_test_run_unmeasured_trap `{GraphixLib} (B : Type) `(!Backend B)
    (run : TrappifiedCanvas.t) (c : Client.t) (backend : B) (trap : list nat)
    (node : nat) :
  trap ∈ TrappifiedCanvas.traps_list run -> node ∈ trap ->
  (forall cmd, cmd ∈ Pattern.seq (Client.clean_pattern c) ->
     measured_node cmd <> Some node) ->
  Client.results c !! node = None ->
  exists e, (delegate_test_run run (c, backend)).1 = Raise e.
Proof.
  intros Htrap Hnode Hseq Hnone.
  unfold delegate_test_run, py_bind, py_lift, on_client, py_modify, py_ret. simpl.
  match goal with
  | |- context [PatternSimulator_run ?p ?st] =>
      pose proof (PatternSimulator_run_holds node None p Hseq st Hnone) as Hrun;
      destruct (PatternSimulator_run p st) as [[[] | e] [c' backend']]
  end; simpl in *; [| by exists e].
  destruct (trap_outcomes_missing (Client.results c')
              (TrappifiedCanvas.traps_list run) trap node Htrap Hnode Hrun)
    as (key & -> & _).
  simpl. by eexists.
Qed.

Lemma delegate_test_run_unmeasured_trap_witness :
  Client.results example_client !! 1%nat = None /\
  exists e,
    (delegate_test_run output_canvas (example_client, silent_recorder)).1 = Raise e.
Proof.
  split; [reflexivity |].
  apply (delegate_test_run_unmeasured_trap Recorder Recorder_Backend output_canvas
           example_client silent_recorder [1%nat] 1%nat).
  - by left.
  - by left.
  - intros cmd Hcmd. simpl in Hcmd.
    repeat (apply elem_of_cons in Hcmd as [-> | Hcmd]; [discriminate |]).
    by apply elem_of_nil in Hcmd.
  - reflexivity.
Defined.

(** The table of a test run depends on the nodes of the measurement table
    only. *)
Lemma patched_same_keys (db db' : gmap nat M.t) :
  same_keys db db' ->
  for_each (map_to_list db).*1 (fun node db => <[node := M.of_node node]> db) db
  = for_each (map_to_list db').*1 (fun node db => <[node := M.of_node node]> db) db'.
Proof.
  intros Hkeys. apply map_eq. intros node. rewrite !patched_lookup.
  destruct (Hkeys node) as [H1 H2].
  destruct (db !! node) as [m |], (db' !! node) as [m' |]; try done.
  - by destruct H1 as [? [=]].
  - by destruct H2 as [? [=]].
Qed.

Lemma blind_qubits_set_measurement_db `{GraphixLib} {B : Type} `{!Backend B}
    (c : Client.t) (db : gmap nat M.t) (backend : B) :
  blind_qubits (Client.set_measurement_db c db) backend = blind_qubits c backend.
Proof. reflexivity. Qed.

Lemma set_measurement_db_twice `{GraphixData} (c : Client.t) (db db' : gmap nat M.t) :
  Client.set_measurement_db (Client.set_measurement_db c db) db'
  = Client.set_measurement_db c db'.
Proof. reflexivity. Qed.

(** A test run does not depend on the measurements of the computation: two
    clients that differ only in the parameters their measurement tables give
    (planes, angles, domains), for the same nodes, make the same calls on the
    backend, record the same outcomes and return the same parities, or raise
    the same exception. *)
Theorem delegate_test_run_ignores_parameters `{GraphixLib} (B : Type)
    `(!Backend B) (run : TrappifiedCanvas.t) (c : Client.t) (db : gmap nat M.t)
    (backend : B) :
  same_keys db (Client.measurement_db c) ->
  let run_1 := delegate_test_run run (c, backend) in
  let run_2 := delegate_test_run run (Client.set_measurement_db c db, backend) in
  run_2.1 = run_1.1 /\
  run_2.2.2 = run_1.2.2 /\
  Client.results run_2.2.1 = Client.results run_1.2.1.
Proof.
  intros Hkeys.
  unfold delegate_test_run, py_bind, py_lift, on_client, py_modify, py_ret.
  simpl.
  rewrite (patched_same_keys db (Client.measurement_db c) Hkeys).
  rewrite blind_qubits_set_measurement_db, set_measurement_db_twice.
  match goal with
  | |- context [PatternSimulator_run ?p ?st] =>
      destruct (PatternSimulator_run p st) as [[[] | e] [c' backend']]
  end; cbn [fst snd]; [| done].
  by destruct (trap_outcomes_of (Client.results c') _).
Qed.

Lemma delegate_test_run_ignores_parameters_witness :
  same_keys other_measurement_db (Client.measurement_db example_client) /\
  (delegate_test_run example_canvas
     (Client.set_measurement_db example_client other_measurement_db,
      silent_recorder)).1
  = (delegate_test_run example_canvas (example_client, silent_recorder)).1.
Proof.
  assert (same_keys other_measurement_db (Client.measurement_db example_client))
    as Hkeys.
  { intros key. unfold other_measurement_db.
    change (Client.measurement_db example_client)
      with ({[ 0%nat := M.mk 0 XY 0.25%float [7%nat] [] ]} : gmap nat M.t).
    destruct (decide (key = 0%nat)) as [-> | Hne].
    - by rewrite !lookup_singleton_eq.
    - by rewrite !lookup_singleton_ne. }
  split; [exact Hkeys |].
  exact (proj1 (delegate_test_run_ignores_parameters Recorder Recorder_Backend
                  example_canvas example_client other_measurement_db
                  silent_recorder Hkeys)).
Defined.

(** ** The exceptions of a delegation *)

Lemma only_KeyError_bind {S A B} (m : Py S A) (k : A -> Py S B) :
  raises_only_KeyError m -> (forall a, raises_only_KeyError (k a)) ->
  raises_only_KeyError (py_bind m k).
Proof.
  intros Hm Hk s e. unfold py_bind.
  destruct (m s) as [[a | e'] s'] eqn:Hms.
  - apply Hk.
  - simpl. intros [= <-]. apply (Hm s). by rewrite Hms.
Qed.

Lemma only_KeyError_total {S A} (m : Py S A) :
  (forall s, exists a, (m s).1 = Ok a) -> raises_only_KeyError m.
Proof. intros Hm s e He. destruct (Hm s) as [a Ha]. congruence. Qed.

Lemma only_KeyError_for {S A} (l : list A) (body : A -> Py S unit) :
  (forall x, x ∈ l -> raises_only_KeyError (body x)) ->
  raises_only_KeyError (py_for l body).
Proof.
  induction l as [| x l IH]; intros Hbody; cbn [py_for].
  - apply only_KeyError_total. intros s. by exists tt.
  - apply only_KeyError_bind.
    + apply Hbody. by left.
    + intros _. apply IH. intros y Hy. apply Hbody. by right.
Qed.

Lemma dict_item_raises {V} (d : gmap nat V) (k : nat) (e : Exc) :
  dict_item d k = Raise e -> e = KeyError k.
Proof. unfold dict_item. destruct (d !! k); [discriminate | by intros [= <-]]. Qed.

Lemma get_measurement_description_raises `{GraphixLib} (c : Client.t) (node : nat)
    (e : Exc) :
  get_measurement_description c node = Raise e -> exists key, e = KeyError key.
Proof.
  unfold get_measurement_description.
  destruct (dict_item (Client.measurement_db c) node) as [parameters | e'] eqn:Hp.
  - simpl.
    destruct (sum_items _ (M.s_domain parameters)) as [s | e'] eqn:Hs.
    + simpl. destruct (sum_items _ (M.t_domain parameters)) as [t | e'] eqn:Ht.
      * discriminate.
      * simpl. intros [= <-].
        apply sum_items_raises in Ht as (key & -> & _). by exists key.
    + simpl. intros [= <-].
      apply sum_items_raises in Hs as (key & -> & _). by exists key.
  - simpl. intros [= <-]. apply dict_item_raises in Hp. by exists node.
Qed.

Lemma decode_output_raises `{GraphixData} (c : Client.t) (node : nat) (e : Exc) :
  decode_output c node = Raise e -> exists key, e = KeyError key.
Proof.
  unfold decode_output.
  destruct (dict_item (Client.byproduct_db c) node) as [byproduct | e'] eqn:Hb.
  - simpl.
    destruct (sum_items _ (ByProduct.z_domain byproduct)) as [s | e'] eqn:Hs.
    + simpl. destruct (sum_items _ (ByProduct.x_domain byproduct)) as [t | e'] eqn:Ht.
      * discriminate.
      * simpl. intros [= <-].
        apply sum_items_raises in Ht as (key & -> & _). by exists key.
    + simpl. intros [= <-].
      apply sum_items_raises in Hs as (key & -> & _). by exists key.
  - simpl. intros [= <-]. apply dict_item_raises in Hb. by exists node.
Qed.

Lemma trap_outcomes_raises (results : gmap nat Z) (traps_list : list (list nat))
    (e : Exc) :
  trap_outcomes_of results traps_list = Raise e -> exists key, e = KeyError key.
Proof.
  unfold trap_outcomes_of.
  enough (forall acc,
            for_each_exc traps_list
              (fun trap trap_outcomes =>
                 outcomes ← sum_items results trap;
                 Ok (trap_outcomes ++ [outcomes mod 2]))
              acc
            = Raise e -> exists key, e = KeyError key) as Hgen by apply Hgen.
  induction traps_list as [| t traps IH]; intros acc; [discriminate |].
  cbn [for_each_exc]. destruct (sum_items results t) as [s | e'] eqn:Hsum.
  - simpl. apply IH.
  - simpl. intros [= <-].
    apply sum_items_raises in Hsum as (key & -> & _). by exists key.
Qed.

Section exceptions.
Context `{GraphixLib} {B : Type} `{!Backend B}.

Lemma on_backend_modify_total (f : B -> B) :
  raises_only_KeyError (on_backend (py_modify f)).
Proof. apply only_KeyError_total. intros [c backend]. by exists tt. Qed.

Lemma MeasureMethod_measure_raises (node : nat) :
  raises_only_KeyError (MeasureMethod_measure (B := B) node).
Proof.
  unfold MeasureMethod_measure.
  apply only_KeyError_bind.
  { intros [c backend] e. unfold py_lift. simpl.
    apply get_measurement_description_raises. }
  intros description. apply only_KeyError_bind.
  { apply only_KeyError_total. intros [c backend]. unfold on_backend.
    destruct (measure backend node description) as [result backend'].
    by exists result. }
  intros result [c backend] e. unfold on_client, set_measure_result. simpl.
  case_bool_decide; [| discriminate].
  destruct (dict_item _ node) as [r_node | e'] eqn:Hr; simpl; [discriminate |].
  intros [= <-]. apply dict_item_raises in Hr. by exists node.
Qed.

Lemma run_command_raises (cmd : Command) :
  kind cmd <> CommandKind.X -> kind cmd <> CommandKind.Z ->
  raises_only_KeyError (run_command (B := B) cmd).
Proof.
  intros HX HZ.
  destruct cmd; simpl in *; try done;
    first [ apply on_backend_modify_total | apply MeasureMethod_measure_raises ].
Qed.

Lemma PatternSimulator_run_raises (pattern : Pattern.t) :
  (forall cmd, cmd ∈ Pattern.seq pattern ->
     kind cmd <> CommandKind.X /\ kind cmd <> CommandKind.Z) ->
  raises_only_KeyError (PatternSimulator_run (B := B) pattern).
Proof.
  intros Hseq. unfold PatternSimulator_run.
  apply only_KeyError_bind; [| intros _; apply on_backend_modify_total].
  apply only_KeyError_for. intros cmd Hcmd.
  destruct (Hseq cmd Hcmd). by apply run_command_raises.
Qed.

Lemma decode_output_state_raises (c : Client.t) :
  raises_only_KeyError (decode_output_state (B := B) c).
Proof.
  unfold decode_output_state. apply only_KeyError_for. intros node _.
  unfold decode_output_node. apply only_KeyError_bind.
  { intros backend e. unfold py_lift. simpl. apply decode_output_raises. }
  intros [z_decoding x_decoding].
  apply only_KeyError_total. intros backend. by exists tt.
Qed.
End exceptions.

Lemma cleaned_kinds (pattern : Pattern.t) (cmd : Command) :
  cmd ∈ Pattern.seq (prepared_nodes_as_input_nodes (remove_flow pattern)) ->
  kind cmd <> CommandKind.X /\ kind cmd <> CommandKind.Z.
Proof.
  destruct (prepared_nodes_as_input_nodes_seq (remove_flow pattern)) as [-> _].
  destruct (remove_flow_seq pattern) as [-> _].
  intros Hcmd. apply list_elem_of_filter in Hcmd as [_ Hcmd].
  apply list_elem_of_omap in Hcmd as (cmd0 & _ & Hclean).
  apply clean_command_kind in Hclean as (HX & HZ & _). by split.
Qed.

(** A delegation never reaches [get_measure_result]: the clean pattern of a
    client, made by [remove_flow] and [prepared_nodes_as_input_nodes], has no
    correction command, so that neither [delegate_pattern] nor
    [delegate_test_run] raises the [ValueError] of that method; the only
    exception either of them raises is the [KeyError] of a dictionary (the
    measurement table, the results store, the [r] secrets or the byproduct
    table) that has no entry for a node. *)
Theorem delegation_raises_only_KeyError `{GraphixLib} (B : Type) `(!Backend B)
    (pattern : Pattern.t) (c : Client.t) (backend : B) (run : TrappifiedCanvas.t)
    (e : Exc) :
  Client.clean_pattern c = prepared_nodes_as_input_nodes (remove_flow pattern) ->
  (delegate_pattern (c, backend)).1 = Raise e \/
  (delegate_test_run run (c, backend)).1 = Raise e ->
  exists key, e = KeyError key.
Proof.
  intros Hclean.
  assert (raises_only_KeyError (PatternSimulator_run (B := B) (Client.clean_pattern c)))
    as Hsim.
  { apply PatternSimulator_run_raises. rewrite Hclean. apply cleaned_kinds. }
  intros [Hrun | Hrun]; revert Hrun.
  - unfold delegate_pattern, py_bind, py_lift. simpl.
    match goal with
    | |- context [PatternSimulator_run ?p ?st] =>
        pose proof (Hsim st) as Hst;
        destruct (PatternSimulator_run p st) as [[[] | e'] [c' backend']]
    end; simpl in *.
    + pose proof (decode_output_state_raises c' backend') as Hdec.
      destruct (decode_output_state c' backend') as [[[] | e'] backend'']; simpl in *;
        [discriminate |].
      intros [= <-]. by apply Hdec.
    + intros [= <-]. by apply Hst.
  - unfold delegate_test_run, py_bind, py_lift, on_client, py_modify, py_ret. simpl.
    match goal with
    | |- context [PatternSimulator_run ?p ?st] =>
        pose proof (Hsim st) as Hst;
        destruct (PatternSimulator_run p st) as [[[] | e'] [c' backend']]
    end; simpl in *.
    + destruct (trap_outcomes_of (Client.results c') _) as [outs | e'] eqn:Houts;
        simpl; [discriminate |].
      intros [= <-]. by apply trap_outcomes_raises in Houts.
    + intros [= <-]. by apply Hst.
Qed.

Lemma delegation_raises_only_KeyError_witness :
  (delegate_pattern (Client.set_results example_client ∅, silent_recorder)).1
  = Raise (KeyError 7) /\
  exists key, KeyError 7 = KeyError key.
Proof.
  assert ((delegate_pattern (Client.set_results example_client ∅, silent_recorder)).1
          = Raise (KeyError 7)) as Hrun by (vm_compute; reflexivity).
  split; [exact Hrun |].
  apply (delegation_raises_only_KeyError Recorder Recorder_Backend
           preprocessed_pattern (Client.set_results example_client ∅)
           silent_recorder example_canvas (KeyError 7)).
  - reflexivity.
  - left. exact Hrun.
Defined.

(** ** What a run records *)

Section recording.
Context `{GraphixLib} {B : Type} `{!Backend B}.

Lemma set_measure_result_recorded (node n : nat) (result : bool) :
  preserves (recorded node) (on_client (B := B) (set_measure_result n result)).
Proof.
  intros [c backend] [Hr (v & Hv & Hbit)].
  unfold on_client, set_measure_result, recorded in *. simpl in *.
  assert (is_bit (Z.b2z result)) as Hb by (destruct result; [by right | by left]).
  destruct (decide (n = node)) as [-> | Hne].
  - case_bool_decide.
    + destruct (SecretDatas.r (Client.secret_datas c) !! node) as [r_node |] eqn:Hnode.
      * rewrite (dict_item_Some _ _ _ Hnode). simpl. split; [done |].
        eexists. rewrite lookup_insert_eq. split; [done |].
        apply is_bit_lxor; [done | by apply (Hr node)].
      * rewrite (dict_item_None _ _ Hnode). simpl. split; [done |]. by exists v.
    + simpl. split; [done |]. eexists. rewrite lookup_insert_eq. by split.
  - case_bool_decide; [destruct (dict_item _ n) |]; simpl; (split; [done |]);
      exists v; by rewrite ?lookup_insert_ne.
Qed.

Lemma on_backend_recorded {A} (node : nat) (m : Py B A) :
  preserves (recorded node) (on_backend m).
Proof.
  intros [c backend] Hs. unfold on_backend. by destruct (m backend).
Qed.

Lemma run_command_recorded (node : nat) (cmd : Command) :
  preserves (recorded node) (run_command (B := B) cmd).
Proof.
  assert (forall n, preserves (recorded node) (MeasureMethod_measure (B := B) n))
    as Hmeasure.
  { intros n. unfold MeasureMethod_measure.
    apply preserves_bind; [apply preserves_lift |]. intros description.
    apply preserves_bind; [apply on_backend_recorded |]. intros result.
    apply set_measure_result_recorded. }
  destruct cmd; simpl;
    first [ apply on_backend_recorded | apply Hmeasure | idtac ].
  all: unfold correct_byproduct;
    (apply preserves_bind; [apply preserves_lift |]); intros outcomes;
    case_bool_decide; [apply on_backend_recorded | apply preserves_ret].
Qed.

(** A measurement that returns has recorded a bit for its node. *)
Lemma MeasureMethod_measure_records (node : nat) (st : Client.t * B) :
  bits (SecretDatas.r (Client.secret_datas st.1)) ->
  (MeasureMethod_measure node st).1 = Ok tt ->
  recorded node (MeasureMethod_measure node st).2.
Proof.
  destruct st as [c backend]. intros Hr.
  unfold MeasureMethod_measure, py_bind, py_lift, on_backend, on_client. simpl.
  destruct (get_measurement_description c node) as [description | e]; simpl;
    [| discriminate].
  destruct (measure backend node description) as [result backend']. simpl.
  pose proof (set_measure_result_bit c node result Hr) as Hbit.
  destruct (set_measure_result node result c) as [[[] | e] c'] eqn:Hset; simpl in *;
    [| discriminate].
  intros _. split; [| by apply Hbit].
  unfold set_measure_result in Hset.
  destruct (if bool_decide _ then _ else _) as [v | e] in Hset; [| discriminate].
  by injection Hset as <-.
Qed.

Lemma run_command_records (node : nat) (cmd : Command) (st : Client.t * B) :
  measured_node cmd = Some node ->
  bits (SecretDatas.r (Client.secret_datas st.1)) ->
  (run_command cmd st).1 = Ok tt ->
  recorded node (run_command cmd st).2.
Proof.
  intros Hcmd. destruct cmd; simpl in Hcmd; try discriminate;
    injection Hcmd as <-; apply MeasureMethod_measure_records.
Qed.

Lemma py_for_records (node : nat) (cmds : list Command) (cmd : Command)
    (st : Client.t * B) :
  cmd ∈ cmds -> measured_node cmd = Some node ->
  bits (SecretDatas.r (Client.secret_datas st.1)) ->
  (py_for cmds run_command st).1 = Ok tt ->
  recorded node (py_for cmds run_command st).2.
Proof.
  intros Hin Hcmd. revert st Hin. induction cmds as [| cmd0 cmds IH]; intros st Hin Hr.
  - by apply elem_of_nil in Hin.
  - cbn [py_for]. unfold py_bind.
    pose proof (run_command_keeps
                  (fun c => bits (SecretDatas.r (Client.secret_datas c)))
                  ltac:(done) cmd0 st Hr) as Hr1.
    apply elem_of_cons in Hin as [-> | Hin].
    + pose proof (run_command_records node cmd0 st Hcmd Hr) as Hrec.
      destruct (run_command cmd0 st) as [[[] | e] st1]; simpl in *; [| discriminate].
      intros _. apply preserves_for; [| by apply Hrec].
      intros x _. apply run_command_recorded.
    + destruct (run_command cmd0 st) as [[[] | e] st1]; simpl in *; [| discriminate].
      by apply IH.
Qed.

Lemma PatternSimulator_run_records (node : nat) (pattern : Pattern.t) (cmd : Command)
    (st : Client.t * B) :
  cmd ∈ Pattern.seq pattern -> measured_node cmd = Some node ->
  bits (SecretDatas.r (Client.secret_datas st.1)) ->
  (PatternSimulator_run pattern st).1 = Ok tt ->
  recorded node (PatternSimulator_run pattern st).2.
Proof.
  intros Hin Hcmd Hr. unfold PatternSimulator_run, py_bind.
  pose proof (py_for_records node (Pattern.seq pattern) cmd st Hin Hcmd Hr) as Hrec.
  destruct (py_for (Pattern.seq pattern) run_command st) as [[[] | e] [c' backend']];
    simpl in *; [| discriminate].
  intros _. by apply Hrec.
Qed.
End recording.

(** A run that returns has recorded a bit for every node its clean pattern
    measures: when the [r] secrets of the client are bits, after
    [delegate_pattern] or [delegate_test_run] returns, the results store holds
    0 or 1 for each node that a command of the clean pattern measures. *)
Theorem runs_record_bits `{GraphixLib} (B : Type) `(!Backend B) (c : Client.t)
    (backend : B) (run : TrappifiedCanvas.t) (cmd : Command) (node : nat) :
  bits (SecretDatas.r (Client.secret_datas c)) ->
  cmd ∈ Pattern.seq (Client.clean_pattern c) ->
  measured_node cmd = Some node ->
  ((delegate_pattern (c, backend)).1 = Ok tt ->
   exists v, Client.results (delegate_pattern (c, backend)).2.1 !! node = Some v /\
             is_bit v) /\
  (forall trap_outcomes,
     (delegate_test_run run (c, backend)).1 = Ok trap_outcomes ->
     exists v,
       Client.results (delegate_test_run run (c, backend)).2.1 !! node = Some v /\
       is_bit v).
Proof.
  intros Hr Hin Hcmd. split.
  - unfold delegate_pattern, py_bind, py_lift. simpl.
    match goal with
    | |- context [PatternSimulator_run ?p ?st] =>
        pose proof (PatternSimulator_run_records node p cmd st Hin Hcmd Hr) as Hrec;
        destruct (PatternSimulator_run p st) as [[[] | e] [c' backend']]
    end; simpl in *; [| discriminate].
    destruct (decode_output_state c' backend') as [[[] | e] backend'']; simpl;
      [| discriminate].
    intros _. by destruct (Hrec eq_refl) as [_ Hv].
  - intros trap_outcomes.
    unfold delegate_test_run, py_bind, py_lift, on_client, py_modify, py_ret. simpl.
    match goal with
    | |- context [PatternSimulator_run ?p ?st] =>
        pose proof (PatternSimulator_run_records node p cmd st Hin Hcmd Hr) as Hrec;
        destruct (PatternSimulator_run p st) as [[[] | e] [c' backend']]
    end; simpl in *; [| discriminate].
    destruct (trap_outcomes_of (Client.results c') _); simpl; [| discriminate].
    intros _. by destruct (Hrec eq_refl) as [_ Hv].
Qed.

Lemma runs_record_bits_witness :
  bits (SecretDatas.r (Client.secret_datas example_client)) /\
  (delegate_pattern (example_client, silent_recorder)).1 = Ok tt /\
  exists v,
    Client.results (delegate_pattern (example_client, silent_recorder)).2.1 !! 0%nat
    = Some v /\ is_bit v.
Proof.
  assert (bits (SecretDatas.r (Client.secret_datas example_client))) as Hr.
  { intros key v.
    change (SecretDatas.r (Client.secret_datas example_client))
      with (<[ 0%nat := 1 ]> ({[ 1%nat := 0 ]} : gmap nat Z)).
    destruct (decide (key = 0%nat)) as [-> | H0].
    - rewrite lookup_insert_eq. intros [= <-]. by right.
    - rewrite lookup_insert_ne by done.
      destruct (decide (key = 1%nat)) as [-> | H1].
      + rewrite lookup_singleton_eq. intros [= <-]. by left.
      + by rewrite lookup_singleton_ne. }
  assert ((delegate_pattern (example_client, silent_recorder)).1 = Ok tt) as Hrun
    by (vm_compute; reflexivity).
  split; [exact Hr |]. split; [exact Hrun |].
  apply (proj1 (runs_record_bits Recorder Recorder_Backend example_client
                  silent_recorder example_canvas (cmd_BaseM 0) 0%nat Hr
                  ltac:(right; by left) eq_refl)).
  exact Hrun.
Defined.

(** ** The byproduct table *)

Lemma fresh_byproduct_db (output_nodes : list nat) (node : nat) :
  for_each output_nodes (fun node db => <[node := ByProduct.mk [] []]> db)
    (∅ : gmap nat ByProduct.t) !! node
  = if bool_decide (node ∈ output_nodes) then Some (ByProduct.mk [] []) else None.
Proof.
  induction output_nodes as [| x l IH] using rev_ind.
  - by rewrite bool_decide_eq_false_2 by apply not_elem_of_nil.
  - rewrite for_each_snoc. destruct (decide (node = x)) as [-> | Hne].
    + rewrite lookup_insert_eq, bool_decide_eq_true_2; [done |].
      apply elem_of_app. right. by left.
    + rewrite lookup_insert_ne, IH by done.
      destruct (decide (node ∈ l)) as [Hin | Hout].
      * rewrite !bool_decide_eq_true_2; [done | | done].
        apply elem_of_app. by left.
      * rewrite !bool_decide_eq_false_2; [done | | done].
        intros Habs. apply elem_of_app in Habs as [Habs | Habs]; [done |].
        apply list_elem_of_singleton in Habs. congruence.
Qed.

Lemma last_domain_snoc (is_Z : bool) (node : nat) (corrections : list Correction.t)
    (cmd : Correction.t) :
  last_domain is_Z node (corrections ++ [cmd])
  = if bool_decide (Correction.is_Z cmd = is_Z /\ Correction.node cmd = node)
    then Correction.domain cmd
    else last_domain is_Z node corrections.
Proof.
  unfold last_domain. rewrite filter_app.
  case_bool_decide as Hcmd.
  - rewrite filter_cons_True, filter_nil by done.
    rewrite fmap_app.
    change (Correction.domain <$> [cmd]) with [Correction.domain cmd].
    by rewrite last_snoc.
  - rewrite filter_cons_False, filter_nil by done. by rewrite app_nil_r.
Qed.

(** The byproduct table has an entry for each output node of the pattern and
    for no other node; the entry of an output node holds, for Z and for X, the
    domain of the last correction of that kind on the node, and the empty
    domain when the pattern has none. Corrections on other nodes are
    ignored. *)
Theorem get_byproduct_db_spec (output_nodes : list nat)
    (corrections : list Correction.t) (node : nat) :
  get_byproduct_db output_nodes corrections !! node
  = if bool_decide (node ∈ output_nodes)
    then Some (ByProduct.mk (last_domain true node corrections)
                 (last_domain false node corrections))
    else None.
Proof.
  unfold get_byproduct_db.
  induction corrections as [| cmd cmds IH] using rev_ind.
  - apply fresh_byproduct_db.
  - rewrite for_each_snoc, !last_domain_snoc.
    destruct (decide (node ∈ output_nodes)) as [Hin | Hout].
    + rewrite (bool_decide_eq_true_2 (node ∈ output_nodes)) in IH |- * by done.
      destruct (decide (Correction.node cmd = node)) as [Heq | Hne].
      * rewrite (bool_decide_eq_true_2 (Correction.node cmd ∈ output_nodes))
          by (by rewrite Heq).
        destruct (Correction.is_Z cmd) eqn:HZ; rewrite <- Heq, lookup_alter_eq;
          rewrite Heq, IH; simpl.
        -- by rewrite bool_decide_eq_true_2 by done.
        -- by rewrite bool_decide_eq_true_2 by done.
      * rewrite !(bool_decide_eq_false_2 (_ /\ Correction.node cmd = node))
          by (by intros [_ ?]).
        case_bool_decide; [| done].
        destruct (Correction.is_Z cmd); by rewrite lookup_alter_ne.
    + rewrite (bool_decide_eq_false_2 (node ∈ output_nodes)) in IH |- * by done.
      case_bool_decide as Hnode; [| done].
      assert (Correction.node cmd <> node) as Hne by congruence.
      destruct (Correction.is_Z cmd); by rewrite lookup_alter_ne.
Qed.

(** ** Cleaning a pattern *)

Lemma omap_executed_twice (cmds : list Command) :
  omap executed_command (omap executed_command cmds) = omap executed_command cmds.
Proof.
  induction cmds as [| cmd cmds IH]; [done |].
  destruct cmd; cbn [omap list_omap executed_command clean_command];
    by rewrite ?IH.
Qed.

Lemma prepared_nodes_executed (cmds : list Command) :
  prepared_nodes (omap executed_command cmds) = [].
Proof.
  unfold prepared_nodes.
  induction cmds as [| cmd cmds IH]; [done |].
  destruct cmd; cbn [omap list_omap executed_command clean_command];
    by rewrite ?IH.
Qed.

Lemma cleaned_fields (pattern : Pattern.t) :
  cleaned pattern
  = Pattern.mk (Pattern.input_nodes pattern ++ prepared_nodes (Pattern.seq pattern))
      (omap executed_command (Pattern.seq pattern)) ∅.
Proof.
  unfold cleaned, prepared_nodes_as_input_nodes.
  rewrite prepared_loop, extend_seq.
  destruct (remove_flow_seq pattern) as [-> ->].
  by rewrite filter_omap_clean, prepared_nodes_clean.
Qed.

(** Cleaning is idempotent: the clean pattern of a clean pattern is that
    pattern. The input nodes of a clean pattern are the input nodes of the
    pattern followed by the nodes it prepares, in the order of their
    commands; its results are empty, whatever the results of the pattern. *)
Theorem cleaned_idempotent (pattern : Pattern.t) :
  cleaned (cleaned pattern) = cleaned pattern /\
  Pattern.input_nodes (cleaned pattern)
  = Pattern.input_nodes pattern ++ prepared_nodes (Pattern.seq pattern) /\
  Pattern.results (cleaned pattern) = ∅.
Proof.
  rewrite (cleaned_fields (cleaned pattern)), (cleaned_fields pattern). simpl.
  by rewrite omap_executed_twice, prepared_nodes_executed, app_nil_r.
Qed.

(** ** A client without secrets *)

Lemma blind_qubits_no_secrets `{GraphixLib} {B : Type} `{!Backend B} (c : Client.t)
    (backend : B) :
  SecretDatas.theta (Client.secret_datas c) = ∅ ->
  Secret_a.a (SecretDatas.a (Client.secret_datas c)) = ∅ ->
  blind_qubits c backend = backend.
Proof.
  intros Htheta Ha. unfold blind_qubits. rewrite Htheta, Ha.
  induction (Client.nodes_list c) as [| node nodes IH] using rev_ind; [done |].
  rewrite for_each_snoc, IH. unfold dict_get0. by rewrite lookup_empty.
Qed.

(** A client built without secrets hides nothing and draws nothing: the
    constructor leaves the random generator as it found it and returns a
    client whose secret dictionaries are all empty; refreshing its randomness
    changes nothing; blinding applies no operation to the backend; and the
    outcome of a measurement is recorded as the backend reported it. *)
Theorem client_without_secrets `{GraphixLib} (pattern : Pattern.t)
    (input_state : option (list State)) (g : Rng) :
  exists c,
    Client_init pattern input_state None g = (Ok c, g) /\
    Client.secret_datas c = SecretDatas.mk ∅ (Secret_a.mk ∅ ∅) ∅ /\
    (forall g', refresh_randomness c g' = (Ok c, g')) /\
    (forall (B : Type) `(!Backend B) (backend : B), blind_qubits c backend = backend) /\
    (forall node result,
       set_measure_result node result c
       = (Ok tt, Client.set_results c (<[node := Z.b2z result]> (Client.results c)))).
Proof.
  unfold Client_init. simpl.
  destruct (get_graph pattern) as [node_list edge_list] eqn:Hgraph. simpl.
  eexists. split; [reflexivity |]. simpl.
  split; [done |]. split; [done |]. split.
  - intros B I backend. by apply blind_qubits_no_secrets.
  - intros node result. unfold set_measure_result. simpl.
    by rewrite bool_decide_eq_false_2 by (by intros []).
Qed.

(** * The test runs of the client *)

Lemma fresh_nodes_by_color (colors : list nat) (color : nat) :
  for_each colors (fun c nodes_by_color => <[c := []]> nodes_by_color)
    (∅ : gmap nat (list nat)) !! color
  = if bool_decide (color ∈ colors) then Some [] else None.
Proof.
  induction colors as [| x l IH] using rev_ind.
  - by rewrite bool_decide_eq_false_2 by apply not_elem_of_nil.
  - rewrite for_each_snoc. destruct (decide (color = x)) as [-> | Hne].
    + rewrite lookup_insert_eq, bool_decide_eq_true_2; [done |].
      apply elem_of_app. right. by left.
    + rewrite lookup_insert_ne, IH by done.
      destruct (decide (color ∈ l)) as [Hin | Hout].
      * rewrite !bool_decide_eq_true_2; [done | | done].
        apply elem_of_app. by left.
      * rewrite !bool_decide_eq_false_2; [done | | done].
        intros Habs. apply elem_of_app in Habs as [Habs | Habs]; [done |].
        apply list_elem_of_singleton in Habs. congruence.
Qed.

(** The loop that sorts the nodes by colour appends each node to the list of
    its colour. *)
Lemma nodes_by_color_loop (coloring : gmap nat nat) (colors nodes : list nat)
    (nodes_by_color : gmap nat (list nat)) :
  (forall node, node ∈ nodes ->
     exists color, coloring !! node = Some color /\ color ∈ colors) ->
  (forall color, color ∈ colors -> is_Some (nodes_by_color !! color)) ->
  exists nodes_by_color',
    for_each_exc nodes
      (fun node nodes_by_color =>
         color ← dict_item coloring node;
         nodes ← dict_item nodes_by_color color;
         Ok (<[color := nodes ++ [node]]> nodes_by_color))
      nodes_by_color
    = Ok nodes_by_color' /\
    forall color,
      nodes_by_color' !! color
      = (fun l => l ++ filter (fun node => coloring !! node = Some color) nodes)
          <$> nodes_by_color !! color.
Proof.
  revert nodes_by_color.
  induction nodes as [| node nodes IH]; intros nodes_by_color Hcol Hentries.
  - exists nodes_by_color. split; [done |]. intros color.
    rewrite filter_nil. destruct (nodes_by_color !! color); simpl; [| done].
    by rewrite app_nil_r.
  - destruct (Hcol node ltac:(by left)) as (color & Hcolor & Hin).
    destruct (Hentries color Hin) as [l Hl].
    cbn [for_each_exc].
    rewrite (dict_item_Some _ _ _ Hcolor). simpl.
    rewrite (dict_item_Some _ _ _ Hl). simpl.
    destruct (IH (<[color := l ++ [node]]> nodes_by_color)) as (final & -> & Hfinal).
    { intros n Hn. apply Hcol. by right. }
    { intros c Hc. destruct (decide (c = color)) as [-> | Hne].
      - rewrite lookup_insert_eq. by eexists.
      - rewrite lookup_insert_ne by done. by apply Hentries. }
    exists final. split; [done |]. intros c. rewrite Hfinal.
    destruct (decide (c = color)) as [-> | Hne].
    + rewrite lookup_insert_eq, Hl. simpl.
      rewrite filter_cons_True by done. by rewrite <- app_assoc.
    + rewrite lookup_insert_ne by done.
      rewrite (filter_cons_False _ node) by congruence. done.
Qed.

Lemma nodes_by_color_of_ok (graph : nx.Graph) (coloring : gmap nat nat)
    (colors : list nat) :
  (forall node, node ∈ nx.nodes graph ->
     exists color, coloring !! node = Some color /\ color ∈ colors) ->
  exists nodes_by_color,
    nodes_by_color_of graph coloring colors = Ok nodes_by_color /\
    forall color, color ∈ colors ->
      nodes_by_color !! color = Some (color_class graph coloring color).
Proof.
  intros Hcol. unfold nodes_by_color_of.
  destruct (nodes_by_color_loop coloring colors (merge_sort Nat.le (nx.nodes graph))
              (for_each colors (fun c nodes_by_color => <[c := []]> nodes_by_color) ∅))
    as (final & Hrun & Hfinal).
  - intros node Hnode. apply Hcol.
    by rewrite <- (merge_sort_Permutation Nat.le (nx.nodes graph)).
  - intros color Hin. rewrite fresh_nodes_by_color.
    rewrite bool_decide_eq_true_2 by done. by eexists.
  - exists final. split; [done |]. intros color Hin.
    rewrite Hfinal, fresh_nodes_by_color. by rewrite bool_decide_eq_true_2.
Qed.

Lemma trap_qubits_single (nodes : list nat) :
  trap_qubits ((fun colored_node => [colored_node]) <$> nodes) = nodes.
Proof.
  unfold trap_qubits. induction nodes as [| n nodes IH]; [done |].
  rewrite fmap_cons. cbn [mbind list_bind app]. cbn [mbind list_bind app] in IH.
  by rewrite IH.
Qed.

Lemma elem_of_color_class (graph : nx.Graph) (coloring : gmap nat nat)
    (color node : nat) :
  node ∈ color_class graph coloring color
  <-> node ∈ nx.nodes graph /\ coloring !! node = Some color.
Proof.
  unfold color_class. rewrite list_elem_of_filter.
  rewrite (merge_sort_Permutation Nat.le (nx.nodes graph)). tauto.
Qed.

Lemma color_class_length (graph : nx.Graph) (coloring : gmap nat nat) (color : nat) :
  (length (color_class graph coloring color) <= length (nx.nodes graph))%nat.
Proof.
  unfold color_class.
  rewrite <- (Permutation_length (merge_sort_Permutation Nat.le (nx.nodes graph))).
  apply length_filter.
Qed.

Section test_runs_facts.
Context `{GraphixData}.
Variables (graph : nx.Graph) (coloring : gmap nat nat) (fuel : nat).
Hypothesis graph_wf : nx.wf graph.
Hypothesis graph_dense : dense graph.
Hypothesis coloring_nodes : colors_nodes graph coloring.
Hypothesis coloring_proper : proper graph coloring.
Hypothesis enough_fuel : (length (nx.nodes graph) + 3 <= fuel)%nat.

(** The canvas of one colour. *)
Lemma color_canvas (color : nat) (g : Rng) :
  (exists node, coloring !! node = Some color) ->
  exists cv g',
    TrappifiedCanvas_init fuel graph
      ((fun colored_node => [colored_node]) <$> color_class graph coloring color) g
    = (Some (Ok cv), g') /\
    TrappifiedCanvas.graph cv = graph /\
    TrappifiedCanvas.traps_list cv
    = (fun colored_node => [colored_node]) <$> color_class graph coloring color /\
    TrappifiedCanvas.trap_stabilizers cv = [TrappifiedCanvas.stabilizer cv].
Proof.
  intros [node Hnode].
  assert (node ∈ color_class graph coloring color) as Hclass.
  { apply elem_of_color_class. split; [| done]. apply coloring_nodes. by eexists. }
  destruct (color_class graph coloring color) as [| n ns] eqn:Hns.
  { by apply elem_of_nil in Hclass. }
  rewrite fmap_cons.
  destruct (TrappifiedCanvas_init_value graph [n]
              ((fun colored_node => [colored_node]) <$> ns) g fuel graph_wf
              graph_dense) as (coins & _ & Hrun).
  - intros t Ht.
    change (t ∈ trap_qubits ((fun colored_node => [colored_node]) <$> (n :: ns))) in Ht.
    rewrite trap_qubits_single, <- Hns in Ht.
    by apply elem_of_color_class in Ht as [Ht _].
  - change (apart graph
              (trap_qubits ((fun colored_node => [colored_node]) <$> (n :: ns)))).
    rewrite trap_qubits_single, <- Hns. intros t u nb Ht Hu Hadj Hnb.
    apply elem_of_color_class in Ht as [_ Ht], Hu as [_ Hu].
    apply (coloring_proper t u nb Hadj Hnb). by rewrite Ht, Hu.
  - pose proof (color_class_length graph coloring color) as Hlen.
    rewrite Hns in Hlen. simpl in *. rewrite length_fmap. lia.
  - destruct (TrappifiedCanvas_init fuel graph _ g) as [o g'].
    simpl in Hrun. subst o. by eexists _, g'.
Qed.

Lemma test_runs_loop_ok (nodes_by_color : gmap nat (list nat)) (colors : list nat)
    (runs : list TrappifiedCanvas.t) (g : Rng) :
  (forall color, color ∈ colors ->
     nodes_by_color !! color = Some (color_class graph coloring color) /\
     exists node, coloring !! node = Some color) ->
  exists runs',
    (test_runs_loop fuel graph nodes_by_color colors runs g).1
    = Some (Ok (runs ++ runs')) /\
    Forall2
      (fun color run =>
         TrappifiedCanvas.graph run = graph /\
         TrappifiedCanvas.traps_list run
         = (fun colored_node => [colored_node]) <$> color_class graph coloring color /\
         TrappifiedCanvas.trap_stabilizers run = [TrappifiedCanvas.stabilizer run])
      colors runs'.
Proof.
  revert runs g. induction colors as [| color colors IH]; intros runs g Hcolors.
  - exists []. rewrite app_nil_r. by split.
  - destruct (Hcolors color ltac:(by left)) as [Hclass Hnode].
    cbn [test_runs_loop]. rewrite (dict_item_Some _ _ _ Hclass).
    destruct (color_canvas color g Hnode) as (cv & g' & -> & Hcv).
    destruct (IH (runs ++ [cv]) g') as (runs' & -> & Hruns').
    { intros c Hc. apply Hcolors. by right. }
    exists (cv :: runs'). rewrite <- app_assoc. split; [done |].
    by constructor.
Qed.
End test_runs_facts.

Lemma client_nx_graph_wf `{GraphixData} (c : Client.t) : nx.wf (client_nx_graph c).
Proof.
  unfold client_nx_graph. destruct (Client.graph c) as [nodes edges].
  apply client_graph_wf.
Qed.

Lemma elem_of_colors (coloring : gmap nat nat) (color : nat) :
  color ∈ (list_to_set (map_to_list coloring).*2 : gset nat)
  <-> exists node, coloring !! node = Some color.
Proof.
  rewrite elem_of_list_to_set, list_elem_of_fmap. split.
  - intros ([node c] & -> & Hin). exists node. by apply elem_of_map_to_list.
  - intros [node Hnode]. exists (node, color). split; [done |].
    by apply elem_of_map_to_list.
Qed.

(** The test runs of a proper colouring are valid canvases. When the
    colouring is defined on the nodes of the graph, gives different colours
    to adjacent nodes, the node ids are below the number of nodes and each
    canvas has fuel for as many iterations as there are nodes,
    [create_test_runs] returns one canvas per colour, in the order in which
    the colours are iterated: the canvas of a colour is over the graph of the
    client, its traps are the single-node traps of the nodes of that colour in
    increasing order, and its stabilizers have merged into one. Every node of
    the graph is a trap of the canvas of its colour. *)
Theorem create_test_runs_valid `{GraphixData}
    (greedy_color : nx.Graph -> gmap nat nat) (set_iter : gset nat -> list nat)
    (c : Client.t) (g : Rng) (fuel : nat) :
  enumerates set_iter ->
  dense (client_nx_graph c) ->
  colors_nodes (client_nx_graph c) (greedy_color (client_nx_graph c)) ->
  proper (client_nx_graph c) (greedy_color (client_nx_graph c)) ->
  (length (nx.nodes (client_nx_graph c)) + 3 <= fuel)%nat ->
  exists runs,
    (create_test_runs greedy_color set_iter fuel c g).1 = Some (Ok runs) /\
    Forall2
      (fun color run =>
         TrappifiedCanvas.graph run = client_nx_graph c /\
         TrappifiedCanvas.traps_list run
         = (fun colored_node => [colored_node])
             <$> color_class (client_nx_graph c) (greedy_color (client_nx_graph c))
                   color /\
         TrappifiedCanvas.trap_stabilizers run = [TrappifiedCanvas.stabilizer run])
      (set_iter (list_to_set (map_to_list (greedy_color (client_nx_graph c))).*2))
      runs /\
    forall node, node ∈ nx.nodes (client_nx_graph c) ->
      exists color,
        color ∈ set_iter
                  (list_to_set (map_to_list (greedy_color (client_nx_graph c))).*2) /\
        node ∈ color_class (client_nx_graph c) (greedy_color (client_nx_graph c))
                 color.
Proof.
  intros Henum Hdense Hnodes Hproper Hfuel.
  unfold create_test_runs.
  set (graph := client_nx_graph c) in *.
  set (coloring := greedy_color graph) in *.
  set (colors := set_iter (list_to_set (map_to_list coloring).*2)).
  assert (forall color, color ∈ colors <-> exists node, coloring !! node = Some color)
    as Hcolors.
  { intros color. unfold colors. rewrite (Henum _ color). apply elem_of_colors. }
  assert (forall node, node ∈ nx.nodes graph ->
            exists color, coloring !! node = Some color /\ color ∈ colors) as Hcol.
  { intros node Hnode. apply Hnodes in Hnode as [color Hcolor].
    exists color. split; [done |]. apply Hcolors. by exists node. }
  destruct (nodes_by_color_of_ok graph coloring colors Hcol)
    as (nodes_by_color & -> & Hclasses).
  destruct (test_runs_loop_ok graph coloring fuel (client_nx_graph_wf c) Hdense
              Hnodes Hproper Hfuel nodes_by_color colors [] g)
    as (runs & Hrun & Hruns).
  { intros color Hcolor. split; [by apply Hclasses | by apply Hcolors]. }
  exists runs. split; [done |]. split; [done |].
  intros node Hnode. destruct (Hcol node Hnode) as (color & Hcolor & Hin).
  exists color. split; [done |]. by apply elem_of_color_class.
Qed.

Lemma two_node_adj : nx.adj two_node_graph = {[ 0%nat := [1%nat]; 1%nat := [0%nat] ]}.
Proof. vm_compute. reflexivity. Qed.

Lemma create_test_runs_valid_witness :
  exists runs,
    (create_test_runs two_colors elements 10 example_client counting_rng).1
    = Some (Ok runs) /\
    length runs = 2%nat.
Proof.
  destruct (create_test_runs_valid (H := named_data) two_colors elements
              example_client counting_rng 10)
    as (runs & Hrun & Hruns & _).
  - intros X x. apply elem_of_elements.
  - intros n Hn. change (nx.nodes (client_nx_graph example_client)) with [0; 1]%nat in *.
    apply elem_of_cons in Hn as [-> | Hn]; [simpl; lia |].
    apply list_elem_of_singleton in Hn as ->. simpl. lia.
  - intros node. change (nx.nodes (client_nx_graph example_client)) with [0; 1]%nat.
    unfold two_colors.
    destruct (decide (node = 0%nat)) as [-> | H0].
    { rewrite lookup_insert_eq. split; [by eexists | intros _; by left]. }
    rewrite lookup_insert_ne by done.
    destruct (decide (node = 1%nat)) as [-> | H1].
    { rewrite lookup_singleton_eq. split; [by eexists | intros _; right; by left]. }
    rewrite lookup_singleton_ne by done. split.
    + intros Hn. apply elem_of_cons in Hn as [-> | Hn]; [done |].
      by apply list_elem_of_singleton in Hn.
    + by intros [? [=]].
  - intros u v nb.
    change (client_nx_graph example_client) with two_node_graph.
    rewrite two_node_adj. unfold two_colors.
    destruct (decide (u = 0%nat)) as [-> | H0].
    { rewrite lookup_insert_eq. intros [= <-] Hv.
      apply list_elem_of_singleton in Hv as ->. by vm_compute. }
    rewrite lookup_insert_ne by done.
    destruct (decide (u = 1%nat)) as [-> | H1].
    { rewrite lookup_singleton_eq. intros [= <-] Hv.
      apply list_elem_of_singleton in Hv as ->. by vm_compute. }
    by rewrite lookup_singleton_ne.
  - change (nx.nodes (client_nx_graph example_client)) with [0; 1]%nat.
    simpl. lia.
  - exists runs. split; [exact Hrun |].
    apply Forall2_length in Hruns. rewrite <- Hruns. by vm_compute.
Defined.

(** * When merging does not end *)

(** A search that finds nothing to merge returns the list and the flag as
    they were, or runs out of fuel. *)
Lemma inner_while_clash (fuel : nat) (pauli_list : list PauliString.t)
    (i j : nat) (flag : bool) (p_i : PauliString.t) :
  pauli_list !! i = Some p_i ->
  (forall j' p_j, pauli_list !! j' = Some p_j -> (j <= j')%nat ->
     common_eigenstate p_i p_j = false) ->
  inner_while fuel pauli_list i j flag = None \/
  inner_while fuel pauli_list i j flag = Some (Ok (pauli_list, flag)).
Proof.
  intros Hi. revert j. induction fuel as [| fuel IH]; intros j Hclash; [by left |].
  rewrite inner_while_step. case_bool_decide as Hj; [| by right].
  rewrite Hi.
  destruct (lookup_lt_is_Some_2 pauli_list j Hj) as [p_j Hpj]. rewrite Hpj.
  rewrite (Hclash j p_j Hpj) by lia.
  apply IH. intros j' p_j' Hj' Hle. apply (Hclash j'); [done | lia].
Qed.

(** Once the flag is set, the index of the middle loop stays where it is:
    with a first stabilizer that clashes with all the others, the loop does
    not end. *)
Lemma middle_while_stuck_on (fuel : nat) (stuck : PauliString.t)
    (rest : list PauliString.t) :
  rest <> [] ->
  (forall s, s ∈ rest -> common_eigenstate stuck s = false) ->
  middle_while fuel (stuck :: rest) 0 true = None.
Proof.
  intros Hrest Hclash. induction fuel as [| fuel IH]; [done |].
  rewrite middle_while_step.
  rewrite bool_decide_eq_true_2 by (destruct rest; [done | simpl; lia]).
  destruct (inner_while_clash fuel (stuck :: rest) 0 (0 + 1) true stuck eq_refl)
    as [-> | ->]; [| done | exact IH].
  intros j' p_j Hj' Hle. destruct j' as [| j']; [lia |].
  simpl in Hj'. apply Hclash. by apply list_elem_of_lookup_2 in Hj'.
Qed.

(** [merge_pauli_list] does not return when a merge leaves a stabilizer that
    clashes with the rest: if the first two stabilizers of the list, of the
    same length, have a common eigenstate and their merge has none with any
    of the stabilizers that follow, of which there is at least one, the call
    neither returns nor raises, whatever the fuel. The flag [merged], set by
    the merge, is not cleared before the end of the pass, so the index [i]
    stays at the merged stabilizer. *)
Theorem merge_pauli_list_stuck_after_merge (first second : PauliString.t)
    (rest : list PauliString.t) (fuel : nat) :
  PauliString.len second = PauliString.len first ->
  common_eigenstate first second = true ->
  rest <> [] ->
  (forall s, s ∈ rest -> common_eigenstate (merged first second) s = false) ->
  merge_pauli_list fuel (first :: second :: rest) = None.
Proof.
  intros Hlen Hmerge Hrest Hclash. unfold merge_pauli_list.
  destruct fuel as [| fuel]; [done |]. rewrite outer_while_step.
  destruct fuel as [| fuel]; [done |]. rewrite middle_while_step.
  rewrite bool_decide_eq_true_2 by (simpl; lia).
  destruct fuel as [| fuel]; [done |]. rewrite inner_while_step.
  rewrite bool_decide_eq_true_2 by (simpl; lia).
  cbn [lookup list_lookup Nat.add]. rewrite Hmerge.
  rewrite (merge_same_length first second Hlen).
  cbn [insert list_insert delete list_delete].
  by rewrite (middle_while_stuck_on (S fuel) (merged first second) rest Hrest Hclash).
Qed.

Lemma merge_pauli_list_stuck_after_merge_witness :
  common_eigenstate (pauli_string [pX; pI]) (pauli_string [pI; pZ]) = true /\
  common_eigenstate (merged (pauli_string [pX; pI]) (pauli_string [pI; pZ]))
    (pauli_string [pZ; pI]) = false /\
  merge_pauli_list 100 late_clash_stabilizers = None.
Proof.
  split; [reflexivity |]. split; [reflexivity |].
  apply (merge_pauli_list_stuck_after_merge (pauli_string [pX; pI])
           (pauli_string [pI; pZ]) [pauli_string [pZ; pI]] 100).
  - reflexivity.
  - reflexivity.
  - done.
  - intros s Hs. apply list_elem_of_singleton in Hs as ->. reflexivity.
Defined.

(** * What the client keeps *)

(** [delegate_pattern] changes nothing of the client but its results store,
    whether it returns or raises: the patterns, the nodes, the graph, the
    measurement and byproduct tables, the secrets and the input state are
    those of the client before the call. *)
Theorem delegate_pattern_frame `{GraphixLib} (B : Type) `(!Backend B)
    (c : Client.t) (backend : B) :
  (delegate_pattern (c, backend)).2.1
  = Client.set_results c (Client.results (delegate_pattern (c, backend)).2.1).
Proof.
  unfold delegate_pattern, py_bind, py_lift. simpl.
  match goal with
  | |- context [PatternSimulator_run ?p (?c0, ?b0)] =>
      destruct (PatternSimulator_run_frame p c0 b0) as [results Hframe];
      destruct (PatternSimulator_run p (c0, b0)) as [[[] | e] [c' backend']]
  end; simpl in *; subst c'; [| done].
  by destruct (decode_output_state _ backend').
Qed.

(** [refresh_randomness] never raises and changes nothing of the client but
    its secret data; on a client with no secrets it changes nothing and
    leaves the generator as it is. The secrets are a function of the state of
    the generator: refreshing from the state in which the client was built
    gives that client again, and the generator the constructor left. *)
Theorem refresh_randomness_spec `{GraphixLib} (c : Client.t) (g : Rng) :
  (exists c',
     (refresh_randomness c g).1 = Ok c' /\
     c' = Client.set_secret_datas c (Client.secret_datas c')) /\
  (Client.secrets c = None -> refresh_randomness c g = (Ok c, g)) /\
  (forall pattern input_state g',
     Client_init pattern input_state (Client.secrets c) g = (Ok c, g') ->
     refresh_randomness c g = (Ok c, g')).
Proof.
  split; [| split].
  - unfold refresh_randomness. destruct (Client.secrets c) as [secrets |].
    + destruct (from_secrets_returns secrets (Client.graph c) (Client.input_nodes c)
                  (Client.output_nodes c) g) as [sd Hsd].
      destruct (from_secrets _ _ _ _ g) as [o g']. simpl in Hsd. subst o. simpl.
      by eexists.
    + exists c. split; [done |]. by destruct c.
  - unfold refresh_randomness. by intros ->.
  - intros pattern input_state g'. unfold Client_init, refresh_randomness.
    destruct (Client.secrets c) as [secrets |] eqn:Hsecrets.
    + simpl.
      destruct (from_secrets secrets (get_graph pattern) (Pattern.input_nodes pattern)
                  (pattern_output_nodes pattern) g) as [[sd | e] g1] eqn:Hfrom;
        simpl; [| discriminate].
      intros [= <- <-]. simpl. rewrite Hfrom. simpl. do 2 f_equal.
    + simpl.
      destruct (from_secrets Secrets.default (get_graph pattern)
                  (Pattern.input_nodes pattern) (pattern_output_nodes pattern) g)
        as [[sd | e] g1] eqn:Hfrom; simpl; [| discriminate].
      unfold from_secrets in Hfrom. destruct (get_graph pattern) in Hfrom.
      simpl in Hfrom. injection Hfrom as <- <-. by intros [= <- <-].
Qed.

(** [prepare_states] prepares every node once: when the nodes of the client
    are distinct and the input and output nodes are distinct nodes among
    them, the three calls of [add_nodes] (inputs, auxiliaries, outputs) cover
    the nodes of the client, each node in exactly one call; the auxiliaries
    are all prepared in |+> and each output node in |+> or |->, according to
    the XOR of its [r] and [a_N] secrets. *)
Theorem prepare_states_once `{GraphixLib} (B : Type) `(!Backend B)
    (c : Client.t) (backend : B) :
  NoDup (Client.nodes_list c) ->
  NoDup (Client.input_nodes c ++ Client.output_nodes c) ->
  (forall node, node ∈ Client.input_nodes c ++ Client.output_nodes c ->
     node ∈ Client.nodes_list c) ->
  exists aux_nodes output_data,
    prepare_states c backend
    = add_nodes
        (add_nodes
           (add_nodes backend (Client.input_nodes c)
              (data_states (Client.input_state c)))
           aux_nodes (data_states ((fun _ => BasicStates_PLUS) <$> aux_nodes)))
        (Client.output_nodes c) (data_states output_data) /\
    Client.input_nodes c ++ Client.output_nodes c ++ aux_nodes
      ≡ₚ Client.nodes_list c /\
    length output_data = length (Client.output_nodes c) /\
    forall i node, Client.output_nodes c !! i = Some node ->
      output_data !! i
      = Some (if bool_decide
                   (Z.lxor (dict_get0 (SecretDatas.r (Client.secret_datas c)) node)
                      (dict_get0 (Secret_a.a_N (SecretDatas.a (Client.secret_datas c)))
                         node) = 0)
              then BasicStates_PLUS else BasicStates_MINUS).
Proof.
  intros Hnodes Houter Hin. unfold prepare_states.
  set (outer := Client.input_nodes c ++ Client.output_nodes c) in *.
  eexists _, _. split; [reflexivity |]. split; [| split].
  - rewrite app_assoc. fold outer.
    etransitivity;
      [| apply (filter_app_complement (fun node => node ∈ outer) (Client.nodes_list c))].
    apply Permutation_app; [| done].
    apply NoDup_Permutation; [done | by apply NoDup_filter |].
    intros node. rewrite list_elem_of_filter. split; [| by intros [? _]].
    intros Hnode. split; [done | by apply Hin].
  - by rewrite length_fmap.
  - intros i node Hnode. by rewrite list_lookup_fmap, Hnode.
Qed.

Lemma prepare_states_once_witness :
  exists aux_nodes output_data,
    prepare_states example_client silent_recorder
    = @add_nodes named_data Recorder Recorder_Backend
        (@add_nodes named_data Recorder Recorder_Backend
           (@add_nodes named_data Recorder Recorder_Backend silent_recorder [0%nat]
              (data_states [state_plus]))
           aux_nodes (data_states ((fun _ => state_plus) <$> aux_nodes)))
        [1%nat] (data_states output_data) /\
    [0%nat] ++ [1%nat] ++ aux_nodes ≡ₚ [0; 1]%nat.
Proof.
  destruct (prepare_states_once Recorder Recorder_Backend example_client
              silent_recorder) as (aux_nodes & output_data & Hrun & Hperm & _).
  - simpl. apply NoDup_cons. split; [by intros ?%list_elem_of_singleton |].
    apply NoDup_singleton.
  - simpl. apply NoDup_cons. split; [by intros ?%list_elem_of_singleton |].
    apply NoDup_singleton.
  - intros node Hnode. exact Hnode.
  - exists aux_nodes, output_data. split; [exact Hrun | exact Hperm].
Defined.
